(** * Event-driven backtesting on tick data: bar aggregation and the
      blade-scalping signal engine

    A shallow embedding of [data.py] (class [HistoricCSVDataHandler]) and of
    the strategy class [BSStrategy] of [aapl_csv_data.py], followed by the
    properties of the specification that concern them.

    Modelling conventions.
    - Python floats are read as exact rationals ([Q]); comparisons are the
      boolean tests of the source, written with [Qcompare].
    - A pandas [Timestamp] is its integer count of nanoseconds since the
      epoch ([Z]).
    - A Python [dict] keyed by symbol is a [gmap string _]; a missing key
      raises [KeyError].
    - Exceptions are values of [exn] carried by the [result] monad.
    - The event queue, shared by the data handler and the strategy, is an
      explicit [list Event] threaded through both. *)

From Stdlib Require Import ZArith QArith Qminmax Lqa.
From stdpp Require Import base option list gmap strings sorting.

Open Scope Z_scope.

(** ** Python runtime: exceptions, sequencing, slices *)

Inductive exn : Type :=
  | KeyError
  | IndexError
  | ValueError
  | FileNotFoundError.

Inductive result (A : Type) : Type :=
  | Ok (a : A)
  | Raise (e : exn).
Arguments Ok {A} a.
Arguments Raise {A} e.

#[global] Instance result_ret : MRet result := fun A a => Ok a.
#[global] Instance result_bind : MBind result :=
  fun A B f m => match m with Ok a => f a | Raise e => Raise e end.

(** [for x in l: body] over a state, stopping at the first exception. *)
Fixpoint for_each {A S : Type} (body : A -> S -> result S) (l : list A) (st : S)
  : result S :=
  match l with
  | [] => Ok st
  | x :: l' => st' ← body x st; for_each body l' st'
  end.

(** [d[k]] on a dict. *)
Definition getitem {V : Type} (d : gmap string V) (k : string) : result V :=
  match d !! k with
  | Some v => Ok v
  | None => Raise KeyError
  end.

(** [l[i]] and [l[i] = v] on a list, for a non-negative index. *)
Definition list_getitem {A : Type} (l : list A) (i : nat) : result A :=
  match l !! i with
  | Some x => Ok x
  | None => Raise IndexError
  end.

Definition list_setitem {A : Type} (l : list A) (i : nat) (v : A) : result (list A) :=
  if decide (i < length l)%nat then Ok (<[i:=v]> l) else Raise IndexError.

(** [l[-1]] (also [.iloc[-1]] of a pandas object). *)
Definition getitem_last {A : Type} (l : list A) : result A :=
  match List.rev l with
  | x :: _ => Ok x
  | [] => Raise IndexError
  end.

(** [l[start:]]: a negative [start] counts from the end and is clipped at
    the beginning; note that [l[-0:]] is [l[0:]], the whole list. *)
Definition slice_from {A : Type} (start : Z) (l : list A) : list A :=
  if start <? 0
  then drop (Z.to_nat (Z.max 0 (Z.of_nat (length l) + start))) l
  else drop (Z.to_nat start) l.

(** Float comparisons of the source. *)
Definition Qltb (a b : Q) : bool :=
  match (a ?= b)%Q with Lt => true | _ => false end.
Definition Qleb (a b : Q) : bool :=
  match (a ?= b)%Q with Gt => false | _ => true end.
Definition Qgtb (a b : Q) : bool := Qltb b a.
Definition Qgeb (a b : Q) : bool := Qleb b a.
Definition Qneb (a b : Q) : bool :=
  match (a ?= b)%Q with Eq => false | _ => true end.

(** ** Events (the two event kinds the sources construct) *)

Module Direction.
Inductive t : Type := LONG | SHORT | EXIT.
End Direction.

Record SignalEvent : Type := mkSignalEvent {
  strategy_id : Z;
  symbol : string;
  sig_datetime : Z;
  signal_type : Direction.t;
  strength : Q
}.

Inductive Event : Type :=
  | MarketEvent
  | Signal (sg : SignalEvent).

(** [event.type] as a tag. *)
Inductive EventType : Type := MARKET | SIGNAL.
Definition event_type (e : Event) : EventType :=
  match e with MarketEvent => MARKET | Signal _ => SIGNAL end.

(** ** data.py: [HistoricCSVDataHandler] *)

Module Data.

(** One record of a symbol's CSV file, as [read_csv(..., chunksize = 1)]
    hands it over: a one-row frame with index [datetime] and column
    [tick]. *)
Record Tick : Type := mkTick {
  datetime : Z;
  tick : Q
}.

(** One row of an [ohlc()] frame, indexed by the left edge of its bin. *)
Record Bar : Type := mkBar {
  label : Z;
  open : Q;
  high : Q;
  low : Q;
  close : Q
}.

(** The ["5T"] rule: five minutes in nanoseconds, bins anchored at the
    epoch, closed on the left and labelled by their left edge. *)
Definition five_minutes : Z := 300 * 1000000000.
Definition bin_of (t : Z) : Z := (t / five_minutes) * five_minutes.

(** [resample] first orders the rows by time with a stable sort. *)
Fixpoint insert_by_time (x : Tick) (l : list Tick) : list Tick :=
  match l with
  | [] => [x]
  | y :: l' =>
      if datetime x <=? datetime y then x :: l else y :: insert_by_time x l'
  end.

Definition sort_by_time (rows : list Tick) : list Tick :=
  foldr insert_by_time [] rows.

(** [list(rows.resample("5T", label='left', closed='left'))]: one
    (label, group) pair per bin from the bin of the earliest row to the
    bin of the latest one, empty bins included. *)
Definition resample_5T (rows : list Tick) : list (Z * list Tick) :=
  let sorted := sort_by_time rows in
  match sorted with
  | [] => []
  | r0 :: _ =>
      let lo := bin_of (datetime r0) in
      let hi := bin_of (datetime (List.last sorted r0)) in
      (fun i : nat =>
         let lbl := lo + Z.of_nat i * five_minutes in
         (lbl, filter (fun r => bin_of (datetime r) = lbl) sorted))
        <$> seq 0 (S (Z.to_nat ((hi - lo) / five_minutes)))
  end.

(** Open, high, low and close of the rows of one bin. *)
Definition ohlc_row (g : Z * list Tick) : option Bar :=
  match g.2 with
  | [] => None
  | r :: rest =>
      Some {| label := g.1;
              open := tick r;
              high := fold_left Qmax (tick <$> rest) (tick r);
              low := fold_left Qmin (tick <$> rest) (tick r);
              close := tick (List.last rest r) |}
  end.

(** [rows.resample("5T", ...).ohlc().droplevel(0, axis=1)]: one row per
    bin.  It is only ever applied to a single group of a previous
    resample, which has one bin; the all-NaN row pandas would produce for
    an empty bin has no counterpart here and is left out. *)
Definition ohlc (rows : list Tick) : list Bar :=
  omap ohlc_row (resample_5T rows).

Record HistoricCSVDataHandler : Type := mkHandler {
  symbol_list : list string;
  (** the chunk readers: the records not yet read *)
  symbol_data : gmap string (list Tick);
  latest_symbol_data : gmap string (list Tick);
  latest_bars_data : gmap string (list (list Bar));
  current_bar : gmap string (list Tick);
  downsamp : gmap string (option (list (Z * list Tick)));
  continue_backtest : bool;
  bar_index : Z
}.

Definition set_symbol_data (f : gmap string (list Tick) -> gmap string (list Tick))
  (h : HistoricCSVDataHandler) : HistoricCSVDataHandler :=
  mkHandler (symbol_list h) (f (symbol_data h)) (latest_symbol_data h)
    (latest_bars_data h) (current_bar h) (downsamp h) (continue_backtest h)
    (bar_index h).
Definition set_latest_symbol_data (f : gmap string (list Tick) -> gmap string (list Tick))
  (h : HistoricCSVDataHandler) : HistoricCSVDataHandler :=
  mkHandler (symbol_list h) (symbol_data h) (f (latest_symbol_data h))
    (latest_bars_data h) (current_bar h) (downsamp h) (continue_backtest h)
    (bar_index h).
Definition set_latest_bars_data
  (f : gmap string (list (list Bar)) -> gmap string (list (list Bar)))
  (h : HistoricCSVDataHandler) : HistoricCSVDataHandler :=
  mkHandler (symbol_list h) (symbol_data h) (latest_symbol_data h)
    (f (latest_bars_data h)) (current_bar h) (downsamp h) (continue_backtest h)
    (bar_index h).
Definition set_current_bar (f : gmap string (list Tick) -> gmap string (list Tick))
  (h : HistoricCSVDataHandler) : HistoricCSVDataHandler :=
  mkHandler (symbol_list h) (symbol_data h) (latest_symbol_data h)
    (latest_bars_data h) (f (current_bar h)) (downsamp h) (continue_backtest h)
    (bar_index h).
Definition set_downsamp
  (f : gmap string (option (list (Z * list Tick))) ->
       gmap string (option (list (Z * list Tick))))
  (h : HistoricCSVDataHandler) : HistoricCSVDataHandler :=
  mkHandler (symbol_list h) (symbol_data h) (latest_symbol_data h)
    (latest_bars_data h) (current_bar h) (f (downsamp h)) (continue_backtest h)
    (bar_index h).
Definition set_continue_backtest (b : bool)
  (h : HistoricCSVDataHandler) : HistoricCSVDataHandler :=
  mkHandler (symbol_list h) (symbol_data h) (latest_symbol_data h)
    (latest_bars_data h) (current_bar h) (downsamp h) b (bar_index h).

(** The body of the loop of [_open_convert_csv_files].  [csv_dir] is the
    content of the directory: file name to records; opening a missing
    file raises. *)
Definition open_convert_csv_file (csv_dir : gmap string (list Tick)) (s : string)
  (h : HistoricCSVDataHandler) : result HistoricCSVDataHandler :=
  match csv_dir !! (s +:+ ".csv") with
  | None => Raise FileNotFoundError
  | Some records =>
      Ok (set_current_bar <[s := []]>
           (set_latest_bars_data <[s := []]>
             (set_latest_symbol_data <[s := []]>
               (set_symbol_data <[s := records]> h))))
  end.

Definition _open_convert_csv_files (csv_dir : gmap string (list Tick))
  (h : HistoricCSVDataHandler) : result HistoricCSVDataHandler :=
  for_each (open_convert_csv_file csv_dir) (symbol_list h) h.

Definition __init__ (csv_dir : gmap string (list Tick)) (symbol_list : list string)
  : result HistoricCSVDataHandler :=
  _open_convert_csv_files csv_dir
    {| symbol_list := symbol_list;
       symbol_data := ∅;
       latest_symbol_data := ∅;
       latest_bars_data := ∅;
       current_bar := ∅;
       downsamp := ∅;
       continue_backtest := true;
       bar_index := 0 |}.

(** [get_latest_bar]: despite its name it returns the last stored tick. *)
Definition get_latest_bar (h : HistoricCSVDataHandler) (symbol : string)
  : result Tick :=
  bars_list ← getitem (latest_symbol_data h) symbol;
  getitem_last bars_list.

Definition get_latest_bars (h : HistoricCSVDataHandler) (symbol : string) (N : Z)
  : result (list (list Bar)) :=
  bars_list ← getitem (latest_bars_data h) symbol;
  mret (slice_from (- N) bars_list).

Definition get_latest_tick_datetime (h : HistoricCSVDataHandler) (symbol : string)
  : result Z :=
  last_tick ← getitem (latest_symbol_data h) symbol;
  t ← getitem_last last_tick;
  mret (datetime t).

(** Column access [row[val_type]]. *)
Definition tick_column (t : Tick) (val_type : string) : result Q :=
  if String.eqb val_type "tick" then Ok (tick t) else Raise KeyError.

Definition bar_column (b : Bar) (val_type : string) : result Q :=
  if String.eqb val_type "open" then Ok (open b)
  else if String.eqb val_type "high" then Ok (high b)
  else if String.eqb val_type "low" then Ok (low b)
  else if String.eqb val_type "close" then Ok (close b)
  else Raise KeyError.

Definition get_latest_tick_value (h : HistoricCSVDataHandler) (symbol : string)
  (val_type : string) : result Q :=
  last_tick ← getitem (latest_symbol_data h) symbol;
  t ← getitem_last last_tick;
  tick_column t val_type.

(** [np.array([b.iloc[0][val_type] for b in bars_list])]. *)
Fixpoint bars_values (bars_list : list (list Bar)) (val_type : string)
  : result (list Q) :=
  match bars_list with
  | [] => Ok []
  | b :: rest =>
      row ← list_getitem b 0;
      v ← bar_column row val_type;
      vs ← bars_values rest val_type;
      mret (v :: vs)
  end.

Definition get_latest_bars_values (h : HistoricCSVDataHandler) (symbol : string)
  (val_type : string) (N : Z) : result (list Q) :=
  bars_list ← get_latest_bars h symbol N;
  bars_values bars_list val_type.

(** The body of the loop of [update_ticks] for one symbol.  The reader
    either yields its next record or is exhausted ([StopIteration]);
    a chunk is never [None]. *)
Definition update_tick (s : string) (h : HistoricCSVDataHandler)
  : result HistoricCSVDataHandler :=
  let h := set_downsamp <[s := None]> h in
  reader ← getitem (symbol_data h) s;
  match reader with
  | [] => Ok (set_continue_backtest false h)
  | tk :: rest =>
      let h := set_symbol_data <[s := rest]> h in
      let h := set_latest_symbol_data <[s := [tk]]> h in
      cur ← getitem (current_bar h) s;
      let cur := cur ++ [tk] in
      let h := set_current_bar <[s := cur]> h in
      let groups := resample_5T cur in
      let h := set_downsamp <[s := Some groups]> h in
      if decide (1 < length groups)%nat then
        g ← list_getitem groups 0;
        bars ← getitem (latest_bars_data h) s;
        let h := set_latest_bars_data <[s := bars ++ [ohlc g.2]]> h in
        newest ← getitem_last cur;
        Ok (set_current_bar <[s := [newest]]> h)
      else Ok h
  end.

Definition update_ticks (h : HistoricCSVDataHandler) (events : list Event)
  : result (HistoricCSVDataHandler * list Event) :=
  h' ← for_each update_tick (symbol_list h) h;
  mret (h', events ++ [MarketEvent]).

End Data.

(** ** aapl_csv_data.py: [BSStrategy] *)

(** The time-zone database behind [tz.gettz(name)]: the local hour, in the
    named zone, of a UTC timestamp.  It is not part of the repository. *)
Class TzDatabase : Type := astimezone_hour : string -> Z -> Z.

Module Phase.
(** The values stored in [self.bought]. *)
Inductive t : Type := OUT | LONG | SHORT.
#[global] Instance eq_dec : EqDecision t.
Proof. solve_decision. Defined.
End Phase.

Module Strategy.

Record BSStrategy : Type := mkStrategy {
  symbol_list : list string;
  short_window : Z;
  mid_window : Z;
  long_window : Z;
  use_window : Z;
  min_diff : Q;
  min_deep : Q;
  plus : Q;
  sl : Q;
  tp : Q;
  ts_step : Q;
  bought : gmap string Phase.t;
  (** per symbol, the list [[po, max, min]] *)
  omm_price : gmap string (list Q)
}.

Definition set_bought (f : gmap string Phase.t -> gmap string Phase.t)
  (st : BSStrategy) : BSStrategy :=
  mkStrategy (symbol_list st) (short_window st) (mid_window st) (long_window st)
    (use_window st) (min_diff st) (min_deep st) (plus st) (sl st) (tp st)
    (ts_step st) (f (bought st)) (omm_price st).
Definition set_omm_price (f : gmap string (list Q) -> gmap string (list Q))
  (st : BSStrategy) : BSStrategy :=
  mkStrategy (symbol_list st) (short_window st) (mid_window st) (long_window st)
    (use_window st) (min_diff st) (min_deep st) (plus st) (sl st) (tp st)
    (ts_step st) (bought st) (f (omm_price st)).

Definition _calculate_initial_bought (symbol_list : list string)
  : gmap string Phase.t :=
  foldl (fun bought s => <[s := Phase.OUT]> bought) ∅ symbol_list.

(** [__init__(bars, events, short_window, ..., ts_step)].  The body has no
    [raise] and no check of its arguments. *)
Definition __init__ (bars : Data.HistoricCSVDataHandler)
  (short_window mid_window long_window : Z)
  (min_diff min_deep plus sl tp ts_step : Q) : result BSStrategy :=
  let symbol_list := Data.symbol_list bars in
  Ok {| symbol_list := symbol_list;
        short_window := short_window;
        mid_window := mid_window;
        long_window := long_window;
        use_window := 4 * long_window;
        min_diff := (min_diff * (1 # 10000))%Q;
        min_deep := (min_deep * (1 # 10000))%Q;
        plus := (plus * (1 # 10000))%Q;
        sl := (sl * (1 # 10000))%Q;
        tp := (tp * (1 # 10000))%Q;
        ts_step := (ts_step * (1 # 10000))%Q;
        bought := _calculate_initial_bought symbol_list;
        omm_price :=
          foldl (fun d s => <[s := [0; 0; 0]%Q]> d) ∅ symbol_list |}.

Definition _calculate_min_max_price (st : BSStrategy) (symbol : string)
  (tick_price : Q) : result BSStrategy :=
  omm ← getitem (omm_price st) symbol;
  po ← list_getitem omm 0;
  if Qneb po 0 then
    mx ← list_getitem omm 1;
    omm ← list_setitem omm 1 (Qmax mx tick_price);
    mn ← list_getitem omm 2;
    omm ← list_setitem omm 2 (Qmin mn tick_price);
    Ok (set_omm_price <[symbol := omm]> st)
  else Ok st.

(** [series.ewm(span=span, adjust=False).mean()]:
    [y0 = x0], [y_i = (1 - a) * y_(i-1) + a * x_i] with [a = 2 / (span + 1)];
    pandas rejects a span below 1. *)
Definition alpha (span : Z) : Q := (2 / (inject_Z span + 1))%Q.

Fixpoint ewm_from (a : Q) (prev : Q) (xs : list Q) : list Q :=
  match xs with
  | [] => []
  | x :: xs' =>
      let y := ((1 - a) * prev + a * x)%Q in
      y :: ewm_from a y xs'
  end.

Definition ewm_mean (span : Z) (xs : list Q) : result (list Q) :=
  if span <? 1 then Raise ValueError
  else Ok (match xs with
           | [] => []
           | x0 :: xs' => x0 :: ewm_from (alpha span) x0 xs'
           end).

(** [for i in range(3): self.omm_price[s][i] = v]. *)
Definition set_prices (s : string) (v : Q) (st : BSStrategy) : result BSStrategy :=
  for_each
    (fun (i : nat) st =>
       omm ← getitem (omm_price st) s;
       omm ← list_setitem omm i v;
       Ok (set_omm_price <[s := omm]> st))
    [0; 1; 2]%nat st.

Definition signal (cur_date : Z) (symbol : string) (sig_dir : Direction.t) : Event :=
  Signal (mkSignalEvent 1 symbol cur_date sig_dir 1).

Section WithTz.
Context `{TzDatabase}.

(** The body of the loop of [calculate_signals] for the symbol [s].
    [cur_date] is the reading of the wall clock ([dt.utcnow()]).  The
    value [self.bought[s]], which every path of the conditional reads,
    is read once in front of it. *)
Definition calculate_signals_for (bars : Data.HistoricCSVDataHandler)
  (cur_date : Z) (s : string) (state : BSStrategy * list Event)
  : result (BSStrategy * list Event) :=
  let '(st, events) := state in
  bars_value ← Data.get_latest_bars_values bars s "close" (use_window st);
  tick_date ← Data.get_latest_tick_datetime bars s;
  tick_price ← Data.get_latest_tick_value bars s "tick";
  st ← _calculate_min_max_price st s tick_price;
  omm ← getitem (omm_price st) s;
  po_price ← list_getitem omm 0;
  max_price ← list_getitem omm 1;
  min_price ← list_getitem omm 2;
  if decide (Z.of_nat (length bars_value) = use_window st) then
    last_bar_price ← getitem_last bars_value;
    short_ema ← ewm_mean (short_window st) bars_value ≫= getitem_last;
    mid_ema ← ewm_mean (mid_window st) bars_value ≫= getitem_last;
    long_ema ← ewm_mean (long_window st) bars_value ≫= getitem_last;
    let hour_et := astimezone_hour "America/New_York" tick_date in
    let hour_ld := astimezone_hour "Europe/London" tick_date in
    phase ← getitem (bought st) s;
    if Qgtb short_ema last_bar_price && Qgtb last_bar_price mid_ema
       && Qgtb mid_ema long_ema
       && bool_decide (phase = Phase.OUT)
       && (8 <=? hour_ld) && (hour_et <? 17)
       && Qgeb (short_ema - last_bar_price) (min_deep st)
       && Qgeb (short_ema - mid_ema) (min_diff st)
       && Qgeb (mid_ema - long_ema) (short_ema - mid_ema + plus st)
    then
      let events := events ++ [signal cur_date s Direction.LONG] in
      st ← set_prices s tick_price st;
      Ok (set_bought <[s := Phase.LONG]> st, events)
    else if Qltb short_ema last_bar_price && Qltb last_bar_price mid_ema
       && Qltb mid_ema long_ema
       && bool_decide (phase = Phase.OUT)
       && (8 <=? hour_ld) && (hour_et <? 17)
       && Qgeb (last_bar_price - short_ema) (min_deep st)
       && Qgeb (mid_ema - short_ema) (min_diff st)
       && Qgeb (long_ema - mid_ema) (mid_ema - short_ema + plus st)
    then
      let events := events ++ [signal cur_date s Direction.SHORT] in
      let st := set_bought <[s := Phase.SHORT]> st in
      st ← set_prices s tick_price st;
      Ok (st, events)
    else if bool_decide (phase = Phase.LONG)
       && (Qgeb tick_price (po_price + tp st)
           || (Qgeb (max_price - po_price) (ts_step st)
               && Qleb tick_price po_price)
           || (Qltb (max_price - po_price) (ts_step st)
               && Qleb tick_price (po_price - sl st)))
    then
      let events := events ++ [signal cur_date s Direction.EXIT] in
      st ← set_prices s 0 st;
      Ok (set_bought <[s := Phase.OUT]> st, events)
    else if bool_decide (phase = Phase.SHORT)
       && (Qleb tick_price (po_price - tp st)
           || (Qgeb (po_price - min_price) (ts_step st)
               && Qgeb tick_price po_price)
           || (Qltb (po_price - min_price) (ts_step st)
               && Qgeb tick_price (po_price + sl st)))
    then
      let events := events ++ [signal cur_date s Direction.EXIT] in
      st ← set_prices s 0 st;
      Ok (set_bought <[s := Phase.OUT]> st, events)
    else Ok (st, events)
  else Ok (st, events).

Definition calculate_signals (st : BSStrategy) (bars : Data.HistoricCSVDataHandler)
  (cur_date : Z) (event : Event) (events : list Event)
  : result (BSStrategy * list Event) :=
  match event_type event with
  | MARKET =>
      for_each (calculate_signals_for bars cur_date) (symbol_list st) (st, events)
  | SIGNAL => Ok (st, events)
  end.

End WithTz.

End Strategy.

(** ** The two objects side by side

    The driving loop ([Backtest]) is not among the sources; a run is any
    finite sequence of calls of [update_ticks] and [calculate_signals] on a
    freshly constructed handler and strategy sharing one event queue. *)

Record System : Type := mkSystem {
  handler : Data.HistoricCSVDataHandler;
  strategy : Strategy.BSStrategy;
  queue : list Event
}.

Inductive Action : Type :=
  | UpdateTicks
  | CalculateSignals (cur_date : Z) (event : Event).

Record Settings : Type := mkSettings {
  arg_short_window : Z;
  arg_mid_window : Z;
  arg_long_window : Z;
  arg_min_diff : Q;
  arg_min_deep : Q;
  arg_plus : Q;
  arg_sl : Q;
  arg_tp : Q;
  arg_ts_step : Q
}.

(** The default values of the keyword arguments of [BSStrategy.__init__]. *)
Definition default_settings : Settings :=
  mkSettings 10 21 50 1 0 0 5 10 5.

Definition boot (csv_dir : gmap string (list Data.Tick)) (symbol_list : list string)
  (cfg : Settings) : result System :=
  bars ← Data.__init__ csv_dir symbol_list;
  st ← Strategy.__init__ bars (arg_short_window cfg) (arg_mid_window cfg)
         (arg_long_window cfg) (arg_min_diff cfg) (arg_min_deep cfg) (arg_plus cfg)
         (arg_sl cfg) (arg_tp cfg) (arg_ts_step cfg);
  mret (mkSystem bars st []).

Section Run.
Context `{TzDatabase}.

Definition act (a : Action) (sys : System) : result System :=
  match a with
  | UpdateTicks =>
      '(h, q) ← Data.update_ticks (handler sys) (queue sys);
      mret (mkSystem h (strategy sys) q)
  | CalculateSignals cur_date event =>
      '(st, q) ← Strategy.calculate_signals (strategy sys) (handler sys)
                   cur_date event (queue sys);
      mret (mkSystem (handler sys) st q)
  end.

Definition run (acts : list Action) (sys : System) : result System :=
  for_each act acts sys.

(** The states of runs. *)
Definition reachable (sys : System) : Prop :=
  exists csv_dir symbol_list cfg acts,
    (boot csv_dir symbol_list cfg ≫= run acts) = Ok sys.

End Run.

(** ** What one iteration of [calculate_signals] reads, and what it decides *)

(** The values the loop body obtains for a symbol before its conditional:
    the close window, the latest tick, and the symbol's entries of
    [bought] and [omm_price] as they are when the iteration starts. *)
Record Reading : Type := mkReading {
  r_bars_value : list Q;
  r_tick_date : Z;
  r_tick_price : Q;
  r_phase : Phase.t;
  r_po : Q;
  r_max : Q;
  r_min : Q
}.

Definition reads (bars : Data.HistoricCSVDataHandler) (st : Strategy.BSStrategy)
  (s : string) (r : Reading) : Prop :=
  Data.get_latest_bars_values bars s "close" (Strategy.use_window st)
    = Ok (r_bars_value r) /\
  Data.get_latest_tick_datetime bars s = Ok (r_tick_date r) /\
  Data.get_latest_tick_value bars s "tick" = Ok (r_tick_price r) /\
  Strategy.bought st !! s = Some (r_phase r) /\
  Strategy.omm_price st !! s = Some [r_po r; r_max r; r_min r].

(** The last close and the three moving averages of a window. *)
Record Averages : Type := mkAverages {
  last_bar_price : Q;
  short_ema : Q;
  mid_ema : Q;
  long_ema : Q
}.

Definition averages (st : Strategy.BSStrategy) (bars_value : list Q) : result Averages :=
  lb ← getitem_last bars_value;
  se ← Strategy.ewm_mean (Strategy.short_window st) bars_value ≫= getitem_last;
  me ← Strategy.ewm_mean (Strategy.mid_window st) bars_value ≫= getitem_last;
  le ← Strategy.ewm_mean (Strategy.long_window st) bars_value ≫= getitem_last;
  mret (mkAverages lb se me le).

(** The running extremes after the anchor maintenance of the iteration
    ([_calculate_min_max_price], which precedes every test). *)
Definition kept_max (r : Reading) : Q :=
  if Qneb (r_po r) 0 then Qmax (r_max r) (r_tick_price r) else r_max r.
Definition kept_min (r : Reading) : Q :=
  if Qneb (r_po r) 0 then Qmin (r_min r) (r_tick_price r) else r_min r.

Definition maintain (st : Strategy.BSStrategy) (s : string) (r : Reading)
  : Strategy.BSStrategy :=
  if Qneb (r_po r) 0
  then Strategy.set_omm_price <[s := [r_po r; kept_max r; kept_min r]]> st
  else st.

(** The entry and exit rules as propositions over the rationals.  The
    entry rules take the price they compare the averages with as the
    argument [price]. *)
Definition long_entry_rule (st : Strategy.BSStrategy) (price se me le : Q) : Prop :=
  (price < se /\ me < price /\ le < me /\
   Strategy.min_deep st <= se - price /\
   Strategy.min_diff st <= se - me /\
   se - me + Strategy.plus st <= me - le)%Q.

Definition short_entry_rule (st : Strategy.BSStrategy) (price se me le : Q) : Prop :=
  (se < price /\ price < me /\ me < le /\
   Strategy.min_deep st <= price - se /\
   Strategy.min_diff st <= me - se /\
   me - se + Strategy.plus st <= le - me)%Q.

Definition long_exit_rule (st : Strategy.BSStrategy) (price po mx : Q) : Prop :=
  (po + Strategy.tp st <= price \/
   (Strategy.ts_step st <= mx - po /\ price <= po) \/
   (mx - po < Strategy.ts_step st /\ price <= po - Strategy.sl st))%Q.

Definition short_exit_rule (st : Strategy.BSStrategy) (price po mn : Q) : Prop :=
  (price <= po - Strategy.tp st \/
   (Strategy.ts_step st <= po - mn /\ po <= price) \/
   (po - mn < Strategy.ts_step st /\ po + Strategy.sl st <= price))%Q.

Inductive Verdict : Type := EnterLong | EnterShort | ExitLong | ExitShort | Hold.

(** The state and queue a verdict leads to, from the maintained state. *)
Definition carry_out (v : Verdict) (cur_date : Z) (s : string) (tick_price : Q)
  (st : Strategy.BSStrategy) (events : list Event)
  : Strategy.BSStrategy * list Event :=
  match v with
  | EnterLong =>
      (Strategy.set_bought <[s := Phase.LONG]>
         (Strategy.set_omm_price <[s := [tick_price; tick_price; tick_price]]> st),
       events ++ [Strategy.signal cur_date s Direction.LONG])
  | EnterShort =>
      (Strategy.set_omm_price <[s := [tick_price; tick_price; tick_price]]>
         (Strategy.set_bought <[s := Phase.SHORT]> st),
       events ++ [Strategy.signal cur_date s Direction.SHORT])
  | ExitLong | ExitShort =>
      (Strategy.set_bought <[s := Phase.OUT]>
         (Strategy.set_omm_price <[s := [0; 0; 0]%Q]> st),
       events ++ [Strategy.signal cur_date s Direction.EXIT])
  | Hold => (st, events)
  end.

(** The events a verdict puts. *)
Definition put_of (v : Verdict) (cur_date : Z) (s : string) : list Event :=
  match v with
  | EnterLong => [Strategy.signal cur_date s Direction.LONG]
  | EnterShort => [Strategy.signal cur_date s Direction.SHORT]
  | ExitLong | ExitShort => [Strategy.signal cur_date s Direction.EXIT]
  | Hold => []
  end.

Section Rules.
Context `{TzDatabase}.

(** The session gate at a tick date. *)
Definition session_gate (tick_date : Z) : Prop :=
  8 <= astimezone_hour "Europe/London" tick_date /\
  astimezone_hour "America/New_York" tick_date < 17.

(** The four tests of the conditional of the loop body, in its order. *)
Definition long_entry_test (st : Strategy.BSStrategy) (r : Reading) (a : Averages)
  : bool :=
  let hour_et := astimezone_hour "America/New_York" (r_tick_date r) in
  let hour_ld := astimezone_hour "Europe/London" (r_tick_date r) in
  Qgtb (short_ema a) (last_bar_price a) && Qgtb (last_bar_price a) (mid_ema a)
  && Qgtb (mid_ema a) (long_ema a)
  && bool_decide (r_phase r = Phase.OUT)
  && (8 <=? hour_ld) && (hour_et <? 17)
  && Qgeb (short_ema a - last_bar_price a) (Strategy.min_deep st)
  && Qgeb (short_ema a - mid_ema a) (Strategy.min_diff st)
  && Qgeb (mid_ema a - long_ema a) (short_ema a - mid_ema a + Strategy.plus st).

Definition short_entry_test (st : Strategy.BSStrategy) (r : Reading) (a : Averages)
  : bool :=
  let hour_et := astimezone_hour "America/New_York" (r_tick_date r) in
  let hour_ld := astimezone_hour "Europe/London" (r_tick_date r) in
  Qltb (short_ema a) (last_bar_price a) && Qltb (last_bar_price a) (mid_ema a)
  && Qltb (mid_ema a) (long_ema a)
  && bool_decide (r_phase r = Phase.OUT)
  && (8 <=? hour_ld) && (hour_et <? 17)
  && Qgeb (last_bar_price a - short_ema a) (Strategy.min_deep st)
  && Qgeb (mid_ema a - short_ema a) (Strategy.min_diff st)
  && Qgeb (long_ema a - mid_ema a) (mid_ema a - short_ema a + Strategy.plus st).

Definition long_exit_test (st : Strategy.BSStrategy) (r : Reading) : bool :=
  bool_decide (r_phase r = Phase.LONG)
  && (Qgeb (r_tick_price r) (r_po r + Strategy.tp st)
      || (Qgeb (kept_max r - r_po r) (Strategy.ts_step st)
          && Qleb (r_tick_price r) (r_po r))
      || (Qltb (kept_max r - r_po r) (Strategy.ts_step st)
          && Qleb (r_tick_price r) (r_po r - Strategy.sl st))).

Definition short_exit_test (st : Strategy.BSStrategy) (r : Reading) : bool :=
  bool_decide (r_phase r = Phase.SHORT)
  && (Qleb (r_tick_price r) (r_po r - Strategy.tp st)
      || (Qgeb (r_po r - kept_min r) (Strategy.ts_step st)
          && Qgeb (r_tick_price r) (r_po r))
      || (Qltb (r_po r - kept_min r) (Strategy.ts_step st)
          && Qgeb (r_tick_price r) (r_po r + Strategy.sl st))).

Definition verdict (st : Strategy.BSStrategy) (r : Reading) (a : Averages) : Verdict :=
  if long_entry_test st r a then EnterLong
  else if short_entry_test st r a then EnterShort
  else if long_exit_test st r then ExitLong
  else if short_exit_test st r then ExitShort
  else Hold.

End Rules.

(** ** The phase diagram *)

(** The four moves of the per-symbol phase, each with the direction of the
    signal that accompanies it. *)
Inductive transition : Phase.t -> Phase.t -> Direction.t -> Prop :=
  | OUT_to_LONG : transition Phase.OUT Phase.LONG Direction.LONG
  | OUT_to_SHORT : transition Phase.OUT Phase.SHORT Direction.SHORT
  | LONG_to_OUT : transition Phase.LONG Phase.OUT Direction.EXIT
  | SHORT_to_OUT : transition Phase.SHORT Phase.OUT Direction.EXIT.

(** What one iteration may do to the entry of a symbol in [bought]
    ([None]: the symbol has no entry) and the events it puts meanwhile. *)
Definition moves (cur_date : Z) (s : string) (p p' : option Phase.t)
  (put : list Event) : Prop :=
  (p' = p /\ put = []) \/
  (exists ph ph' d, p = Some ph /\ p' = Some ph' /\ transition ph ph' d /\
                    put = [Strategy.signal cur_date s d]).

Section Traces.
Context `{TzDatabase}.

(** The entry of the symbol [s0] in [bought] and the event queue after
    each of a sequence of iterations of the loop of [calculate_signals].
    Every iteration comes with the handler it reads, the reading of the
    wall clock and the symbol it processes; a call of [calculate_signals]
    is one iteration per symbol of the list on one handler.  An
    exception ends the run. *)
Fixpoint history (s0 : string)
  (steps : list (Data.HistoricCSVDataHandler * Z * string))
  (state : Strategy.BSStrategy * list Event)
  : list (option Phase.t * list Event) :=
  match steps with
  | [] => []
  | (bars, cur_date, s) :: steps' =>
      match Strategy.calculate_signals_for bars cur_date s state with
      | Ok state' =>
          (Strategy.bought state'.1 !! s0, state'.2) :: history s0 steps' state'
      | Raise _ => []
      end
  end.

End Traces.

(** ** One symbol of the handler *)

(** The four entries of a symbol in the handler's dictionaries. *)
Record Feed : Type := mkFeed {
  reader : list Data.Tick;
  latest : list Data.Tick;
  frames : list (list Data.Bar);
  filling : list Data.Tick
}.

Definition view (h : Data.HistoricCSVDataHandler) (s : string) : option Feed :=
  r ← Data.symbol_data h !! s;
  l ← Data.latest_symbol_data h !! s;
  f ← Data.latest_bars_data h !! s;
  c ← Data.current_bar h !! s;
  Some (mkFeed r l f c).

(** What one iteration of [update_ticks] does to them. *)
Definition feed (f : Feed) : Feed :=
  match reader f with
  | [] => f
  | tk :: rest =>
      let cur := filling f ++ [tk] in
      match Data.resample_5T cur with
      | g :: _ :: _ => mkFeed rest [tk] (frames f ++ [Data.ohlc g.2]) [tk]
      | _ => mkFeed rest [tk] (frames f) cur
      end
  end.

(** The number of times a symbol is listed. *)
Definition occurrences (s : string) (l : list string) : nat :=
  length (filter (fun x => x = s) l).

(** ** Invariants of runs *)

Record handler_ok (h : Data.HistoricCSVDataHandler) : Prop := {
  ok_views : forall s, s ∈ Data.symbol_list h -> is_Some (view h s);
  ok_listed : forall s,
    is_Some (Data.latest_bars_data h !! s) -> s ∈ Data.symbol_list h;
  ok_frames : forall s fs,
    Data.latest_bars_data h !! s = Some fs -> Forall (fun f => f <> []) fs
}.

(** A symbol can only be in a position when its history fills the window,
    a tick has arrived and the three spans are ones pandas accepts. *)
Definition in_position (h : Data.HistoricCSVDataHandler) (st : Strategy.BSStrategy)
  (s : string) : Prop :=
  exists fs lt,
    Data.latest_bars_data h !! s = Some fs /\
    1 <= Strategy.use_window st /\
    Strategy.use_window st <= Z.of_nat (length fs) /\
    Data.latest_symbol_data h !! s = Some lt /\ lt <> [] /\
    1 <= Strategy.short_window st /\
    1 <= Strategy.mid_window st /\
    1 <= Strategy.long_window st.

Definition symbol_ok (h : Data.HistoricCSVDataHandler) (st : Strategy.BSStrategy)
  (s : string) : Prop :=
  exists ph po mx mn,
    Strategy.bought st !! s = Some ph /\
    Strategy.omm_price st !! s = Some [po; mx; mn] /\
    (ph = Phase.OUT -> po = 0%Q /\ mx = 0%Q /\ mn = 0%Q) /\
    (ph <> Phase.OUT -> in_position h st s).

(** The settings of a strategy, which no iteration changes. *)
Definition same_settings (st st' : Strategy.BSStrategy) : Prop :=
  Strategy.symbol_list st' = Strategy.symbol_list st /\
  Strategy.short_window st' = Strategy.short_window st /\
  Strategy.mid_window st' = Strategy.mid_window st /\
  Strategy.long_window st' = Strategy.long_window st /\
  Strategy.use_window st' = Strategy.use_window st /\
  Strategy.min_diff st' = Strategy.min_diff st /\
  Strategy.min_deep st' = Strategy.min_deep st /\
  Strategy.plus st' = Strategy.plus st /\
  Strategy.sl st' = Strategy.sl st /\
  Strategy.tp st' = Strategy.tp st /\
  Strategy.ts_step st' = Strategy.ts_step st.

Record system_ok (sys : System) : Prop := {
  ok_handler : handler_ok (handler sys);
  ok_symbols : Strategy.symbol_list (strategy sys) = Data.symbol_list (handler sys);
  ok_window :
    Strategy.use_window (strategy sys) = 4 * Strategy.long_window (strategy sys);
  ok_entries : forall s, s ∈ Strategy.symbol_list (strategy sys) ->
    symbol_ok (handler sys) (strategy sys) s;
  ok_bought : forall s,
    is_Some (Strategy.bought (strategy sys) !! s) ->
    s ∈ Strategy.symbol_list (strategy sys)
}.

(** ** Entries and exits of one iteration *)

Section Occurrences.
Context `{TzDatabase}.

(** The iteration for [s] completes and puts exactly one signal, of
    direction [d], on the queue. *)
Definition puts (bars : Data.HistoricCSVDataHandler) (cur_date : Z) (s : string)
  (st : Strategy.BSStrategy) (events : list Event) (d : Direction.t) : Prop :=
  exists st',
    Strategy.calculate_signals_for bars cur_date s (st, events)
      = Ok (st', events ++ [Strategy.signal cur_date s d]).





End Occurrences.

(** ** Windows of a tick stream *)

(** A stream in time order (equal timestamps allowed; a strictly ordered
    stream is a special case). *)
Definition time_ordered (ticks : list Data.Tick) : Prop :=
  StronglySorted (fun a b => Data.datetime a <= Data.datetime b) ticks.

(** The ticks of a stream that fall into the five-minute window starting
    at [L]. *)
Definition window_of (L : Z) (ticks : list Data.Tick) : list Data.Tick :=
  filter (fun t => Data.bin_of (Data.datetime t) = L) ticks.

Definition is_max_of (m : Q) (prices : list Q) : Prop :=
  m ∈ prices /\ forall p, p ∈ prices -> (p <= m)%Q.

Definition is_min_of (m : Q) (prices : list Q) : Prop :=
  m ∈ prices /\ forall p, p ∈ prices -> (m <= p)%Q.

(** A bar carries the first, the highest, the lowest and the last price of
    the ticks of a window. *)
Definition summarises (b : Data.Bar) (window : list Data.Tick) : Prop :=
  exists first final,
    head window = Some first /\ last window = Some final /\
    Data.open b = Data.tick first /\
    Data.close b = Data.tick final /\
    is_max_of (Data.high b) (Data.tick <$> window) /\
    is_min_of (Data.low b) (Data.tick <$> window).

(** The number of calls of [update_ticks] in a run. *)
Fixpoint updates (acts : list Action) : nat :=
  match acts with
  | [] => 0
  | UpdateTicks :: acts' => S (updates acts')
  | CalculateSignals _ _ :: acts' => updates acts'
  end.

(** What the entries of a symbol are after it has been fed the ticks
    [seen]: the filling frame holds the ticks of the newest window, and
    every stored frame is the [ohlc] of the ticks of an earlier one. *)
Definition aggregated (seen : list Data.Tick) (f : Feed) : Prop :=
  filling f = match last seen with
              | None => []
              | Some t => window_of (Data.bin_of (Data.datetime t)) seen
              end /\
  Forall (fun frame =>
            exists L t,
              frame = Data.ohlc (window_of L seen) /\ window_of L seen <> [] /\
              last seen = Some t /\ L < Data.bin_of (Data.datetime t))
         (frames f).

(** ... and every window that a later tick has closed has its frame. *)
Definition complete (seen : list Data.Tick) (f : Feed) : Prop :=
  forall t tl,
    t ∈ seen -> last seen = Some tl ->
    Data.bin_of (Data.datetime t) < Data.bin_of (Data.datetime tl) ->
    Data.ohlc (window_of (Data.bin_of (Data.datetime t)) seen) ∈ frames f.

(** ** Concrete runs

    One symbol, one tick per five-minute window, spans 2, 3 and 5 (a window
    of 20 closes) and the default thresholds.  The twenty closes below have
    short, mid and long averages 1.0010, 1.0000 and 0.9990 and end at
    1.0005.  Local hours are taken at the fixed winter offsets of the two
    zones. *)

Definition minute : Z := 60 * 1000000000.
Definition hour : Z := 60 * minute.

Definition fixed_offsets : TzDatabase :=
  fun zone t =>
    if String.eqb zone "America/New_York" then (t / hour - 5) mod 24
    else (t / hour) mod 24.

Definition closes : list Q :=
  replicate 17 (9995 # 10000) ++ [9770 # 10000; 101075 # 100000; 10005 # 10000].

(** A stream with one tick every five minutes from [start]. *)
Definition stream (start : Z) (prices : list Q) : list Data.Tick :=
  imap (fun i p => Data.mkTick (start + Z.of_nat i * (5 * minute)) p) prices.

Definition directory (ticks : list Data.Tick) : gmap string (list Data.Tick) :=
  {[ "EURUSD.csv" := ticks ]}.

Definition settings_2_3_5 : Settings := mkSettings 2 3 5 1 0 0 5 10 5.

(** [n] steps of the driver: pull the ticks, then handle the pulse. *)
Definition steps (n : nat) : list Action :=
  concat (replicate n [UpdateTicks; CalculateSignals 0 MarketEvent]).

Definition state_of (r : result System) : System :=
  match r with
  | Ok sys => sys
  | Raise _ =>
      mkSystem (Data.mkHandler [] ∅ ∅ ∅ ∅ ∅ true 0)
        (Strategy.mkStrategy [] 0 0 0 0 0 0 0 0 0 0 ∅ ∅) []
  end.

(** Scenario B: the twenty bars are stored and the tick that closed the
    last of them, priced 1.0005 like that bar's close, has just arrived
    within the session hours. *)
Definition stream_B : list Data.Tick := stream (10 * hour) (closes ++ [10005 # 10000]).
Definition acts_B : list Action := steps 20 ++ [UpdateTicks].
Definition sys_B : System :=
  state_of (boot (directory stream_B) ["EURUSD"] settings_2_3_5
              ≫= @run fixed_offsets acts_B).

(** The same bars, but the latest tick is priced 1.0070, above the short
    average. *)
Definition stream_X : list Data.Tick := stream (10 * hour) (closes ++ [10070 # 10000]).
Definition sys_X : System :=
  state_of (boot (directory stream_X) ["EURUSD"] settings_2_3_5
              ≫= @run fixed_offsets acts_B).

(** Scenario A: the same bars as in scenario B, early in the morning: the
    latest tick arrives at 07:00 London time. *)
Definition stream_A : list Data.Tick :=
  stream (5 * hour + 20 * minute) (closes ++ [10005 # 10000]).
Definition sys_A : System :=
  state_of (boot (directory stream_A) ["EURUSD"] settings_2_3_5
              ≫= @run fixed_offsets acts_B).

(** Scenario C: a LONG entered at 1.0000, then a tick at 1.0010 with a
    take-profit of 0.0010. *)
Definition stream_C : list Data.Tick :=
  stream (10 * hour) (closes ++ [1; 10010 # 10000]%Q).
Definition acts_C : list Action := steps 21 ++ [UpdateTicks].
Definition sys_C : System :=
  state_of (boot (directory stream_C) ["EURUSD"] settings_2_3_5
              ≫= @run fixed_offsets acts_C).
(** The state of scenario C one step earlier, before the entry. *)
Definition sys_C0 : System :=
  state_of (boot (directory stream_C) ["EURUSD"] settings_2_3_5
              ≫= @run fixed_offsets acts_B).


(** A symbol whose file has no record, after the first pull. *)
Definition sys_E : System :=
  state_of (boot (directory []) ["EURUSD"] settings_2_3_5
              ≫= @run fixed_offsets [UpdateTicks]).

(** Two symbols, of which the first has a single record, after the first
    pull. *)
Definition directory_two : gmap string (list Data.Tick) :=
  {[ "EURUSD.csv" := stream (10 * hour) [1%Q];
     "GBPUSD.csv" := stream (10 * hour) [13 # 10; 14 # 10; 15 # 10]%Q ]}.
Definition sys_two : System :=
  state_of (boot directory_two ["EURUSD"; "GBPUSD"] default_settings
              ≫= @run fixed_offsets [UpdateTicks]).

(** The stored history of a symbol, and the averages of the twenty closes
    under the spans 2, 3 and 5. *)
Definition history_of (sys : System) (s : string) : list (list Data.Bar) :=
  default [] (Data.latest_bars_data (handler sys) !! s).

Definition closes_averages : Averages :=
  match averages (strategy sys_B) closes with
  | Ok a => a
  | Raise _ => mkAverages 0 0 0 0
  end.

(** What the iteration reads in the run with the tick at 1.0070. *)
Definition reading_X : Reading :=
  mkReading closes (11 * hour + 40 * minute) (10070 # 10000) Phase.OUT 0 0 0.

(** ** Further notions: the SHORT side, anchors, the queue, histories *)

Section ShortOccurrences.
Context `{TzDatabase}.




(** One iteration of the loop of [calculate_signals] on the state of a
    system. *)
Definition iteration (sys : System) (cur_date : Z) (s : string)
  : result (Strategy.BSStrategy * list Event) :=
  Strategy.calculate_signals_for (handler sys) cur_date s (strategy sys, queue sys).

End ShortOccurrences.

(** In every stored anchor list the entry price lies between the running
    minimum and the running maximum. *)
Definition bracketed (st : Strategy.BSStrategy) : Prop :=
  forall s po mx mn,
    Strategy.omm_price st !! s = Some [po; mx; mn] -> (mn <= po)%Q /\ (po <= mx)%Q.

(** A symbol without any entry in the dictionaries of the handler. *)
Definition absent (h : Data.HistoricCSVDataHandler) (s : string) : Prop :=
  Data.symbol_data h !! s = None /\
  Data.latest_symbol_data h !! s = None /\
  Data.latest_bars_data h !! s = None /\
  Data.current_bar h !! s = None.

#[global] Instance EventType_eq_dec : EqDecision EventType.
Proof. solve_decision. Defined.

(** The number of [MarketEvent]s in a queue. *)
Definition pulses (q : list Event) : nat :=
  length (filter (fun e => event_type e = MARKET) q).

(** The labels of the bars of a history, in their order. *)
Definition labels (fs : list (list Data.Bar)) : list Z :=
  Data.label <$> concat fs.

(** The stored bars come in strictly ascending order of their windows, all
    of them before the window of the newest tick fed. *)
Definition ascending (seen : list Data.Tick) (f : Feed) : Prop :=
  StronglySorted Z.lt (labels (frames f)) /\
  Forall (fun L => exists t, last seen = Some t /\ L < Data.bin_of (Data.datetime t))
         (labels (frames f)).

(** Every listed symbol has a latest tick. *)
Definition ticked (h : Data.HistoricCSVDataHandler) : Prop :=
  forall s, s ∈ Data.symbol_list h ->
    exists lt, Data.latest_symbol_data h !! s = Some lt /\ lt <> [].

(** The three spans are ones pandas accepts. *)
Definition valid_spans (st : Strategy.BSStrategy) : Prop :=
  1 <= Strategy.short_window st /\ 1 <= Strategy.mid_window st /\
  1 <= Strategy.long_window st.

(** A sequence of steps that pulls ticks before it first handles a pulse. *)
Definition pulls_first (acts : list Action) : Prop :=
  match acts with
  | CalculateSignals _ _ :: _ => False
  | _ => True
  end.

(** ** Further runs

    The mirror image of the twenty closes (each close reflected at 1): the
    short, mid and long averages are 0.9990, 1.0000 and 1.0010 and the
    last close is 0.9995. *)

Definition closes_short : list Q :=
  replicate 17 (10005 # 10000) ++ [10230 # 10000; 98925 # 100000; 9995 # 10000].

(** The twenty mirrored bars are stored and the tick that closed the last
    of them has just arrived within the session hours. *)
Definition stream_D : list Data.Tick :=
  stream (10 * hour) (closes_short ++ [9995 # 10000]).
Definition sys_D : System :=
  state_of (boot (directory stream_D) ["EURUSD"] settings_2_3_5
              ≫= @run fixed_offsets acts_B).

(** A SHORT entered at 1.0000, then a tick at 0.9990 with a take-profit of
    0.0010. *)
Definition stream_F : list Data.Tick :=
  stream (10 * hour) (closes_short ++ [1; 9990 # 10000]%Q).
Definition sys_F : System :=
  state_of (boot (directory stream_F) ["EURUSD"] settings_2_3_5
              ≫= @run fixed_offsets acts_C).

(** A LONG entered at 1.0000, then a tick at 1.0004, which triggers no
    exit; [held_H] is the strategy after the iteration on that tick. *)
Definition stream_H : list Data.Tick :=
  stream (10 * hour) (closes ++ [1; 10004 # 10000]%Q).
Definition sys_H : System :=
  state_of (boot (directory stream_H) ["EURUSD"] settings_2_3_5
              ≫= @run fixed_offsets acts_C).
Definition held_H : Strategy.BSStrategy :=
  match @Strategy.calculate_signals_for fixed_offsets (handler sys_H) 0 "EURUSD"
          (strategy sys_H, queue sys_H) with
  | Ok x => x.1
  | Raise _ => strategy sys_H
  end.

(** Scenario B after the call of [calculate_signals] that makes the
    entry. *)
Definition sys_B1 : System :=
  state_of (boot (directory stream_B) ["EURUSD"] settings_2_3_5
              ≫= @run fixed_offsets (acts_B ++ [CalculateSignals 0 MarketEvent])).

(** Scenario B under a short span of 1. *)
Definition settings_1_3_5 : Settings := mkSettings 1 3 5 1 0 0 5 10 5.
Definition sys_G : System :=
  state_of (boot (directory stream_B) ["EURUSD"] settings_1_3_5
              ≫= @run fixed_offsets (steps 21)).

(** The latest-tick list of a symbol. *)
Definition latest_of (sys : System) (s : string) : list Data.Tick :=
  default [] (Data.latest_symbol_data (handler sys) !! s).

(** Scenario B under the spans 0, 3 and 5, with the window full. *)
Definition settings_0_3_5 : Settings := mkSettings 0 3 5 1 0 0 5 10 5.
Definition sys_V : System :=
  state_of (boot (directory stream_B) ["EURUSD"] settings_0_3_5
              ≫= @run fixed_offsets acts_B).

(** * Properties *)

(** ** The exception monad and the loop combinator *)

Lemma bind_Ok {A B : Type} (m : result A) (f : A -> result B) (b : B) :
  m ≫= f = Ok b <-> exists a, m = Ok a /\ f a = Ok b.
Proof.
  destruct m as [a|e]; simpl; split.
  - intros Hf. exists a. auto.
  - intros (a' & Ha & Hf). congruence.
  - discriminate.
  - intros (a' & Ha & _). discriminate.
Qed.

Tactic Notation "inv_bind" hyp(H) "as" ident(a) ident(Ha) :=
  apply bind_Ok in H; destruct H as (a & Ha & H).

Tactic Notation "inv_bind" hyp(H) :=
  let a := fresh "a" in
  let Ha := fresh "Ha" in
  inv_bind H as a Ha.

(** An invariant of the loop body is an invariant of the loop. *)
Lemma for_each_invariant {A S : Type} (P : S -> Prop) (body : A -> S -> result S)
  (l : list A) :
  (forall x st st', x ∈ l -> P st -> body x st = Ok st' -> P st') ->
  forall st st', P st -> for_each body l st = Ok st' -> P st'.
Proof.
  induction l as [|x l IH]; intros Hbody st st' HP Hrun; simpl in Hrun.
  - congruence.
  - inv_bind Hrun.
    apply (IH (fun y s s' Hy => Hbody y s s' (list_elem_of_further _ _ _ Hy)) a st');
      [|assumption].
    eapply Hbody; [apply list_elem_of_here|exact HP|exact Ha].
Qed.

(** A loop whose body cannot fail under an invariant cannot fail. *)
Lemma for_each_total {A S : Type} (P : S -> Prop) (body : A -> S -> result S)
  (l : list A) :
  (forall x st, x ∈ l -> P st -> exists st', body x st = Ok st' /\ P st') ->
  forall st, P st -> exists st', for_each body l st = Ok st' /\ P st'.
Proof.
  induction l as [|x l IH]; intros Hbody st HP; simpl.
  - eauto.
  - destruct (Hbody x st (list_elem_of_here _ _) HP) as (st1 & -> & HP1). simpl.
    apply IH; [|assumption].
    intros y s Hy. apply Hbody. by apply list_elem_of_further.
Qed.

Lemma for_each_app {A S : Type} (body : A -> S -> result S) (l1 l2 : list A) (st : S) :
  for_each body (l1 ++ l2) st = for_each body l1 st ≫= for_each body l2.
Proof.
  revert st. induction l1 as [|x l1 IH]; intros st; simpl; [reflexivity|].
  destruct (body x st); simpl; auto.
Qed.

Lemma getitem_Some {V : Type} (d : gmap string V) (k : string) (v : V) :
  d !! k = Some v -> getitem d k = Ok v.
Proof. intros Hk. unfold getitem. by rewrite Hk. Qed.

Lemma getitem_Ok {V : Type} (d : gmap string V) (k : string) (v : V) :
  getitem d k = Ok v -> d !! k = Some v.
Proof. unfold getitem. destruct (d !! k); congruence. Qed.

Lemma list_setitem_Ok {A : Type} (l : list A) (i : nat) (v : A) :
  (i < length l)%nat -> list_setitem l i v = Ok (<[i:=v]> l).
Proof. intros Hi. unfold list_setitem. by rewrite decide_True. Qed.

(** ** Comparisons *)

Lemma Qltb_lt (a b : Q) : Qltb a b = true <-> (a < b)%Q.
Proof.
  unfold Qltb. rewrite Qlt_alt. destruct (a ?= b)%Q; split; congruence.
Qed.

Lemma Qleb_le (a b : Q) : Qleb a b = true <-> (a <= b)%Q.
Proof.
  unfold Qleb. rewrite Qle_alt. destruct (a ?= b)%Q; split; congruence.
Qed.

Lemma Qgtb_gt (a b : Q) : Qgtb a b = true <-> (b < a)%Q.
Proof. apply Qltb_lt. Qed.

Lemma Qgeb_ge (a b : Q) : Qgeb a b = true <-> (b <= a)%Q.
Proof. apply Qleb_le. Qed.

Lemma Qneb_false (a b : Q) : Qneb a b = false <-> (a == b)%Q.
Proof.
  unfold Qneb. rewrite Qeq_alt. destruct (a ?= b)%Q; split; congruence.
Qed.

Lemma Qneb_refl (a : Q) : Qneb a a = false.
Proof. apply Qneb_false. reflexivity. Qed.

(** ** Slices and last elements *)

Lemma getitem_last_snoc {A : Type} (l : list A) (x : A) :
  getitem_last (l ++ [x]) = Ok x.
Proof. unfold getitem_last. by rewrite rev_app_distr. Qed.

Lemma getitem_last_Ok {A : Type} (l : list A) :
  l <> [] -> exists x, getitem_last l = Ok x.
Proof.
  destruct l as [|y l] using rev_ind; [done|].
  intros _. exists y. apply getitem_last_snoc.
Qed.

Lemma getitem_last_nonempty {A : Type} (l : list A) (x : A) :
  getitem_last l = Ok x -> l <> [].
Proof. intros Hl ->. discriminate. Qed.

Lemma slice_from_length {A : Type} (N : Z) (l : list A) :
  1 <= N ->
  length (slice_from (- N) l) = Nat.min (Z.to_nat N) (length l).
Proof.
  intros HN. unfold slice_from.
  destruct (Z.ltb_spec (- N) 0) as [_|]; [|lia].
  rewrite length_drop. lia.
Qed.

Lemma slice_from_suffix {A : Type} (start : Z) (l : list A) :
  slice_from start l `suffix_of` l.
Proof. unfold slice_from. destruct (start <? 0); apply suffix_drop. Qed.

(** ** One iteration of [calculate_signals], resolved *)

Lemma set_prices_spec (s : string) (v a b c : Q) (st : Strategy.BSStrategy) :
  Strategy.omm_price st !! s = Some [a; b; c] ->
  Strategy.set_prices s v st = Ok (Strategy.set_omm_price <[s := [v; v; v]]> st).
Proof.
  intros Hs. unfold Strategy.set_prices. cbn [for_each].
  rewrite (getitem_Some _ _ _ Hs). cbn [mbind result_bind].
  rewrite list_setitem_Ok by (simpl; lia). cbn [mbind result_bind].
  rewrite (getitem_Some _ s [v; b; c]) by apply lookup_insert_eq.
  cbn [mbind result_bind].
  rewrite list_setitem_Ok by (simpl; lia). cbn [mbind result_bind].
  rewrite (getitem_Some _ s [v; v; c]) by apply lookup_insert_eq.
  cbn [mbind result_bind].
  rewrite list_setitem_Ok by (simpl; lia). cbn [mbind result_bind].
  unfold Strategy.set_omm_price. cbn.
  by rewrite !insert_insert_eq.
Qed.

Lemma calculate_min_max_price_reads bars st s r :
  reads bars st s r ->
  Strategy._calculate_min_max_price st s (r_tick_price r) = Ok (maintain st s r).
Proof.
  intros (_ & _ & _ & _ & Homm).
  unfold Strategy._calculate_min_max_price, maintain, kept_max, kept_min.
  rewrite (getitem_Some _ _ _ Homm). cbn [mbind result_bind].
  unfold list_getitem. cbn [lookup list_lookup mbind result_bind].
  destruct (Qneb (r_po r) 0); [|reflexivity].
  rewrite list_setitem_Ok by (simpl; lia).
  cbn [mbind result_bind insert list_insert lookup list_lookup].
  rewrite list_setitem_Ok by (simpl; lia). reflexivity.
Qed.

Lemma maintain_omm_price st s r :
  Strategy.omm_price st !! s = Some [r_po r; r_max r; r_min r] ->
  Strategy.omm_price (maintain st s r) !! s = Some [r_po r; kept_max r; kept_min r].
Proof.
  intros Homm. unfold maintain, kept_max, kept_min.
  destruct (Qneb (r_po r) 0); cbn; [apply lookup_insert_eq|exact Homm].
Qed.

Lemma maintain_omm_price_ne st s s0 r :
  s0 <> s ->
  Strategy.omm_price (maintain st s r) !! s0 = Strategy.omm_price st !! s0.
Proof.
  intros Hne. unfold maintain.
  destruct (Qneb (r_po r) 0); cbn; [by apply lookup_insert_ne|reflexivity].
Qed.

Lemma maintain_bought st s r :
  Strategy.bought (maintain st s r) = Strategy.bought st.
Proof. unfold maintain. by destruct (Qneb (r_po r) 0). Qed.

Lemma maintain_config st s r :
  Strategy.symbol_list (maintain st s r) = Strategy.symbol_list st /\
  Strategy.short_window (maintain st s r) = Strategy.short_window st /\
  Strategy.mid_window (maintain st s r) = Strategy.mid_window st /\
  Strategy.long_window (maintain st s r) = Strategy.long_window st /\
  Strategy.use_window (maintain st s r) = Strategy.use_window st /\
  Strategy.min_diff (maintain st s r) = Strategy.min_diff st /\
  Strategy.min_deep (maintain st s r) = Strategy.min_deep st /\
  Strategy.plus (maintain st s r) = Strategy.plus st /\
  Strategy.sl (maintain st s r) = Strategy.sl st /\
  Strategy.tp (maintain st s r) = Strategy.tp st /\
  Strategy.ts_step (maintain st s r) = Strategy.ts_step st.
Proof. unfold maintain. by destruct (Qneb (r_po r) 0). Qed.

Lemma maintain_idle st s r : r_po r = 0%Q -> maintain st s r = st.
Proof. intros Hpo. unfold maintain. rewrite Hpo. reflexivity. Qed.

Lemma averages_maintain st s r w : averages (maintain st s r) w = averages st w.
Proof. unfold maintain. by destruct (Qneb (r_po r) 0). Qed.

Lemma verdict_maintain `{TzDatabase} st s r a :
  verdict (maintain st s r) r a = verdict st r a.
Proof. unfold maintain. by destruct (Qneb (r_po r) 0). Qed.

Section Iteration.
Context `{TzDatabase}.

(** The loop body is the maintenance of the anchors followed, on a full
    window, by the verdict on the averages. *)
Lemma calculate_signals_for_reads bars cur_date s st events r :
  reads bars st s r ->
  Strategy.calculate_signals_for bars cur_date s (st, events) =
    if decide (Z.of_nat (length (r_bars_value r)) = Strategy.use_window st)
    then a ← averages st (r_bars_value r);
         Ok (carry_out (verdict st r a) cur_date s (r_tick_price r)
               (maintain st s r) events)
    else Ok (maintain st s r, events).
Proof.
  intros Hr. pose proof Hr as (Hw & Hd & Hp & Hph & Homm).
  unfold Strategy.calculate_signals_for.
  rewrite Hw, Hd, Hp. cbn [mbind result_bind].
  rewrite (calculate_min_max_price_reads bars st s r Hr). cbn [mbind result_bind].
  pose proof (maintain_omm_price st s r Homm) as Homm'.
  pose proof (maintain_config st s r) as (_ & Hsw & Hmw & Hlw & Huw & _).
  rewrite (getitem_Some _ _ _ Homm'). cbn [mbind result_bind].
  unfold list_getitem. cbn [lookup list_lookup mbind result_bind].
  rewrite Huw.
  destruct (decide (Z.of_nat (length (r_bars_value r)) = Strategy.use_window st))
    as [Hfull|Hshort]; [|reflexivity].
  rewrite <- (averages_maintain st s r).
  unfold averages.
  destruct (getitem_last (r_bars_value r)) as [lb|e]; [|reflexivity].
  cbn [mbind result_bind].
  destruct (Strategy.ewm_mean (Strategy.short_window (maintain st s r))
              (r_bars_value r) ≫= getitem_last) as [se|e]; [|reflexivity].
  cbn [mbind result_bind].
  destruct (Strategy.ewm_mean (Strategy.mid_window (maintain st s r))
              (r_bars_value r) ≫= getitem_last) as [me|e]; [|reflexivity].
  cbn [mbind result_bind].
  destruct (Strategy.ewm_mean (Strategy.long_window (maintain st s r))
              (r_bars_value r) ≫= getitem_last) as [le|e]; [|reflexivity].
  cbn [mbind result_bind mret result_ret].
  rewrite (getitem_Some (Strategy.bought (maintain st s r)) s (r_phase r))
    by (by rewrite maintain_bought).
  cbn [mbind result_bind].
  rewrite <- (verdict_maintain st s r).
  unfold verdict, long_entry_test, short_entry_test, long_exit_test, short_exit_test.
  pose proof (maintain_config st s r) as (_ & _ & _ & _ & _ & -> & -> & -> & -> & -> & ->).
  cbn [last_bar_price short_ema mid_ema long_ema].
  set (st1 := maintain st s r) in *.
  repeat match goal with
  | |- context [if ?b then _ else _] =>
      lazymatch b with
      | context [if _ then _ else _] => fail
      | _ => destruct b eqn:?
      end
  end; cbn [carry_out].
  - by rewrite (set_prices_spec s _ _ _ _ st1 Homm').
  - rewrite (set_prices_spec s _ (r_po r) (kept_max r) (kept_min r)); [reflexivity|].
    exact Homm'.
  - by rewrite (set_prices_spec s _ _ _ _ st1 Homm').
  - by rewrite (set_prices_spec s _ _ _ _ st1 Homm').
  - reflexivity.
Qed.

End Iteration.

(** ** The tests of the conditional as propositions *)

Section Tests.
Context `{TzDatabase}.

Lemma long_entry_test_true st r a :
  long_entry_test st r a = true <->
  r_phase r = Phase.OUT /\ session_gate (r_tick_date r) /\
  long_entry_rule st (last_bar_price a) (short_ema a) (mid_ema a) (long_ema a).
Proof.
  unfold long_entry_test, session_gate, long_entry_rule.
  rewrite !andb_true_iff, !Qgtb_gt, !Qgeb_ge, bool_decide_eq_true,
    Z.leb_le, Z.ltb_lt.
  tauto.
Qed.

Lemma short_entry_test_true st r a :
  short_entry_test st r a = true <->
  r_phase r = Phase.OUT /\ session_gate (r_tick_date r) /\
  short_entry_rule st (last_bar_price a) (short_ema a) (mid_ema a) (long_ema a).
Proof.
  unfold short_entry_test, session_gate, short_entry_rule.
  rewrite !andb_true_iff, !Qltb_lt, !Qgeb_ge, bool_decide_eq_true,
    Z.leb_le, Z.ltb_lt.
  tauto.
Qed.

Lemma long_exit_test_true st r :
  long_exit_test st r = true <->
  r_phase r = Phase.LONG /\ long_exit_rule st (r_tick_price r) (r_po r) (kept_max r).
Proof.
  unfold long_exit_test, long_exit_rule.
  rewrite !andb_true_iff, !orb_true_iff, !andb_true_iff, !Qgeb_ge, !Qleb_le,
    Qltb_lt, bool_decide_eq_true.
  tauto.
Qed.

Lemma short_exit_test_true st r :
  short_exit_test st r = true <->
  r_phase r = Phase.SHORT /\ short_exit_rule st (r_tick_price r) (r_po r) (kept_min r).
Proof.
  unfold short_exit_test, short_exit_rule.
  rewrite !andb_true_iff, !orb_true_iff, !andb_true_iff, !Qgeb_ge, !Qleb_le,
    Qltb_lt, bool_decide_eq_true.
  tauto.
Qed.

(** The two entry rules exclude each other, and an exit test needs a
    phase that excludes both entry tests. *)
Lemma entry_rules_exclusive st price se me le :
  long_entry_rule st price se me le -> short_entry_rule st price se me le -> False.
Proof.
  unfold long_entry_rule, short_entry_rule. intros (H1 & _) (H2 & _). lra.
Qed.

Lemma verdict_EnterLong st r a :
  verdict st r a = EnterLong <->
  r_phase r = Phase.OUT /\ session_gate (r_tick_date r) /\
  long_entry_rule st (last_bar_price a) (short_ema a) (mid_ema a) (long_ema a).
Proof.
  rewrite <- long_entry_test_true. unfold verdict.
  destruct (long_entry_test st r a); [tauto|].
  destruct (short_entry_test st r a); [split; discriminate|].
  destruct (long_exit_test st r); [split; discriminate|].
  destruct (short_exit_test st r); split; discriminate.
Qed.

Lemma verdict_EnterShort st r a :
  verdict st r a = EnterShort <->
  r_phase r = Phase.OUT /\ session_gate (r_tick_date r) /\
  short_entry_rule st (last_bar_price a) (short_ema a) (mid_ema a) (long_ema a).
Proof.
  rewrite <- short_entry_test_true. unfold verdict.
  destruct (long_entry_test st r a) eqn:Hl.
  - split; [discriminate|]. intros Hs.
    apply long_entry_test_true in Hl. apply short_entry_test_true in Hs.
    exfalso. eapply entry_rules_exclusive; [apply Hl|apply Hs].
  - destruct (short_entry_test st r a); [tauto|].
    destruct (long_exit_test st r); [split; discriminate|].
    destruct (short_exit_test st r); split; discriminate.
Qed.

Lemma verdict_ExitLong st r a :
  verdict st r a = ExitLong <->
  r_phase r = Phase.LONG /\ long_exit_rule st (r_tick_price r) (r_po r) (kept_max r).
Proof.
  rewrite <- long_exit_test_true. unfold verdict.
  destruct (long_entry_test st r a) eqn:Hl.
  { split; [discriminate|]. intros Hx.
    apply long_entry_test_true in Hl. apply long_exit_test_true in Hx.
    destruct Hl as (Hl & _), Hx as (Hx & _). congruence. }
  destruct (short_entry_test st r a) eqn:Hs.
  { split; [discriminate|]. intros Hx.
    apply short_entry_test_true in Hs. apply long_exit_test_true in Hx.
    destruct Hs as (Hs & _), Hx as (Hx & _). congruence. }
  destruct (long_exit_test st r); [tauto|].
  destruct (short_exit_test st r); split; discriminate.
Qed.

Lemma verdict_ExitShort st r a :
  verdict st r a = ExitShort <->
  r_phase r = Phase.SHORT /\ short_exit_rule st (r_tick_price r) (r_po r) (kept_min r).
Proof.
  rewrite <- short_exit_test_true. unfold verdict.
  destruct (long_entry_test st r a) eqn:Hl.
  { split; [discriminate|]. intros Hx.
    apply long_entry_test_true in Hl. apply short_exit_test_true in Hx.
    destruct Hl as (Hl & _), Hx as (Hx & _). congruence. }
  destruct (short_entry_test st r a) eqn:Hs.
  { split; [discriminate|]. intros Hx.
    apply short_entry_test_true in Hs. apply short_exit_test_true in Hx.
    destruct Hs as (Hs & _), Hx as (Hx & _). congruence. }
  destruct (long_exit_test st r) eqn:Hle.
  { split; [discriminate|]. intros Hx.
    apply long_exit_test_true in Hle. apply short_exit_test_true in Hx.
    destruct Hle as (Hle & _), Hx as (Hx & _). congruence. }
  destruct (short_exit_test st r); [tauto|]. split; discriminate.
Qed.

(** The phases on the two sides of a verdict. *)
Lemma verdict_phase st r a :
  match verdict st r a with
  | EnterLong | EnterShort => r_phase r = Phase.OUT
  | ExitLong => r_phase r = Phase.LONG
  | ExitShort => r_phase r = Phase.SHORT
  | Hold => True
  end.
Proof.
  destruct (verdict st r a) eqn:Hv; [| | | |exact I].
  - by apply verdict_EnterLong in Hv as (? & _).
  - by apply verdict_EnterShort in Hv as (? & _).
  - by apply verdict_ExitLong in Hv as (? & _).
  - by apply verdict_ExitShort in Hv as (? & _).
Qed.

End Tests.

(** ** Phase transitions *)

Lemma calculate_min_max_price_bought st s p st' :
  Strategy._calculate_min_max_price st s p = Ok st' ->
  Strategy.bought st' = Strategy.bought st /\
  Strategy.use_window st' = Strategy.use_window st.
Proof.
  unfold Strategy._calculate_min_max_price. intros Hm.
  inv_bind Hm as omm Homm. inv_bind Hm as po Hpo.
  destruct (Qneb po 0); [|by inversion Hm].
  do 4 inv_bind Hm. by inversion Hm.
Qed.

Lemma set_prices_bought s v st st' :
  Strategy.set_prices s v st = Ok st' -> Strategy.bought st' = Strategy.bought st.
Proof.
  unfold Strategy.set_prices.
  apply (for_each_invariant (fun x => Strategy.bought x = Strategy.bought st));
    [|reflexivity].
  intros i x x' _ Hx Hbody. do 2 inv_bind Hbody. inversion Hbody. exact Hx.
Qed.

Section PhaseDiagram.
Context `{TzDatabase}.

(** One iteration makes at most one of the four moves on its own symbol,
    puts the matching signal, and leaves the other symbols' phases. *)
Lemma calculate_signals_for_moves bars cur_date s st events st' events' :
  Strategy.calculate_signals_for bars cur_date s (st, events) = Ok (st', events') ->
  exists put,
    events' = events ++ put /\
    moves cur_date s (Strategy.bought st !! s) (Strategy.bought st' !! s) put /\
    forall s0, s0 <> s -> Strategy.bought st' !! s0 = Strategy.bought st !! s0.
Proof.
  unfold Strategy.calculate_signals_for. intros Hrun.
  inv_bind Hrun as w Hw. inv_bind Hrun as td Htd. inv_bind Hrun as price Hprice.
  inv_bind Hrun as st1 Hst1.
  apply calculate_min_max_price_bought in Hst1 as (Hb & _).
  inv_bind Hrun as omm Homm. inv_bind Hrun as po Hpo. inv_bind Hrun as mx Hmx.
  inv_bind Hrun as mn Hmn.
  assert (Hstay : forall q, Ok (st1, events) = Ok (st', q) ->
    exists put, q = events ++ put /\
      moves cur_date s (Strategy.bought st !! s) (Strategy.bought st' !! s) put /\
      forall s0, s0 <> s -> Strategy.bought st' !! s0 = Strategy.bought st !! s0).
  { intros q Hq. inversion Hq; subst. exists []. rewrite app_nil_r, Hb.
    split; [reflexivity|]. split; [left; split; reflexivity|reflexivity]. }
  destruct (decide _) as [Hfull|Hshort]; [|by apply Hstay].
  inv_bind Hrun as lb Hlb. inv_bind Hrun as se Hse. inv_bind Hrun as me Hme.
  inv_bind Hrun as le Hle. inv_bind Hrun as ph Hph.
  apply getitem_Ok in Hph. rewrite Hb in Hph.
  assert (Hgo : forall ph' d st2 v,
    Strategy.bought st !! s = Some ph -> transition ph ph' d ->
    Strategy.set_prices s v st1 = Ok st2 \/
      Strategy.set_prices s v (Strategy.set_bought <[s := ph']> st1) = Ok st2 ->
    st' = Strategy.set_bought <[s := ph']> st2 \/ st' = st2 ->
    Strategy.bought st' !! s = Some ph' ->
    (forall s0, s0 <> s -> Strategy.bought st' !! s0 = Strategy.bought st !! s0) ->
    exists put, events ++ [Strategy.signal cur_date s d] = events ++ put /\
      moves cur_date s (Strategy.bought st !! s) (Strategy.bought st' !! s) put /\
      forall s0, s0 <> s -> Strategy.bought st' !! s0 = Strategy.bought st !! s0).
  { intros ph' d st2 v Hp Ht _ _ Hp' Hother.
    exists [Strategy.signal cur_date s d]. split; [reflexivity|]. split; [|exact Hother].
    right. exists ph, ph', d. by rewrite Hp, Hp'. }
  repeat match type of Hrun with
  | (if ?b then _ else _) = _ => destruct b eqn:?
  end; [| | | |by apply Hstay].
  - (* LONG entry *)
    inv_bind Hrun as st2 Hst2. inversion Hrun; subst.
    pose proof (set_prices_bought _ _ _ _ Hst2) as Hb2.
    repeat match goal with
    | Hc : (_ && _)%bool = true |- _ => apply andb_true_iff in Hc as [Hc ?]
    end.
    match goal with Hp : bool_decide _ = true |- _ =>
      apply bool_decide_eq_true in Hp; subst ph end.
    eapply (Hgo Phase.LONG Direction.LONG st2); eauto using transition.
    + cbn. apply lookup_insert_eq.
    + intros s0 Hs0. cbn. rewrite lookup_insert_ne by done. by rewrite Hb2, Hb.
  - (* SHORT entry *)
    inv_bind Hrun as st2 Hst2. inversion Hrun; subst.
    pose proof (set_prices_bought _ _ _ _ Hst2) as Hb2. cbn in Hb2.
    repeat match goal with
    | Hc : (_ && _)%bool = true |- _ => apply andb_true_iff in Hc as [Hc ?]
    end.
    match goal with Hp : bool_decide _ = true |- _ =>
      apply bool_decide_eq_true in Hp; subst ph end.
    eapply (Hgo Phase.SHORT Direction.SHORT st'); eauto using transition.
    + rewrite Hb2. apply lookup_insert_eq.
    + intros s0 Hs0. rewrite Hb2, lookup_insert_ne by done. by rewrite Hb.
  - (* LONG exit *)
    inv_bind Hrun as st2 Hst2. inversion Hrun; subst.
    pose proof (set_prices_bought _ _ _ _ Hst2) as Hb2.
    match goal with Hc : (_ && _)%bool = true |- _ =>
      apply andb_true_iff in Hc as [Hc _];
      apply bool_decide_eq_true in Hc; subst ph end.
    eapply (Hgo Phase.OUT Direction.EXIT st2); eauto using transition.
    + cbn. apply lookup_insert_eq.
    + intros s0 Hs0. cbn. rewrite lookup_insert_ne by done. by rewrite Hb2, Hb.
  - (* SHORT exit *)
    inv_bind Hrun as st2 Hst2. inversion Hrun; subst.
    pose proof (set_prices_bought _ _ _ _ Hst2) as Hb2.
    match goal with Hc : (_ && _)%bool = true |- _ =>
      apply andb_true_iff in Hc as [Hc _];
      apply bool_decide_eq_true in Hc; subst ph end.
    eapply (Hgo Phase.OUT Direction.EXIT st2); eauto using transition.
    + cbn. apply lookup_insert_eq.
    + intros s0 Hs0. cbn. rewrite lookup_insert_ne by done. by rewrite Hb2, Hb.
Qed.

End PhaseDiagram.

Section PhaseTheorem.
Context `{TzDatabase}.

(** C1.  Along every sequence of iterations of [calculate_signals], from
    any state, two consecutive phases of a symbol are equal or form one of
    the four moves OUT→LONG, OUT→SHORT, LONG→OUT, SHORT→OUT, the move being
    made by an iteration on that very symbol which puts exactly the
    matching signal (LONG, SHORT, EXIT, EXIT) and nothing else; in
    particular LONG is never followed directly by SHORT, nor SHORT by
    LONG. *)
Theorem phase_transitions s0 steps state i bars cur_date s p q p' q' :
  steps !! i = Some (bars, cur_date, s) ->
  ((Strategy.bought state.1 !! s0, state.2) :: history s0 steps state) !! i
    = Some (p, q) ->
  ((Strategy.bought state.1 !! s0, state.2) :: history s0 steps state) !! S i
    = Some (p', q') ->
  (exists put, q' = q ++ put /\
     if decide (s = s0) then moves cur_date s0 p p' put else p' = p) /\
  ~ (p = Some Phase.LONG /\ p' = Some Phase.SHORT) /\
  ~ (p = Some Phase.SHORT /\ p' = Some Phase.LONG).
Proof.
  revert state i. induction steps as [|[[bars1 cur1] s1] steps IH];
    intros [st events] i Hstep Hp Hp'; [discriminate|].
  cbn [history] in Hp, Hp'.
  destruct (Strategy.calculate_signals_for bars1 cur1 s1 (st, events))
    as [[st1 events1]|e] eqn:Hrun.
  2:{ destruct i; discriminate. }
  destruct i as [|i].
  - cbn in Hstep, Hp, Hp'. inversion Hstep; subst. inversion Hp; subst.
    inversion Hp'; subst. clear Hstep Hp Hp'.
    destruct (calculate_signals_for_moves _ _ _ _ _ _ _ Hrun)
      as (put & Hq & Hmoves & Hother).
    assert (Hcase :
      if decide (s = s0)
      then moves cur_date s0 (Strategy.bought st !! s0) (Strategy.bought st1 !! s0) put
      else Strategy.bought st1 !! s0 = Strategy.bought st !! s0).
    { destruct (decide (s = s0)) as [->|Hne]; [exact Hmoves|].
      apply Hother. congruence. }
    split; [exists put; by split|].
    destruct (decide (s = s0)) as [->|Hne].
    + destruct Hcase as [[Hsame _]|(ph & ph' & d & Hph & Hph' & Ht & _)].
      * rewrite Hsame. split; intros [? ?]; congruence.
      * rewrite Hph, Hph'. split; intros [Heq Heq']; inversion Heq; inversion Heq';
          subst; inversion Ht.
    + rewrite Hcase. split; intros [? ?]; congruence.
  - cbn in Hstep. cbn [lookup list_lookup] in Hp, Hp'.
    exact (IH (st1, events1) i Hstep Hp Hp').
Qed.

End PhaseTheorem.

(** ** The handler, one symbol at a time *)

Lemma resample_5T_head rows :
  rows <> [] ->
  exists g gs, Data.resample_5T rows = g :: gs /\ g.2 <> [].
Proof.
  intros Hrows. unfold Data.resample_5T.
  destruct (Data.sort_by_time rows) as [|r0 sorted] eqn:Hsort.
  { destruct rows as [|x rows]; [done|]. cbn in Hsort.
    destruct (foldr Data.insert_by_time [] rows); cbn in Hsort; [done|].
    by destruct (_ <=? _). }
  cbn [seq fmap list_fmap]. eexists _, _. split; [reflexivity|]. cbn [snd].
  rewrite Z.mul_0_l, Z.add_0_r.
  rewrite filter_cons_True by reflexivity. done.
Qed.

Lemma ohlc_nonempty rows : rows <> [] -> Data.ohlc rows <> [].
Proof.
  intros Hrows. unfold Data.ohlc.
  destruct (resample_5T_head rows Hrows) as ([lbl g] & gs & -> & Hg).
  cbn in *. unfold Data.ohlc_row at 1. cbn.
  destruct g as [|r rest]; [done|]. done.
Qed.

Lemma view_Some h s f :
  view h s = Some f <->
  Data.symbol_data h !! s = Some (reader f) /\
  Data.latest_symbol_data h !! s = Some (latest f) /\
  Data.latest_bars_data h !! s = Some (frames f) /\
  Data.current_bar h !! s = Some (filling f).
Proof.
  unfold view. destruct f as [r l fs c]. cbn.
  destruct (Data.symbol_data h !! s), (Data.latest_symbol_data h !! s),
    (Data.latest_bars_data h !! s), (Data.current_bar h !! s); cbn;
    split; try (intros (?&?&?&?)); try intros ?; try congruence; try discriminate.
  repeat split; congruence.
Qed.

(** The body of the loop of [update_ticks] acts as [feed] on its symbol,
    leaves the other symbols alone, and clears the flag exactly when the
    reader is exhausted. *)
Lemma update_tick_view h s f :
  view h s = Some f ->
  exists h',
    Data.update_tick s h = Ok h' /\
    view h' s = Some (feed f) /\
    (forall s0, s0 <> s ->
       Data.symbol_data h' !! s0 = Data.symbol_data h !! s0 /\
       Data.latest_symbol_data h' !! s0 = Data.latest_symbol_data h !! s0 /\
       Data.latest_bars_data h' !! s0 = Data.latest_bars_data h !! s0 /\
       Data.current_bar h' !! s0 = Data.current_bar h !! s0) /\
    Data.symbol_list h' = Data.symbol_list h /\
    Data.continue_backtest h' =
      match reader f with [] => false | _ => Data.continue_backtest h end.
Proof.
  intros Hv. apply view_Some in Hv as (Hr & Hl & Hf & Hc).
  unfold Data.update_tick. cbn.
  rewrite (getitem_Some _ _ _ Hr). cbn [mbind result_bind].
  unfold feed.
  destruct (reader f) as [|tk rest] eqn:Hreader.
  { eexists. split; [reflexivity|]. cbn.
    split; [apply view_Some; by rewrite Hreader|]. done. }
  cbn. rewrite (getitem_Some _ _ _ Hc). cbn [mbind result_bind].
  destruct (Data.resample_5T (filling f ++ [tk])) as [|g [|g' gs]] eqn:Hgroups.
  - eexists. split; [reflexivity|]. cbn.
    split; [apply view_Some; cbn; by rewrite !lookup_insert_eq|].
    split; [|done]. intros s0 Hs0. by rewrite !lookup_insert_ne.
  - eexists. split; [reflexivity|]. cbn.
    split; [apply view_Some; cbn; by rewrite !lookup_insert_eq|].
    split; [|done]. intros s0 Hs0. by rewrite !lookup_insert_ne.
  - rewrite decide_True by (cbn; lia).
    unfold list_getitem. cbn [lookup list_lookup mbind result_bind].
    rewrite (getitem_Some _ _ _ Hf). cbn [mbind result_bind].
    rewrite getitem_last_snoc. cbn [mbind result_bind].
    eexists. split; [reflexivity|]. cbn.
    split; [apply view_Some; cbn; by rewrite !lookup_insert_eq|].
    split; [|done]. intros s0 Hs0. by rewrite !lookup_insert_ne.
Qed.

Lemma view_agree h h' s :
  Data.symbol_data h' !! s = Data.symbol_data h !! s ->
  Data.latest_symbol_data h' !! s = Data.latest_symbol_data h !! s ->
  Data.latest_bars_data h' !! s = Data.latest_bars_data h !! s ->
  Data.current_bar h' !! s = Data.current_bar h !! s ->
  view h' s = view h s.
Proof. intros H1 H2 H3 H4. unfold view. by rewrite H1, H2, H3, H4. Qed.

Lemma feed_reader f : reader (feed f) = drop 1 (reader f).
Proof.
  unfold feed. destruct (reader f) as [|tk rest] eqn:Hr; [by rewrite Hr|].
  by destruct (Data.resample_5T _) as [|g [|g' gs]].
Qed.

(** History is only ever appended to, by one non-empty frame at a time. *)
Lemma feed_frames f :
  frames (feed f) = frames f \/
  exists rows, rows <> [] /\ frames (feed f) = frames f ++ [Data.ohlc rows].
Proof.
  unfold feed. destruct (reader f) as [|tk rest]; [by left|].
  destruct (Data.resample_5T (filling f ++ [tk])) as [|g [|g' gs]] eqn:Hg;
    [by left|by left|].
  right. exists g.2. split; [|reflexivity].
  destruct (resample_5T_head (filling f ++ [tk])) as (g0 & gs0 & Hg0 & Hne).
  { by destruct (filling f). }
  rewrite Hg in Hg0. by inversion Hg0; subst.
Qed.

Lemma feed_latest f : latest f <> [] -> latest (feed f) <> [].
Proof.
  unfold feed. destruct (reader f) as [|tk rest]; [done|].
  by destruct (Data.resample_5T _) as [|g [|g' gs]].
Qed.

Lemma feed_frames_nonempty f :
  Forall (fun fr => fr <> []) (frames f) ->
  Forall (fun fr => fr <> []) (frames (feed f)).
Proof.
  intros Hf. destruct (feed_frames f) as [->|(rows & Hrows & ->)]; [exact Hf|].
  apply Forall_app. split; [exact Hf|].
  apply Forall_singleton. by apply ohlc_nonempty.
Qed.

Lemma feed_frames_length f : (length (frames f) <= length (frames (feed f)))%nat.
Proof.
  destruct (feed_frames f) as [->|(rows & _ & ->)]; [lia|].
  rewrite length_app. cbn. lia.
Qed.

Lemma update_tick_ok h s :
  handler_ok h -> s ∈ Data.symbol_list h ->
  exists h' f,
    view h s = Some f /\
    Data.update_tick s h = Ok h' /\
    handler_ok h' /\
    view h' s = Some (feed f) /\
    (forall s0, s0 <> s ->
       Data.symbol_data h' !! s0 = Data.symbol_data h !! s0 /\
       Data.latest_symbol_data h' !! s0 = Data.latest_symbol_data h !! s0 /\
       Data.latest_bars_data h' !! s0 = Data.latest_bars_data h !! s0 /\
       Data.current_bar h' !! s0 = Data.current_bar h !! s0) /\
    Data.symbol_list h' = Data.symbol_list h /\
    Data.continue_backtest h' =
      match reader f with [] => false | _ => Data.continue_backtest h end.
Proof.
  intros [Hviews Hlisted Hframes] Hs.
  destruct (Hviews s Hs) as [f Hf].
  destruct (update_tick_view h s f Hf) as (h' & Hrun & Hv' & Hother & Hlist & Hflag).
  exists h', f. split; [exact Hf|]. split; [exact Hrun|].
  split; [|exact (conj Hv' (conj Hother (conj Hlist Hflag)))]. constructor.
  - intros s0 Hs0. rewrite Hlist in Hs0.
    destruct (decide (s0 = s)) as [->|Hne]; [by eexists|].
    destruct (Hother s0 Hne) as (H1 & H2 & H3 & H4).
    rewrite (view_agree h h' s0 H1 H2 H3 H4). by apply Hviews.
  - intros s0 Hs0. rewrite Hlist.
    destruct (decide (s0 = s)) as [->|Hne]; [exact Hs|].
    destruct (Hother s0 Hne) as (_ & _ & H3 & _). rewrite H3 in Hs0.
    by apply Hlisted.
  - intros s0 fs Hfs.
    destruct (decide (s0 = s)) as [->|Hne].
    + apply view_Some in Hv' as (_ & _ & Hf' & _). rewrite Hf' in Hfs.
      inversion Hfs; subst. apply feed_frames_nonempty.
      apply view_Some in Hf as (_ & _ & Hf0 & _). by apply (Hframes s).
    + destruct (Hother s0 Hne) as (_ & _ & H3 & _). rewrite H3 in Hfs.
      by apply (Hframes s0).
Qed.

Lemma occurrences_cons_eq s l : occurrences s (s :: l) = S (occurrences s l).
Proof. unfold occurrences. by rewrite filter_cons_True. Qed.

Lemma occurrences_cons_ne s x l : x <> s -> occurrences s (x :: l) = occurrences s l.
Proof. intros Hx. unfold occurrences. by rewrite filter_cons_False. Qed.

Lemma iter_feed_reader n f : reader (Nat.iter n feed f) = drop n (reader f).
Proof.
  induction n as [|n IH]; [by rewrite drop_0|].
  rewrite Nat.iter_succ, feed_reader, IH, drop_drop. f_equal. lia.
Qed.

(** The loop of [update_ticks]: every listed symbol is fed once per
    listing, whatever happens to the others, and nothing is raised. *)
Lemma update_ticks_loop l h :
  handler_ok h -> (forall s, s ∈ l -> s ∈ Data.symbol_list h) ->
  exists h',
    for_each Data.update_tick l h = Ok h' /\
    handler_ok h' /\
    Data.symbol_list h' = Data.symbol_list h /\
    (forall s f, view h s = Some f ->
       view h' s = Some (Nat.iter (occurrences s l) feed f)) /\
    (Data.continue_backtest h = false -> Data.continue_backtest h' = false) /\
    (forall s f, s ∈ l -> view h s = Some f -> reader f = [] ->
       Data.continue_backtest h' = false).
Proof.
  revert h. induction l as [|x l IH]; intros h Hok Hl.
  { exists h. cbn. do 3 (split; [done|]). split; [by intros|]. split; [done|].
    intros s f Hs. by apply elem_of_nil in Hs. }
  destruct (update_tick_ok h x Hok) as
    (h1 & fx & Hfx & Hrun & Hok1 & Hv1 & Hother & Hlist1 & Hflag1).
  { apply Hl. apply list_elem_of_here. }
  destruct (IH h1 Hok1) as (h' & Hloop & Hok' & Hlist' & Hviews' & Hkeep & Hclear).
  { intros s Hs. rewrite Hlist1. apply Hl. by apply list_elem_of_further. }
  exists h'. cbn [for_each]. rewrite Hrun. cbn [mbind result_bind].
  split; [exact Hloop|]. split; [exact Hok'|]. split; [congruence|].
  assert (Hview1 : forall s f, s <> x -> view h s = Some f -> view h1 s = Some f).
  { intros s f Hne Hf. destruct (Hother s Hne) as (H1 & H2 & H3 & H4).
    by rewrite (view_agree h h1 s H1 H2 H3 H4). }
  split; [|split].
  - intros s f Hf. destruct (decide (s = x)) as [->|Hne].
    + rewrite occurrences_cons_eq, Nat.iter_succ_r.
      apply Hviews'. congruence.
    + rewrite occurrences_cons_ne by done. apply Hviews'. by apply Hview1.
  - intros Hoff. apply Hkeep. rewrite Hflag1. by destruct (reader fx).
  - intros s f Hs Hf Hempty. destruct (decide (s = x)) as [->|Hne].
    + apply Hkeep. rewrite Hflag1.
      assert (fx = f) as -> by congruence. by rewrite Hempty.
    + apply (Hclear s f); [|by apply Hview1|exact Hempty].
      apply elem_of_cons in Hs as [?|?]; [done|assumption].
Qed.

(** ** Construction *)

Lemma open_convert_csv_files_loop csv_dir l h h' :
  for_each (Data.open_convert_csv_file csv_dir) l h = Ok h' ->
  Data.symbol_list h' = Data.symbol_list h /\
  Data.continue_backtest h' = Data.continue_backtest h /\
  (forall s, s ∈ l ->
     exists records, csv_dir !! (s +:+ ".csv") = Some records /\
                     view h' s = Some (mkFeed records [] [] [])) /\
  (forall s, s ∉ l ->
     Data.symbol_data h' !! s = Data.symbol_data h !! s /\
     Data.latest_symbol_data h' !! s = Data.latest_symbol_data h !! s /\
     Data.latest_bars_data h' !! s = Data.latest_bars_data h !! s /\
     Data.current_bar h' !! s = Data.current_bar h !! s).
Proof.
  revert h. induction l as [|x l IH]; intros h Hrun; cbn in Hrun.
  { inversion Hrun; subst. repeat split; try done.
    intros s Hs. by apply elem_of_nil in Hs. }
  inv_bind Hrun as h1 Hstep.
  unfold Data.open_convert_csv_file in Hstep.
  destruct (csv_dir !! (x +:+ ".csv")) as [records|] eqn:Hfile; [|discriminate].
  inversion Hstep; subst h1. clear Hstep.
  destruct (IH _ Hrun) as (Hlist & Hflag & Hin & Hout).
  split; [exact Hlist|]. split; [exact Hflag|]. split.
  - intros s Hs. destruct (decide (s ∈ l)) as [Hl|Hl]; [by apply Hin|].
    apply elem_of_cons in Hs as [->|Hs]; [|done].
    exists records. split; [exact Hfile|].
    destruct (Hout x Hl) as (H1 & H2 & H3 & H4).
    apply view_Some. cbn in *. rewrite H1, H2, H3, H4.
    by rewrite !lookup_insert_eq.
  - intros s Hs. apply not_elem_of_cons in Hs as [Hne Hs].
    destruct (Hout s Hs) as (H1 & H2 & H3 & H4). cbn in *.
    rewrite H1, H2, H3, H4. by rewrite !lookup_insert_ne.
Qed.

Lemma handler_init_ok csv_dir symbol_list h :
  Data.__init__ csv_dir symbol_list = Ok h ->
  handler_ok h /\
  Data.symbol_list h = symbol_list /\
  Data.continue_backtest h = true /\
  (forall s, s ∈ symbol_list ->
     exists records, csv_dir !! (s +:+ ".csv") = Some records /\
                     view h s = Some (mkFeed records [] [] [])).
Proof.
  unfold Data.__init__, Data._open_convert_csv_files. cbn. intros Hrun.
  destruct (open_convert_csv_files_loop _ _ _ _ Hrun) as (Hlist & Hflag & Hin & Hout).
  cbn in *. split; [|by repeat split].
  constructor.
  - intros s Hs. rewrite Hlist in Hs. destruct (Hin s Hs) as (rec & _ & Hv). by eexists.
  - intros s Hs. rewrite Hlist.
    destruct (decide (s ∈ symbol_list)) as [|Hn]; [done|].
    destruct (Hout s Hn) as (_ & _ & H3 & _). rewrite H3, lookup_empty in Hs.
    by destruct Hs.
  - intros s fs Hfs.
    destruct (decide (s ∈ symbol_list)) as [Hy|Hn].
    + destruct (Hin s Hy) as (rec & _ & Hv). apply view_Some in Hv as (_ & _ & Hv & _).
      cbn in Hv. rewrite Hv in Hfs. inversion Hfs. constructor.
    + destruct (Hout s Hn) as (_ & _ & H3 & _). by rewrite H3, lookup_empty in Hfs.
Qed.

Lemma foldl_insert_lookup {V : Type} (v : V) (l : list string) (d : gmap string V)
  (s : string) :
  foldl (fun d s => <[s := v]> d) d l !! s =
    if decide (s ∈ l) then Some v else d !! s.
Proof.
  revert d. induction l as [|x l IH]; intros d; cbn.
  { by rewrite decide_False by apply not_elem_of_nil. }
  rewrite IH. destruct (decide (s ∈ l)) as [Hl|Hl].
  - by rewrite decide_True by (by apply list_elem_of_further).
  - destruct (decide (s = x)) as [->|Hne].
    + rewrite decide_True by apply list_elem_of_here. apply lookup_insert_eq.
    + rewrite decide_False by (apply not_elem_of_cons; done).
      by apply lookup_insert_ne.
Qed.

Lemma boot_ok csv_dir symbol_list cfg sys :
  boot csv_dir symbol_list cfg = Ok sys -> system_ok sys.
Proof.
  unfold boot. intros Hboot. inv_bind Hboot as h Hh. inv_bind Hboot as st Hst.
  inversion Hboot; subst sys. clear Hboot.
  destruct (handler_init_ok _ _ _ Hh) as (Hok & Hlist & _ & _).
  unfold Strategy.__init__ in Hst. inversion Hst; subst st. clear Hst.
  constructor; cbn; try done.
  - intros s Hs. exists Phase.OUT, 0%Q, 0%Q, 0%Q. cbn.
    unfold Strategy._calculate_initial_bought.
    rewrite !foldl_insert_lookup, !decide_True by done. done.
  - intros s Hs. unfold Strategy._calculate_initial_bought in Hs.
    rewrite foldl_insert_lookup in Hs.
    destruct (decide (s ∈ Data.symbol_list h)); [done|].
    rewrite lookup_empty in Hs. by destruct Hs.
Qed.

(** ** What the strategy reads from the handler *)

Lemma bars_values_length bars_list val_type w :
  Data.bars_values bars_list val_type = Ok w -> length w = length bars_list.
Proof.
  revert w. induction bars_list as [|b rest IH]; intros w Hw; cbn in Hw.
  { by inversion Hw. }
  inv_bind Hw as row Hrow. inv_bind Hw as v Hv. inv_bind Hw as vs Hvs.
  inversion Hw; subst. cbn. f_equal. by apply IH.
Qed.

Lemma bars_values_close bars_list :
  Forall (fun f => f <> []) bars_list ->
  exists w, Data.bars_values bars_list "close" = Ok w.
Proof.
  induction 1 as [|b rest Hb _ (w & IH)]; cbn; [by eexists|].
  destruct b as [|row b]; [done|]. cbn. rewrite IH. cbn. by eexists.
Qed.

Lemma get_latest_bars_values_Ok h s val_type N w :
  Data.get_latest_bars_values h s val_type N = Ok w ->
  exists fs, Data.latest_bars_data h !! s = Some fs /\
             length w = length (slice_from (- N) fs).
Proof.
  unfold Data.get_latest_bars_values, Data.get_latest_bars. intros Hw.
  inv_bind Hw as bl Hbl. inv_bind Hbl as fs Hfs. inversion Hbl; subst.
  exists fs. split; [by apply getitem_Ok|]. by eapply bars_values_length.
Qed.

Lemma get_latest_bars_values_total h s N fs :
  Data.latest_bars_data h !! s = Some fs -> Forall (fun f => f <> []) fs ->
  exists w, Data.get_latest_bars_values h s "close" N = Ok w /\
            length w = length (slice_from (- N) fs).
Proof.
  intros Hfs Hne. unfold Data.get_latest_bars_values, Data.get_latest_bars.
  rewrite (getitem_Some _ _ _ Hfs). cbn [mbind result_bind mret result_ret].
  destruct (bars_values_close (slice_from (- N) fs)) as (w & Hw).
  { destruct (slice_from_suffix (- N) fs) as (pre & Hpre).
    rewrite Hpre in Hne. by apply Forall_app in Hne as [_ ?]. }
  exists w. split; [exact Hw|]. by eapply bars_values_length.
Qed.

Lemma slice_from_length_le {A : Type} (start : Z) (l : list A) :
  (length (slice_from start l) <= length l)%nat.
Proof.
  destruct (slice_from_suffix start l) as (pre & Hpre).
  rewrite Hpre at 2. rewrite length_app. lia.
Qed.

Lemma latest_tick_Ok h s td :
  Data.get_latest_tick_datetime h s = Ok td ->
  exists lt, Data.latest_symbol_data h !! s = Some lt /\ lt <> [].
Proof.
  unfold Data.get_latest_tick_datetime. intros Htd.
  inv_bind Htd as lt Hlt. inv_bind Htd as t Ht.
  exists lt. split; [by apply getitem_Ok|]. by eapply getitem_last_nonempty.
Qed.

Lemma latest_tick_total h s lt :
  Data.latest_symbol_data h !! s = Some lt -> lt <> [] ->
  exists t,
    getitem_last lt = Ok t /\
    Data.get_latest_tick_datetime h s = Ok (Data.datetime t) /\
    Data.get_latest_tick_value h s "tick" = Ok (Data.tick t).
Proof.
  intros Hlt Hne. destruct (getitem_last_Ok lt Hne) as (t & Ht).
  exists t. split; [exact Ht|].
  unfold Data.get_latest_tick_datetime, Data.get_latest_tick_value.
  rewrite (getitem_Some _ _ _ Hlt). cbn [mbind result_bind].
  rewrite Ht. done.
Qed.

(** ** Moving averages *)

Lemma ewm_last_Ok span xs v :
  Strategy.ewm_mean span xs ≫= getitem_last = Ok v -> 1 <= span /\ xs <> [].
Proof.
  unfold Strategy.ewm_mean. intros Hv.
  destruct (Z.ltb_spec span 1); [discriminate|].
  split; [lia|]. by destruct xs.
Qed.

Lemma ewm_last_total span xs :
  1 <= span -> xs <> [] -> exists v, Strategy.ewm_mean span xs ≫= getitem_last = Ok v.
Proof.
  intros Hspan Hxs. unfold Strategy.ewm_mean.
  destruct (Z.ltb_spec span 1); [lia|]. cbn [mbind result_bind].
  apply getitem_last_Ok. by destruct xs.
Qed.

Lemma averages_Ok st w a :
  averages st w = Ok a ->
  w <> [] /\ 1 <= Strategy.short_window st /\ 1 <= Strategy.mid_window st /\
  1 <= Strategy.long_window st.
Proof.
  unfold averages. intros Ha.
  inv_bind Ha as lb Hlb. inv_bind Ha as se Hse. inv_bind Ha as me Hme.
  inv_bind Ha as le Hle.
  apply ewm_last_Ok in Hse as [? ?]. apply ewm_last_Ok in Hme as [? _].
  apply ewm_last_Ok in Hle as [? _]. done.
Qed.

Lemma averages_total st w :
  w <> [] -> 1 <= Strategy.short_window st -> 1 <= Strategy.mid_window st ->
  1 <= Strategy.long_window st ->
  exists a, averages st w = Ok a.
Proof.
  intros Hw Hs Hm Hl. unfold averages.
  destruct (getitem_last_Ok w Hw) as (lb & ->).
  destruct (ewm_last_total _ w Hs Hw) as (se & ->).
  destruct (ewm_last_total _ w Hm Hw) as (me & ->).
  destruct (ewm_last_total _ w Hl Hw) as (le & ->).
  cbn. by eexists.
Qed.

(** ** The invariants are kept *)

Lemma same_settings_maintain st s r : same_settings st (maintain st s r).
Proof. exact (maintain_config st s r). Qed.

Lemma same_settings_carry_out v cur_date s p st events :
  same_settings st (carry_out v cur_date s p st events).1.
Proof. destruct v; cbn; unfold same_settings; cbn; done. Qed.

Lemma same_settings_trans st1 st2 st3 :
  same_settings st1 st2 -> same_settings st2 st3 -> same_settings st1 st3.
Proof.
  unfold same_settings.
  intros (?&?&?&?&?&?&?&?&?&?&?) (?&?&?&?&?&?&?&?&?&?&?).
  repeat split; congruence.
Qed.

Lemma in_position_settings h st st' s :
  same_settings st st' -> in_position h st s -> in_position h st' s.
Proof.
  intros (_ & Hs & Hm & Hl & Hu & _) (fs & lt & H1 & H2 & H3 & H4 & H5 & H6 & H7 & H8).
  exists fs, lt. rewrite Hs, Hm, Hl, Hu. done.
Qed.

Lemma symbol_ok_agree h st st' s :
  same_settings st st' ->
  Strategy.bought st' !! s = Strategy.bought st !! s ->
  Strategy.omm_price st' !! s = Strategy.omm_price st !! s ->
  symbol_ok h st s -> symbol_ok h st' s.
Proof.
  intros Hset Hb Ho (ph & po & mx & mn & H1 & H2 & H3 & H4).
  exists ph, po, mx, mn. rewrite Hb, Ho.
  split; [exact H1|]. split; [exact H2|]. split; [exact H3|].
  intros Hph. eapply in_position_settings; [exact Hset|by apply H4].
Qed.

Lemma system_ok_update h st events st' events' s :
  system_ok (mkSystem h st events) -> s ∈ Strategy.symbol_list st ->
  same_settings st st' ->
  (forall s0, s0 <> s ->
     Strategy.bought st' !! s0 = Strategy.bought st !! s0 /\
     Strategy.omm_price st' !! s0 = Strategy.omm_price st !! s0) ->
  symbol_ok h st' s ->
  system_ok (mkSystem h st' events').
Proof.
  intros [Hh Hsym Hwin Hent Hb] Hs Hset Hframe Hok. cbn in *.
  pose proof Hset as (Hl & _ & _ & Hlw & Huw & _).
  constructor; cbn.
  - exact Hh.
  - congruence.
  - congruence.
  - intros s0 Hs0. rewrite Hl in Hs0.
    destruct (decide (s0 = s)) as [->|Hne]; [exact Hok|].
    destruct (Hframe s0 Hne) as [H1 H2].
    eapply symbol_ok_agree; eauto.
  - intros s0 Hs0. rewrite Hl.
    destruct (decide (s0 = s)) as [->|Hne]; [exact Hs|].
    destruct (Hframe s0 Hne) as [H1 _]. rewrite H1 in Hs0. by apply Hb.
Qed.

Section Preservation.
Context `{TzDatabase}.

Lemma reads_of_Ok h cur_date s st events x ph po mx mn :
  Strategy.calculate_signals_for h cur_date s (st, events) = Ok x ->
  Strategy.bought st !! s = Some ph ->
  Strategy.omm_price st !! s = Some [po; mx; mn] ->
  exists w td price, reads h st s (mkReading w td price ph po mx mn).
Proof.
  unfold Strategy.calculate_signals_for. intros Hrun Hph Homm.
  inv_bind Hrun as w Hw. inv_bind Hrun as td Htd. inv_bind Hrun as price Hprice.
  exists w, td, price. unfold reads. cbn. done.
Qed.

(** What the symbol of an iteration looks like afterwards, case by case. *)
Lemma maintain_symbol_ok h st s r :
  reads h st s r -> symbol_ok h st s -> symbol_ok h (maintain st s r) s.
Proof.
  intros (_ & _ & _ & Hph & Homm) (ph & po & mx & mn & H1 & H2 & H3 & H4).
  rewrite Hph in H1. rewrite Homm in H2. inversion H1; inversion H2; subst.
  destruct (decide (r_phase r = Phase.OUT)) as [Hout|Hin].
  - destruct (H3 Hout) as (Hpo & _). rewrite maintain_idle by exact Hpo.
    exists (r_phase r), (r_po r), (r_max r), (r_min r). done.
  - exists (r_phase r), (r_po r), (kept_max r), (kept_min r).
    rewrite maintain_bought. split; [exact Hph|].
    split; [by apply maintain_omm_price|]. split; [done|].
    intros _. eapply in_position_settings; [apply same_settings_maintain|by apply H4].
Qed.

Lemma entered_in_position h st s r a :
  reads h st s r ->
  Z.of_nat (length (r_bars_value r)) = Strategy.use_window st ->
  averages st (r_bars_value r) = Ok a ->
  in_position h st s.
Proof.
  intros (Hw & Htd & _ & _ & _) Hfull Ha.
  apply get_latest_bars_values_Ok in Hw as (fs & Hfs & Hlen).
  apply latest_tick_Ok in Htd as (lt & Hlt & Hne).
  apply averages_Ok in Ha as (Hw & Hs & Hm & Hl).
  exists fs, lt.
  pose proof (slice_from_length_le (- Strategy.use_window st) fs).
  assert (length (r_bars_value r) <> 0%nat) by (by destruct (r_bars_value r)).
  repeat split; try done; lia.
Qed.

Lemma calculate_signals_for_settings h cur_date s st events st' events' :
  system_ok (mkSystem h st events) -> s ∈ Strategy.symbol_list st ->
  Strategy.calculate_signals_for h cur_date s (st, events) = Ok (st', events') ->
  same_settings st st'.
Proof.
  intros Hok Hs Hrun.
  pose proof (ok_entries _ Hok s Hs) as (ph & po & mx & mn & Hph & Homm & _).
  cbn in Hph, Homm.
  destruct (reads_of_Ok _ _ _ _ _ _ _ _ _ _ Hrun Hph Homm) as (w & td & price & Hr).
  rewrite (calculate_signals_for_reads _ _ _ _ _ _ Hr) in Hrun.
  destruct (decide _).
  - inv_bind Hrun as a Ha. inversion Hrun as [Hpair].
    eapply same_settings_trans; [apply same_settings_maintain|].
    match goal with
    | |- same_settings ?m _ =>
        pose proof (same_settings_carry_out
          (verdict st (mkReading w td price ph po mx mn) a) cur_date s price m
          events) as Hc
    end.
    cbn [r_tick_price] in Hpair. by rewrite Hpair in Hc.
  - inversion Hrun; subst. apply same_settings_maintain.
Qed.

Lemma calculate_signals_for_ok h cur_date s st events st' events' :
  system_ok (mkSystem h st events) -> s ∈ Strategy.symbol_list st ->
  Strategy.calculate_signals_for h cur_date s (st, events) = Ok (st', events') ->
  system_ok (mkSystem h st' events').
Proof.
  intros Hok Hs Hrun.
  pose proof (ok_entries _ Hok s Hs) as Hsym. cbn in Hsym.
  pose proof Hsym as (ph & po & mx & mn & Hph & Homm & Hzero & Hpos).
  destruct (reads_of_Ok _ _ _ _ _ _ _ _ _ _ Hrun Hph Homm) as (w & td & price & Hr).
  set (r := mkReading w td price ph po mx mn) in *.
  rewrite (calculate_signals_for_reads _ _ _ _ _ r Hr) in Hrun.
  pose proof (maintain_symbol_ok h st s r Hr Hsym) as Hkept.
  assert (Hkeep : forall q, system_ok (mkSystem h (maintain st s r) q)).
  { intros q. eapply (system_ok_update h st events _ q s); eauto.
    - apply same_settings_maintain.
    - intros s0 Hne. rewrite maintain_bought. split; [done|].
      by apply maintain_omm_price_ne. }
  destruct (decide _) as [Hfull|Hshort]; [|inversion Hrun; subst; apply Hkeep].
  inv_bind Hrun as a Ha.
  pose proof (verdict_phase st r a) as Hv.
  pose proof (entered_in_position h st s r a Hr Hfull Ha) as Hin.
  destruct (verdict st r a); cbn in Hrun, Hv; inversion Hrun; subst st' events';
    clear Hrun; try apply Hkeep.
  - (* LONG entry *)
    eapply (system_ok_update h (maintain st s r) events _ _ s); eauto.
    + by rewrite (proj1 (same_settings_maintain st s r)).
    + unfold same_settings. cbn. done.
    + intros s0 Hne. cbn. by rewrite !lookup_insert_ne.
    + exists Phase.LONG, price, price, price. cbn. rewrite !lookup_insert_eq.
      repeat split; try done.
      intros _. eapply in_position_settings; [|exact Hin].
      eapply same_settings_trans; [apply same_settings_maintain|].
      unfold same_settings. cbn. done.
  - (* SHORT entry *)
    eapply (system_ok_update h (maintain st s r) events _ _ s); eauto.
    + by rewrite (proj1 (same_settings_maintain st s r)).
    + unfold same_settings. cbn. done.
    + intros s0 Hne. cbn. by rewrite !lookup_insert_ne.
    + exists Phase.SHORT, price, price, price. cbn. rewrite !lookup_insert_eq.
      repeat split; try done.
      intros _. eapply in_position_settings; [|exact Hin].
      eapply same_settings_trans; [apply same_settings_maintain|].
      unfold same_settings. cbn. done.
  - (* LONG exit *)
    eapply (system_ok_update h (maintain st s r) events _ _ s); eauto.
    + by rewrite (proj1 (same_settings_maintain st s r)).
    + unfold same_settings. cbn. done.
    + intros s0 Hne. cbn. by rewrite !lookup_insert_ne.
    + exists Phase.OUT, 0%Q, 0%Q, 0%Q. cbn. rewrite !lookup_insert_eq. done.
  - (* SHORT exit *)
    eapply (system_ok_update h (maintain st s r) events _ _ s); eauto.
    + by rewrite (proj1 (same_settings_maintain st s r)).
    + unfold same_settings. cbn. done.
    + intros s0 Hne. cbn. by rewrite !lookup_insert_ne.
    + exists Phase.OUT, 0%Q, 0%Q, 0%Q. cbn. rewrite !lookup_insert_eq. done.
Qed.

End Preservation.

Lemma iter_feed_frames_length n f :
  (length (frames f) <= length (frames (Nat.iter n feed f)))%nat.
Proof.
  induction n as [|n IH]; [reflexivity|].
  rewrite Nat.iter_succ. etrans; [exact IH|apply feed_frames_length].
Qed.

Lemma iter_feed_latest n f : latest f <> [] -> latest (Nat.iter n feed f) <> [].
Proof.
  intros Hf. induction n as [|n IH]; [exact Hf|].
  rewrite Nat.iter_succ. by apply feed_latest.
Qed.

(** [update_ticks] never raises on a handler of a run. *)
Lemma update_ticks_ok h events :
  handler_ok h ->
  exists h',
    Data.update_ticks h events = Ok (h', events ++ [MarketEvent]) /\
    handler_ok h' /\
    Data.symbol_list h' = Data.symbol_list h /\
    (forall s f, view h s = Some f ->
       view h' s = Some (Nat.iter (occurrences s (Data.symbol_list h)) feed f)) /\
    (Data.continue_backtest h = false -> Data.continue_backtest h' = false) /\
    (forall s f, s ∈ Data.symbol_list h -> view h s = Some f -> reader f = [] ->
       Data.continue_backtest h' = false).
Proof.
  intros Hok.
  destruct (update_ticks_loop (Data.symbol_list h) h Hok) as (h' & Hrun & Hrest);
    [done|].
  exists h'. split; [|exact Hrest].
  unfold Data.update_ticks. by rewrite Hrun.
Qed.

Section Reachable.
Context `{TzDatabase}.

Lemma act_ok a sys sys' : system_ok sys -> act a sys = Ok sys' -> system_ok sys'.
Proof.
  intros Hok Hact. destruct a as [|cur_date event]; cbn in Hact.
  - destruct (update_ticks_ok (handler sys) (queue sys) (ok_handler _ Hok))
      as (h' & Hrun & Hh' & Hlist & Hviews & _).
    rewrite Hrun in Hact. cbn in Hact. inversion Hact; subst sys'. clear Hact.
    destruct Hok as [Hh Hsym Hwin Hent Hb].
    constructor; cbn; try done; [congruence|].
    intros s Hs. destruct (Hent s Hs) as (ph & po & mx & mn & H1 & H2 & H3 & H4).
    exists ph, po, mx, mn. do 3 (split; [done|]).
    intros Hph. destruct (H4 Hph) as (fs & lt & Hfs & Hu1 & Hu2 & Hlt & Hne & Hspans).
    rewrite Hsym in Hs. destruct (ok_views _ Hh s Hs) as (f & Hf).
    pose proof (Hviews s f Hf) as Hf'.
    apply view_Some in Hf as (_ & Hl0 & Hf0 & _).
    apply view_Some in Hf' as (_ & Hl1 & Hf1 & _).
    rewrite Hfs in Hf0. rewrite Hlt in Hl0. inversion Hf0; inversion Hl0; subst.
    eexists _, _. split; [exact Hf1|]. split; [exact Hu1|].
    split; [|split; [exact Hl1|split; [by apply iter_feed_latest|exact Hspans]]].
    pose proof (iter_feed_frames_length
                  (occurrences s (Data.symbol_list (handler sys))) f). lia.
  - inv_bind Hact as state Hrun. destruct state as [st' q'].
    inversion Hact; subst sys'. clear Hact.
    unfold Strategy.calculate_signals in Hrun.
    destruct (event_type event).
    2:{ inversion Hrun; subst. by destruct sys. }
    revert Hrun.
    apply (for_each_invariant
      (fun state => system_ok (mkSystem (handler sys) state.1 state.2) /\
                    Strategy.symbol_list state.1
                      = Strategy.symbol_list (strategy sys))).
    + intros s [st1 q1] [st2 q2] Hs [Hok1 Hl1] Hstep. cbn [fst snd] in *.
      assert (Hs1 : s ∈ Strategy.symbol_list st1) by (by rewrite Hl1).
      split.
      * eapply calculate_signals_for_ok; [exact Hok1|exact Hs1|exact Hstep].
      * pose proof (calculate_signals_for_settings _ _ _ _ _ _ _ Hok1 Hs1 Hstep)
          as (Hl2 & _).
        congruence.
    + cbn. split; [by destruct sys|reflexivity].
Qed.

(** Every state of a run satisfies the invariants. *)
Lemma reachable_ok sys : reachable sys -> system_ok sys.
Proof.
  intros (csv_dir & symbol_list & cfg & acts & Hrun).
  inv_bind Hrun as sys0 Hboot. apply boot_ok in Hboot.
  revert Hrun. unfold run. apply for_each_invariant; [|exact Hboot].
  intros a s1 s2 _. apply act_ok.
Qed.

End Reachable.

(** ** One iteration in a state of a run *)

Lemma carry_out_queue v cur_date s p st events :
  (carry_out v cur_date s p st events).2 = events ++ put_of v cur_date s.
Proof. destruct v; cbn; by rewrite ?app_nil_r. Qed.

Lemma carry_out_puts v cur_date s p st events st' d :
  carry_out v cur_date s p st events = (st', events ++ [Strategy.signal cur_date s d]) ->
  match d with
  | Direction.LONG => v = EnterLong
  | Direction.SHORT => v = EnterShort
  | Direction.EXIT => v = ExitLong \/ v = ExitShort
  end.
Proof.
  intros Hc. pose proof (carry_out_queue v cur_date s p st events) as Hq.
  rewrite Hc in Hq. cbn in Hq. apply app_inv_head in Hq.
  destruct v, d; cbn in Hq; try discriminate; auto.
Qed.

Lemma put_of_signal v cur_date s d :
  put_of v cur_date s = [Strategy.signal cur_date s d] <->
  match d with
  | Direction.LONG => v = EnterLong
  | Direction.SHORT => v = EnterShort
  | Direction.EXIT => v = ExitLong \/ v = ExitShort
  end.
Proof.
  unfold Strategy.signal.
  destruct v, d; cbn; split; try discriminate; try (intros [?|?]); try discriminate;
    auto.
Qed.

Lemma bars_listed h s val_type N w :
  handler_ok h -> Data.get_latest_bars_values h s val_type N = Ok w ->
  s ∈ Data.symbol_list h.
Proof.
  intros Hok Hw. apply get_latest_bars_values_Ok in Hw as (fs & Hfs & _).
  apply (ok_listed _ Hok). by eexists.
Qed.

Section Resolved.
Context `{TzDatabase}.

Lemma listed_of_Ok sys s cur_date x :
  system_ok sys ->
  Strategy.calculate_signals_for (handler sys) cur_date s (strategy sys, queue sys)
    = Ok x ->
  s ∈ Strategy.symbol_list (strategy sys).
Proof.
  intros Hok Hrun. unfold Strategy.calculate_signals_for in Hrun.
  inv_bind Hrun as w Hw. rewrite (ok_symbols _ Hok).
  eapply bars_listed; [apply (ok_handler _ Hok)|exact Hw].
Qed.

(** In a state of a run, a listed symbol with a latest tick can be read. *)
Lemma reads_total sys s tick_date :
  system_ok sys -> s ∈ Strategy.symbol_list (strategy sys) ->
  Data.get_latest_tick_datetime (handler sys) s = Ok tick_date ->
  exists r, reads (handler sys) (strategy sys) s r /\ r_tick_date r = tick_date.
Proof.
  intros Hok Hs Htd.
  destruct (ok_entries _ Hok s Hs) as (ph & po & mx & mn & Hph & Homm & _).
  pose proof Hs as Hs'. rewrite (ok_symbols _ Hok) in Hs'.
  destruct (ok_views _ (ok_handler _ Hok) s Hs') as (f & Hf).
  apply view_Some in Hf as (_ & _ & Hfs & _).
  destruct (get_latest_bars_values_total (handler sys) s
              (Strategy.use_window (strategy sys)) _ Hfs) as (w & Hw & _).
  { by apply (ok_frames _ (ok_handler _ Hok) s). }
  destruct (latest_tick_Ok _ _ _ Htd) as (lt & Hlt & Hne).
  destruct (latest_tick_total _ _ _ Hlt Hne) as (t & _ & Htd' & Hp).
  exists (mkReading w tick_date (Data.tick t) ph po mx mn).
  unfold reads. cbn. done.
Qed.

(** A completed iteration in a state of a run, resolved. *)
Lemma resolved sys s cur_date x :
  system_ok sys ->
  Strategy.calculate_signals_for (handler sys) cur_date s (strategy sys, queue sys)
    = Ok x ->
  exists r,
    reads (handler sys) (strategy sys) s r /\
    ((Z.of_nat (length (r_bars_value r)) <> Strategy.use_window (strategy sys) /\
      x = (maintain (strategy sys) s r, queue sys)) \/
     (Z.of_nat (length (r_bars_value r)) = Strategy.use_window (strategy sys) /\
      exists a, averages (strategy sys) (r_bars_value r) = Ok a /\
        x = carry_out (verdict (strategy sys) r a) cur_date s (r_tick_price r)
              (maintain (strategy sys) s r) (queue sys))).
Proof.
  intros Hok Hrun.
  pose proof (listed_of_Ok _ _ _ _ Hok Hrun) as Hs.
  destruct (ok_entries _ Hok s Hs) as (ph & po & mx & mn & Hph & Homm & _).
  destruct (reads_of_Ok _ _ _ _ _ _ _ _ _ _ Hrun Hph Homm) as (w & td & price & Hr).
  exists (mkReading w td price ph po mx mn). split; [exact Hr|].
  rewrite (calculate_signals_for_reads _ _ _ _ _ _ Hr) in Hrun.
  destruct (decide _) as [Hfull|Hshort].
  - right. split; [exact Hfull|]. inv_bind Hrun as a Ha. exists a.
    split; [exact Ha|]. by inversion Hrun.
  - left. split; [exact Hshort|]. by inversion Hrun.
Qed.


End Resolved.

Section Entries.
Context `{TzDatabase}.


End Entries.

Section Exits.
Context `{TzDatabase}.



End Exits.

Section Gate.
Context `{TzDatabase}.

(** C8.  In every state of a run, when the session gate is closed at the
    latest tick of a symbol (the London hour is below 8 or the New York
    hour is 17 or later) an iteration for that symbol puts no LONG and no
    SHORT signal: it puts nothing or one EXIT; and if the symbol is OUT it
    puts nothing at all and the symbol stays OUT. *)
Theorem closed_gate_blocks_entries sys s cur_date tick_date st' events' :
  reachable sys ->
  Data.get_latest_tick_datetime (handler sys) s = Ok tick_date ->
  astimezone_hour "Europe/London" tick_date < 8 \/
    17 <= astimezone_hour "America/New_York" tick_date ->
  Strategy.calculate_signals_for (handler sys) cur_date s
    (strategy sys, queue sys) = Ok (st', events') ->
  (events' = queue sys \/
   events' = queue sys ++ [Strategy.signal cur_date s Direction.EXIT]) /\
  (Strategy.bought (strategy sys) !! s = Some Phase.OUT ->
   events' = queue sys /\ Strategy.bought st' !! s = Some Phase.OUT).
Proof.
  intros Hreach Htd Hclosed Hrun. apply reachable_ok in Hreach as Hok.
  destruct (resolved _ _ _ _ Hok Hrun) as (r & Hr & [(_ & Hx)|(_ & a & Ha & Hx)]).
  { inversion Hx; subst. split; [by left|].
    intros Hout. by rewrite maintain_bought. }
  pose proof Hr as (_ & Hrd & _ & Hrph & _).
  assert (r_tick_date r = tick_date) as Hdate by congruence.
  assert (Hgate : ~ session_gate (r_tick_date r)).
  { rewrite Hdate. unfold session_gate. lia. }
  destruct (verdict (strategy sys) r a) eqn:Hv; cbn in Hx; inversion Hx; subst.
  - apply verdict_EnterLong in Hv as (_ & ? & _). done.
  - apply verdict_EnterShort in Hv as (_ & ? & _). done.
  - split; [by right|]. apply verdict_ExitLong in Hv as (? & _). congruence.
  - split; [by right|]. apply verdict_ExitShort in Hv as (? & _). congruence.
  - split; [by left|]. intros Hout. by rewrite maintain_bought.
Qed.

End Gate.

Section Skip.
Context `{TzDatabase}.


End Skip.

Section Prices.
Context `{TzDatabase}.

(** C4.  Whenever an iteration reads a full window whose averages exist:
    the entries are decided by comparing the averages with the close of
    the last bar of the window, the exits by comparing the price of the
    latest tick with the anchors, and an entry records the price of the
    latest tick as entryPrice, runningMax and runningMin; so when the two
    prices differ, the recorded entry price is not the price the entry
    conditions were tested on. *)
Theorem prices_used bars st s cur_date events r a :
  reads bars st s r ->
  Z.of_nat (length (r_bars_value r)) = Strategy.use_window st ->
  averages st (r_bars_value r) = Ok a ->
  getitem_last (r_bars_value r) = Ok (last_bar_price a) /\
  (puts bars cur_date s st events Direction.LONG <->
   r_phase r = Phase.OUT /\ session_gate (r_tick_date r) /\
   long_entry_rule st (last_bar_price a) (short_ema a) (mid_ema a) (long_ema a)) /\
  (puts bars cur_date s st events Direction.SHORT <->
   r_phase r = Phase.OUT /\ session_gate (r_tick_date r) /\
   short_entry_rule st (last_bar_price a) (short_ema a) (mid_ema a) (long_ema a)) /\
  (puts bars cur_date s st events Direction.EXIT <->
   (r_phase r = Phase.LONG /\
    long_exit_rule st (r_tick_price r) (r_po r) (kept_max r)) \/
   (r_phase r = Phase.SHORT /\
    short_exit_rule st (r_tick_price r) (r_po r) (kept_min r))) /\
  (forall st' d,
     d = Direction.LONG \/ d = Direction.SHORT ->
     Strategy.calculate_signals_for bars cur_date s (st, events)
       = Ok (st', events ++ [Strategy.signal cur_date s d]) ->
     Strategy.omm_price st' !! s
       = Some [r_tick_price r; r_tick_price r; r_tick_price r] /\
     (~ (r_tick_price r == last_bar_price a)%Q ->
      exists po mx mn,
        Strategy.omm_price st' !! s = Some [po; mx; mn] /\
        ~ (po == last_bar_price a)%Q)).
Proof.
  intros Hr Hfull Ha.
  assert (Hrun : Strategy.calculate_signals_for bars cur_date s (st, events)
    = Ok (carry_out (verdict st r a) cur_date s (r_tick_price r)
            (maintain st s r) events)).
  { rewrite (calculate_signals_for_reads _ _ _ _ _ _ Hr).
    rewrite decide_True by exact Hfull. by rewrite Ha. }
  assert (Hputs : forall d,
    puts bars cur_date s st events d <->
    put_of (verdict st r a) cur_date s = [Strategy.signal cur_date s d]).
  { intros d. unfold puts. rewrite Hrun. split.
    - intros (st' & Hx). inversion Hx as [Hc].
      pose proof (carry_out_queue (verdict st r a) cur_date s (r_tick_price r)
                    (maintain st s r) events) as Hq.
      rewrite Hc in Hq. cbn in Hq. by apply app_inv_head in Hq.
    - intros Hput. eexists. f_equal.
      rewrite (surjective_pairing (carry_out _ _ _ _ _ _)).
      by rewrite carry_out_queue, Hput. }
  split.
  { unfold averages in Ha. inv_bind Ha as lb Hlb. do 3 inv_bind Ha.
    inversion Ha. exact Hlb. }
  split; [|split; [|split]].
  - by rewrite Hputs, put_of_signal, <- verdict_EnterLong.
  - by rewrite Hputs, put_of_signal, <- verdict_EnterShort.
  - by rewrite Hputs, put_of_signal, <- (verdict_ExitLong st r a),
      <- (verdict_ExitShort st r a).
  - intros st' d Hd Hrun'. rewrite Hrun in Hrun'. inversion Hrun' as [Hc].
    apply carry_out_puts in Hc.
    assert (Homm : Strategy.omm_price st' !! s
      = Some [r_tick_price r; r_tick_price r; r_tick_price r]).
    { destruct Hd as [-> | ->]; rewrite Hc in Hrun'; cbn in Hrun';
        inversion Hrun'; cbn; by rewrite !lookup_insert_eq. }
    split; [exact Homm|]. intros Hne. by eexists _, _, _.
Qed.

End Prices.

(** ** Feeding a symbol several times *)

Lemma feed_exhausted f : reader f = [] -> feed f = f.
Proof. intros Hr. unfold feed. by rewrite Hr. Qed.

Lemma iter_feed_exhausted n f : reader f = [] -> Nat.iter n feed f = f.
Proof.
  intros Hr. induction n as [|n IH]; [reflexivity|].
  rewrite Nat.iter_succ, IH. by apply feed_exhausted.
Qed.

Lemma feed_latest_head f tk rest : reader f = tk :: rest -> latest (feed f) = [tk].
Proof.
  intros Hr. unfold feed. rewrite Hr.
  by destruct (Data.resample_5T _) as [|g [|g' gs]].
Qed.

Lemma iter_feed_latest_last n f :
  reader f <> [] ->
  exists tk, last (take (S n) (reader f)) = Some tk /\
             latest (Nat.iter (S n) feed f) = [tk].
Proof.
  revert f. induction n as [|n IH]; intros f Hr.
  - destruct (reader f) as [|tk rest] eqn:Hreader; [done|].
    exists tk. split; [reflexivity|]. cbn. by apply (feed_latest_head f tk rest).
  - destruct (reader f) as [|tk rest] eqn:Hreader; [done|].
    rewrite Nat.iter_succ_r.
    destruct rest as [|tk2 rest].
    + exists tk. split; [reflexivity|].
      rewrite iter_feed_exhausted.
      * by apply (feed_latest_head f tk []).
      * by rewrite feed_reader, Hreader.
    + destruct (IH (feed f)) as (x & Hx & Hl).
      { by rewrite feed_reader, Hreader. }
      rewrite feed_reader, Hreader in Hx. cbn [drop] in Hx.
      exists x. split; [|exact Hl].
      change (take (S (S n)) (tk :: tk2 :: rest))
        with (tk :: take (S n) (tk2 :: rest)).
      rewrite last_cons, Hx. done.
Qed.

Lemma iter_feed_frames_app n f :
  exists new, frames (Nat.iter n feed f) = frames f ++ new /\ (length new <= n)%nat.
Proof.
  induction n as [|n (new & IH & Hlen)].
  { exists []. by rewrite app_nil_r. }
  rewrite Nat.iter_succ.
  destruct (feed_frames (Nat.iter n feed f)) as [->|(rows & _ & ->)].
  - exists new. split; [exact IH|lia].
  - exists (new ++ [Data.ohlc rows]). rewrite IH, <- app_assoc.
    split; [reflexivity|]. rewrite length_app. cbn. lia.
Qed.

Lemma occurrences_listed s l : s ∈ l -> (1 <= occurrences s l)%nat.
Proof.
  intros Hs. unfold occurrences.
  induction l as [|x l IH]; [by apply elem_of_nil in Hs|].
  destruct (decide (x = s)) as [->|Hne].
  - rewrite filter_cons_True by done. cbn. lia.
  - rewrite filter_cons_False by done. apply IH.
    apply elem_of_cons in Hs as [?|?]; [congruence|done].
Qed.

Section Exhaustion.
Context `{TzDatabase}.


End Exhaustion.

Section Capacity.
Context `{TzDatabase}.

(** C5 (as amended).  In every state of a run the stored history of a
    symbol is append-only: [update_ticks] raises nothing and leaves the
    history as it was followed by at most one new frame per listing of the
    symbol, never removing a stored bar.  What is bounded is the window
    handed to the strategy: with [long_window >= 1],
    [get_latest_bars(s, use_window)] is the final segment of the history
    of length min(4 * long_window, length of the history). *)
Theorem history_is_append_only sys s fs :
  reachable sys ->
  Data.latest_bars_data (handler sys) !! s = Some fs ->
  (exists h' new,
     Data.update_ticks (handler sys) (queue sys)
       = Ok (h', queue sys ++ [MarketEvent]) /\
     Data.latest_bars_data h' !! s = Some (fs ++ new) /\
     (length new <= occurrences s (Data.symbol_list (handler sys)))%nat) /\
  (1 <= Strategy.long_window (strategy sys) ->
   exists window,
     Data.get_latest_bars (handler sys) s (Strategy.use_window (strategy sys))
       = Ok window /\
     window `suffix_of` fs /\
     Z.of_nat (length window)
       = Z.min (4 * Strategy.long_window (strategy sys)) (Z.of_nat (length fs))).
Proof.
  intros Hreach Hfs. apply reachable_ok in Hreach as Hok.
  pose proof (ok_handler _ Hok) as Hh.
  assert (Hs : s ∈ Data.symbol_list (handler sys)).
  { apply (ok_listed _ Hh). by eexists. }
  split.
  - destruct (update_ticks_ok (handler sys) (queue sys) Hh)
      as (h' & Hrun & _ & _ & Hviews & _).
    destruct (ok_views _ Hh s Hs) as (f & Hf).
    pose proof (Hviews s f Hf) as Hf'.
    apply view_Some in Hf as (_ & _ & Hf0 & _).
    apply view_Some in Hf' as (_ & _ & Hf1 & _).
    destruct (iter_feed_frames_app
                (occurrences s (Data.symbol_list (handler sys))) f)
      as (new & Hnew & Hlen).
    exists h', new. split; [exact Hrun|]. split; [|exact Hlen].
    rewrite Hf1, Hnew. congruence.
  - intros Hlong. exists (slice_from (- Strategy.use_window (strategy sys)) fs).
    unfold Data.get_latest_bars. rewrite (getitem_Some _ _ _ Hfs).
    split; [reflexivity|]. split; [apply slice_from_suffix|].
    rewrite slice_from_length by (rewrite (ok_window _ Hok); lia).
    rewrite (ok_window _ Hok). lia.
Qed.

End Capacity.

(** C6 (as amended).  Construction checks nothing about its arguments: for
    every choice of the three spans, those with [short_window >= mid_window]
    included, and of the six thresholds, [BSStrategy.__init__] raises
    nothing and returns a strategy with the spans as given, a window of
    [4 * long_window], the thresholds scaled by 1e-4, and every listed
    symbol OUT with anchors [0, 0, 0]. *)
Theorem construction_never_fails bars short_window mid_window long_window
  min_diff min_deep plus sl tp ts_step :
  exists st,
    Strategy.__init__ bars short_window mid_window long_window
      min_diff min_deep plus sl tp ts_step = Ok st /\
    Strategy.symbol_list st = Data.symbol_list bars /\
    Strategy.short_window st = short_window /\
    Strategy.mid_window st = mid_window /\
    Strategy.long_window st = long_window /\
    Strategy.use_window st = 4 * long_window /\
    Strategy.min_diff st = (min_diff * (1 # 10000))%Q /\
    Strategy.min_deep st = (min_deep * (1 # 10000))%Q /\
    Strategy.plus st = (plus * (1 # 10000))%Q /\
    Strategy.sl st = (sl * (1 # 10000))%Q /\
    Strategy.tp st = (tp * (1 # 10000))%Q /\
    Strategy.ts_step st = (ts_step * (1 # 10000))%Q /\
    forall s, s ∈ Data.symbol_list bars ->
      Strategy.bought st !! s = Some Phase.OUT /\
      Strategy.omm_price st !! s = Some [0; 0; 0]%Q.
Proof.
  eexists. split; [reflexivity|]. cbn. repeat (split; [reflexivity|]).
  intros s Hs. unfold Strategy._calculate_initial_bought.
  rewrite !foldl_insert_lookup, !decide_True by done. done.
Qed.

(** ** Resampling a time-ordered frame *)

Lemma insert_by_time_first x l :
  Forall (fun y => Data.datetime x <= Data.datetime y) l ->
  Data.insert_by_time x l = x :: l.
Proof.
  destruct 1 as [|y l Hy _]; [reflexivity|]. cbn.
  by destruct (Z.leb_spec (Data.datetime x) (Data.datetime y)); [|lia].
Qed.

Lemma sort_by_time_ordered l : time_ordered l -> Data.sort_by_time l = l.
Proof.
  unfold time_ordered, Data.sort_by_time.
  induction 1 as [|x l _ IH Hx]; [reflexivity|].
  cbn. rewrite IH. by apply insert_by_time_first.
Qed.

Lemma bin_of_mono t t' : t <= t' -> Data.bin_of t <= Data.bin_of t'.
Proof.
  intros Ht. unfold Data.bin_of.
  apply Z.mul_le_mono_nonneg_r; [unfold Data.five_minutes; lia|].
  apply Z.div_le_mono; [unfold Data.five_minutes; lia|exact Ht].
Qed.

Lemma bin_of_gap t t' :
  Data.bin_of t < Data.bin_of t' ->
  1 <= (Data.bin_of t' - Data.bin_of t) / Data.five_minutes.
Proof.
  unfold Data.bin_of. intros Hlt.
  assert (Hpos : 0 < Data.five_minutes) by (unfold Data.five_minutes; lia).
  rewrite <- Z.mul_sub_distr_r, Z.div_mul by lia. nia.
Qed.

Lemma filter_all {A : Type} (P : A -> Prop) `{forall x, Decision (P x)} (l : list A) :
  Forall P l -> filter P l = l.
Proof.
  induction 1 as [|x l Hx _ IH]; [reflexivity|].
  by rewrite filter_cons_True, IH.
Qed.

Lemma filter_none {A : Type} (P : A -> Prop) `{forall x, Decision (P x)} (l : list A) :
  Forall (fun x => ~ P x) l -> filter P l = [].
Proof.
  induction 1 as [|x l Hx _ IH]; [reflexivity|].
  by rewrite filter_cons_False, IH.
Qed.

Lemma last_default {A : Type} (l : list A) (d : A) :
  last (d :: l) = Some (List.last l d).
Proof.
  revert d. induction l as [|x l IH]; intros d; [reflexivity|].
  change (last (d :: x :: l)) with (last (x :: l)). rewrite IH.
  destruct l as [|y l']; [reflexivity|].
  pose proof (IH x) as H1. pose proof (IH d) as H2.
  change (last (x :: y :: l')) with (last (y :: l')) in H1.
  change (last (d :: y :: l')) with (last (y :: l')) in H2.
  change (List.last (x :: y :: l') d) with (List.last (y :: l') d).
  congruence.
Qed.

(** A frame whose rows all lie in one bin is one group. *)
Lemma resample_single_bin B l :
  l <> [] -> time_ordered l ->
  Forall (fun t => Data.bin_of (Data.datetime t) = B) l ->
  Data.resample_5T l = [(B, l)].
Proof.
  intros Hne Hord Hbin. unfold Data.resample_5T.
  rewrite (sort_by_time_ordered l Hord).
  destruct l as [|r0 rest]; [done|].
  assert (Hlast : Data.bin_of (Data.datetime (List.last (r0 :: rest) r0)) = B).
  { pose proof (last_default (r0 :: rest) r0) as Hl.
    change (last (r0 :: r0 :: rest)) with (last (r0 :: rest)) in Hl.
    apply last_Some_elem_of in Hl.
    rewrite Forall_forall in Hbin. by apply Hbin. }
  rewrite Hlast.
  assert (Data.bin_of (Data.datetime r0) = B) as ->.
  { by inversion Hbin. }
  rewrite Z.sub_diag. cbn [Z.div Z.to_nat seq fmap list_fmap].
  rewrite Z.mul_0_l, Z.add_0_r. by rewrite filter_all.
Qed.

(** A frame whose newest row lies beyond the bin of all the others has at
    least two groups, the first holding exactly the others. *)
Lemma resample_rollover B W tk :
  W <> [] -> time_ordered (W ++ [tk]) ->
  Forall (fun t => Data.bin_of (Data.datetime t) = B) W ->
  Data.bin_of (Data.datetime tk) <> B ->
  exists g' gs, Data.resample_5T (W ++ [tk]) = (B, W) :: g' :: gs.
Proof.
  intros Hne Hord Hbin Htk. unfold Data.resample_5T.
  rewrite (sort_by_time_ordered _ Hord).
  destruct W as [|r0 W']; [done|]. cbn [app].
  assert (Hlast : List.last (r0 :: W' ++ [tk]) r0 = tk).
  { change (r0 :: W' ++ [tk]) with ((r0 :: W') ++ [tk]). apply List.last_last. }
  rewrite Hlast.
  assert (Hr0 : Data.bin_of (Data.datetime r0) = B) by (by inversion Hbin).
  rewrite Hr0.
  assert (Hlt : B < Data.bin_of (Data.datetime tk)).
  { assert (Data.datetime r0 <= Data.datetime tk).
    { apply (StronglySorted_app_1_elem_of
               (fun a b => Data.datetime a <= Data.datetime b) (r0 :: W') [tk]);
        [exact Hord| |]; apply list_elem_of_here. }
    pose proof (bin_of_mono _ _ H). lia. }
  rewrite <- Hr0 in Hlt. apply bin_of_gap in Hlt. rewrite Hr0 in Hlt.
  destruct (Z.to_nat ((Data.bin_of (Data.datetime tk) - B) / Data.five_minutes))
    as [|m] eqn:Hm; [lia|].
  cbn [seq fmap list_fmap]. eexists _, _. f_equal. f_equal.
  - by rewrite Z.mul_0_l, Z.add_0_r.
  - rewrite Z.mul_0_l, Z.add_0_r.
    change (r0 :: W' ++ [tk]) with ((r0 :: W') ++ [tk]).
    rewrite filter_app, filter_all by exact Hbin.
    rewrite filter_cons_False by done. by rewrite app_nil_r.
Qed.

(** ** The bar of a window *)

Lemma Qmax_cases (a b : Q) : Qmax a b = a \/ Qmax a b = b.
Proof. unfold Qmax, GenericMinMax.gmax. destruct (a ?= b)%Q; auto. Qed.

Lemma Qmin_cases (a b : Q) : Qmin a b = a \/ Qmin a b = b.
Proof. unfold Qmin, GenericMinMax.gmin. destruct (a ?= b)%Q; auto. Qed.

Lemma fold_Qmax_is_max (x : Q) (l : list Q) :
  is_max_of (fold_left Qmax l x) (x :: l).
Proof.
  revert x. induction l as [|y l IH]; intros x; cbn.
  { split; [apply list_elem_of_here|].
    intros p Hp. apply list_elem_of_singleton in Hp as ->. apply Qle_refl. }
  destruct (IH (Qmax x y)) as (Hin & Hle). split.
  - apply elem_of_cons in Hin as [Hin|Hin].
    + rewrite Hin. destruct (Qmax_cases x y) as [-> | ->];
        [apply list_elem_of_here|apply list_elem_of_further, list_elem_of_here].
    + by do 2 apply list_elem_of_further.
  - intros p Hp.
    assert (Hm : (Qmax x y <= fold_left Qmax l (Qmax x y))%Q).
    { apply Hle, list_elem_of_here. }
    apply elem_of_cons in Hp as [->|Hp].
    { eapply Qle_trans; [apply Q.le_max_l|exact Hm]. }
    apply elem_of_cons in Hp as [->|Hp].
    { eapply Qle_trans; [apply Q.le_max_r|exact Hm]. }
    by apply Hle, list_elem_of_further.
Qed.

Lemma fold_Qmin_is_min (x : Q) (l : list Q) :
  is_min_of (fold_left Qmin l x) (x :: l).
Proof.
  revert x. induction l as [|y l IH]; intros x; cbn.
  { split; [apply list_elem_of_here|].
    intros p Hp. apply list_elem_of_singleton in Hp as ->. apply Qle_refl. }
  destruct (IH (Qmin x y)) as (Hin & Hle). split.
  - apply elem_of_cons in Hin as [Hin|Hin].
    + rewrite Hin. destruct (Qmin_cases x y) as [-> | ->];
        [apply list_elem_of_here|apply list_elem_of_further, list_elem_of_here].
    + by do 2 apply list_elem_of_further.
  - intros p Hp.
    assert (Hm : (fold_left Qmin l (Qmin x y) <= Qmin x y)%Q).
    { apply Hle, list_elem_of_here. }
    apply elem_of_cons in Hp as [->|Hp].
    { eapply Qle_trans; [exact Hm|apply Q.le_min_l]. }
    apply elem_of_cons in Hp as [->|Hp].
    { eapply Qle_trans; [exact Hm|apply Q.le_min_r]. }
    by apply Hle, list_elem_of_further.
Qed.

Lemma ohlc_row_summarises L W b :
  Data.ohlc_row (L, W) = Some b -> Data.label b = L /\ summarises b W.
Proof.
  unfold Data.ohlc_row. cbn. destruct W as [|r rest]; [discriminate|].
  intros Hb. inversion Hb; subst b. clear Hb. cbn. split; [reflexivity|].
  exists r, (List.last rest r). cbn.
  split; [reflexivity|]. split; [apply last_default|].
  split; [reflexivity|]. split; [reflexivity|].
  split; [apply fold_Qmax_is_max|apply fold_Qmin_is_min].
Qed.

(** The frame [ohlc] makes of the ticks of one window is one bar. *)
Lemma ohlc_single_bin B W :
  W <> [] -> time_ordered W ->
  Forall (fun t => Data.bin_of (Data.datetime t) = B) W ->
  exists b, Data.ohlc W = [b] /\ Data.label b = B /\ summarises b W.
Proof.
  intros Hne Hord Hbin. unfold Data.ohlc.
  rewrite (resample_single_bin B W Hne Hord Hbin). cbn [omap list_omap].
  destruct (Data.ohlc_row (B, W)) as [b|] eqn:Hb.
  - exists b. split; [reflexivity|]. by apply ohlc_row_summarises.
  - unfold Data.ohlc_row in Hb. cbn in Hb. by destruct W.
Qed.

(** ** Feeding a time-ordered stream *)

Lemma time_ordered_filter (P : Data.Tick -> Prop) `{forall x, Decision (P x)} l :
  time_ordered l -> time_ordered (filter P l).
Proof.
  unfold time_ordered. induction 1 as [|x l _ IH Hx]; [constructor|].
  destruct (decide (P x)).
  - rewrite filter_cons_True by done. constructor; [exact IH|].
    rewrite Forall_forall in Hx. apply Forall_forall. intros y Hy.
    apply list_elem_of_filter in Hy as [_ Hy]. by apply Hx.
  - by rewrite filter_cons_False.
Qed.

Lemma window_of_bin L l :
  Forall (fun t => Data.bin_of (Data.datetime t) = L) (window_of L l).
Proof.
  apply Forall_forall. intros x Hx. by apply list_elem_of_filter in Hx as [? _].
Qed.

Lemma window_of_snoc L l tk :
  window_of L (l ++ [tk]) =
    if decide (Data.bin_of (Data.datetime tk) = L)
    then window_of L l ++ [tk] else window_of L l.
Proof.
  unfold window_of. rewrite filter_app. destruct (decide _).
  - by rewrite filter_cons_True.
  - rewrite filter_cons_False by done. by rewrite app_nil_r.
Qed.

Lemma last_is_latest seen t :
  time_ordered seen -> last seen = Some t ->
  t ∈ seen /\ forall x, x ∈ seen -> Data.datetime x <= Data.datetime t.
Proof.
  intros Hord Hlast. split; [by apply last_Some_elem_of|].
  apply last_Some in Hlast as (l' & ->).
  intros x Hx. apply elem_of_app in Hx as [Hx|Hx].
  - apply (StronglySorted_app_1_elem_of
             (fun a b => Data.datetime a <= Data.datetime b) l' [t]);
      [exact Hord|exact Hx|apply list_elem_of_here].
  - apply list_elem_of_singleton in Hx as ->. lia.
Qed.

(** One more tick of a time-ordered stream either joins the filling frame
    or, if it lies in a later window, turns that frame into a stored bar
    and starts the next one. *)
Lemma feed_ordered seen tk rest f :
  time_ordered (seen ++ [tk]) -> aggregated seen f -> reader f = tk :: rest ->
  feed f =
    match last seen with
    | None => mkFeed rest [tk] (frames f) [tk]
    | Some t =>
        let B := Data.bin_of (Data.datetime t) in
        if decide (Data.bin_of (Data.datetime tk) = B)
        then mkFeed rest [tk] (frames f) (window_of B seen ++ [tk])
        else mkFeed rest [tk] (frames f ++ [Data.ohlc (window_of B seen)]) [tk]
    end.
Proof.
  intros Hord (Hfill & _) Hreader.
  pose proof (StronglySorted_app_1_l _ _ _ Hord) as Hseen.
  unfold feed. rewrite Hreader, Hfill.
  destruct (last seen) as [t|] eqn:Hlast.
  2:{ apply last_None in Hlast. subst seen. cbn [app].
      by rewrite (resample_single_bin (Data.bin_of (Data.datetime tk)) [tk]);
        [|done|exact Hord|by repeat constructor]. }
  destruct (last_is_latest seen t Hseen Hlast) as (Hin & Hlatest).
  cbn zeta. set (B := Data.bin_of (Data.datetime t)) in *.
  assert (HW : window_of B seen <> []).
  { intros Hnil. assert (t ∈ window_of B seen) as Ht.
    { apply list_elem_of_filter. by split. }
    rewrite Hnil in Ht. by apply elem_of_nil in Ht. }
  assert (HordW : time_ordered (window_of B seen ++ [tk])).
  { apply StronglySorted_app_2.
    - intros x y Hx Hy. apply list_elem_of_singleton in Hy as ->.
      apply list_elem_of_filter in Hx as [_ Hx].
      apply (StronglySorted_app_1_elem_of
               (fun a b => Data.datetime a <= Data.datetime b) seen [tk]);
        [exact Hord|exact Hx|apply list_elem_of_here].
    - by apply time_ordered_filter.
    - repeat constructor. }
  destruct (decide (Data.bin_of (Data.datetime tk) = B)) as [Hsame|Hnew].
  - rewrite (resample_single_bin B (window_of B seen ++ [tk])); [done| | |].
    + by destruct (window_of B seen).
    + exact HordW.
    + apply Forall_app. split; [apply window_of_bin|by repeat constructor].
  - by destruct (resample_rollover B (window_of B seen) tk HW HordW
                   (window_of_bin B seen) Hnew) as (g' & gs & ->).
Qed.

Lemma later_bin seen t tk :
  time_ordered (seen ++ [tk]) -> last seen = Some t ->
  Data.bin_of (Data.datetime t) <= Data.bin_of (Data.datetime tk) /\
  forall x, x ∈ seen ->
    Data.bin_of (Data.datetime x) <= Data.bin_of (Data.datetime t).
Proof.
  intros Hord Hlast.
  pose proof (StronglySorted_app_1_l _ _ _ Hord) as Hseen.
  destruct (last_is_latest seen t Hseen Hlast) as (Hin & Hlatest).
  split.
  - apply bin_of_mono.
    apply (StronglySorted_app_1_elem_of
             (fun a b => Data.datetime a <= Data.datetime b) seen [tk]);
      [exact Hord|exact Hin|apply list_elem_of_here].
  - intros x Hx. apply bin_of_mono. by apply Hlatest.
Qed.

Lemma feed_aggregated seen tk rest f :
  time_ordered (seen ++ [tk]) -> aggregated seen f -> reader f = tk :: rest ->
  aggregated (seen ++ [tk]) (feed f).
Proof.
  intros Hord Hagg Hreader.
  rewrite (feed_ordered seen tk rest f Hord Hagg Hreader).
  destruct Hagg as (Hfill & Hframes).
  unfold aggregated. rewrite last_snoc.
  destruct (last seen) as [t|] eqn:Hlast.
  2:{ apply last_None in Hlast. subst seen. cbn. split.
      - by rewrite decide_True.
      - eapply Forall_impl; [exact Hframes|].
        intros frame (L & t & _ & _ & Habs & _). discriminate. }
  destruct (later_bin seen t tk Hord Hlast) as (Hbin & Hbins).
  cbn zeta. set (B := Data.bin_of (Data.datetime t)) in *.
  assert (HW : window_of B seen <> []).
  { intros Hnil. assert (t ∈ window_of B seen) as Ht.
    { apply list_elem_of_filter. split; [done|by apply last_Some_elem_of]. }
    rewrite Hnil in Ht. by apply elem_of_nil in Ht. }
  assert (Hold : Forall (fun frame =>
            exists L t0,
              frame = Data.ohlc (window_of L (seen ++ [tk])) /\
              window_of L (seen ++ [tk]) <> [] /\
              Some tk = Some t0 /\ L < Data.bin_of (Data.datetime t0))
           (frames f)).
  { eapply Forall_impl; [exact Hframes|].
    intros frame (L & t' & Hfr & Hne & Ht' & HL).
    assert (t' = t) as -> by congruence. fold B in HL.
    exists L, tk. rewrite window_of_snoc, decide_False by lia.
    repeat split; try done. lia. }
  destruct (decide (Data.bin_of (Data.datetime tk) = B)) as [Hsame|Hnew]; cbn.
  - split; [|exact Hold].
    by rewrite window_of_snoc, Hsame, decide_True.
  - split.
    + rewrite window_of_snoc, decide_True by done.
      unfold window_of at 1. rewrite filter_none; [done|].
      apply Forall_forall. intros x Hx Habs.
      pose proof (Hbins x Hx). lia.
    + apply Forall_app. split; [exact Hold|].
      apply Forall_singleton. exists B, tk.
      rewrite window_of_snoc, decide_False by done.
      repeat split; try done. lia.
Qed.

Lemma feed_complete seen tk rest f :
  time_ordered (seen ++ [tk]) -> aggregated seen f -> complete seen f ->
  reader f = tk :: rest ->
  complete (seen ++ [tk]) (feed f).
Proof.
  intros Hord Hagg Hcomp Hreader.
  rewrite (feed_ordered seen tk rest f Hord Hagg Hreader).
  intros x tl Hx Htl Hlt. rewrite last_snoc in Htl. inversion Htl; subst tl.
  apply elem_of_app in Hx as [Hx|Hx].
  2:{ apply list_elem_of_singleton in Hx as ->. lia. }
  destruct (last seen) as [t|] eqn:Hlast.
  2:{ apply last_None in Hlast. subst seen. by apply elem_of_nil in Hx. }
  destruct (later_bin seen t tk Hord Hlast) as (Hbin & Hbins).
  pose proof (Hbins x Hx) as Hxt.
  rewrite window_of_snoc, decide_False by lia.
  cbn zeta. destruct (decide _) as [Hsame|Hnew]; cbn.
  - apply (Hcomp x t Hx Hlast). lia.
  - apply elem_of_app.
    destruct (decide (Data.bin_of (Data.datetime x) = Data.bin_of (Data.datetime t)))
      as [Heq|Hne].
    + right. rewrite Heq. apply list_elem_of_here.
    + left. apply (Hcomp x t Hx Hlast). lia.
Qed.

Lemma iter_feed_aggregated ticks m :
  time_ordered ticks ->
  aggregated (take m ticks) (Nat.iter m feed (mkFeed ticks [] [] [])) /\
  complete (take m ticks) (Nat.iter m feed (mkFeed ticks [] [] [])).
Proof.
  intros Hord. induction m as [|m (IH & IHc)].
  { rewrite take_0. split; [split; [reflexivity|constructor]|].
    intros t tl Ht. by apply elem_of_nil in Ht. }
  rewrite Nat.iter_succ.
  pose proof (iter_feed_reader m (mkFeed ticks [] [] [])) as Hreader.
  cbn [reader] in Hreader.
  destruct (ticks !! m) as [tk|] eqn:Hm.
  - rewrite (take_S_r _ _ _ Hm).
    assert (Hord' : time_ordered (take m ticks ++ [tk])).
    { rewrite <- (take_S_r _ _ _ Hm).
      apply (StronglySorted_app_1_l _ (take (S m) ticks) (drop (S m) ticks)).
      by rewrite take_drop. }
    assert (Hr : reader (Nat.iter m feed (mkFeed ticks [] [] []))
                 = tk :: drop (S m) ticks).
    { rewrite Hreader. by apply drop_S. }
    split.
    + by apply (feed_aggregated _ tk (drop (S m) ticks)).
    + by apply (feed_complete _ tk (drop (S m) ticks)).
  - apply lookup_ge_None in Hm.
    rewrite feed_exhausted by (rewrite Hreader; apply drop_ge; lia).
    rewrite take_ge by lia. rewrite take_ge in IH, IHc by lia. by split.
Qed.

(** Every stored frame of a symbol fed from a time-ordered stream is the
    one bar of a window of the stream that a later tick has closed. *)
Lemma frames_summarise ticks m frame :
  time_ordered ticks ->
  frame ∈ frames (Nat.iter m feed (mkFeed ticks [] [] [])) ->
  exists b,
    frame = [b] /\
    (exists t, t ∈ take m ticks /\ Data.label b < Data.bin_of (Data.datetime t)) /\
    summarises b (window_of (Data.label b) ticks).
Proof.
  intros Hord Hframe.
  destruct (iter_feed_aggregated ticks m Hord) as ((_ & Hframes) & _).
  rewrite Forall_forall in Hframes.
  destruct (Hframes frame Hframe) as (L & t & -> & Hne & Hlast & HL).
  assert (Hseen : time_ordered (take m ticks)).
  { apply (StronglySorted_app_1_l _ (take m ticks) (drop m ticks)).
    by rewrite take_drop. }
  destruct (last_is_latest _ t Hseen Hlast) as (Hin & _).
  destruct (ohlc_single_bin L (window_of L (take m ticks)) Hne)
    as (b & Hb & Hlabel & Hsum).
  { by apply time_ordered_filter. }
  { apply window_of_bin. }
  exists b. split; [exact Hb|]. rewrite Hlabel. split; [by exists t|].
  assert (window_of L ticks = window_of L (take m ticks)) as ->; [|exact Hsum].
  rewrite <- (take_drop m ticks) at 1. unfold window_of.
  rewrite filter_app, (filter_none _ (drop m ticks)); [by rewrite app_nil_r|].
  apply Forall_forall. intros x Hx Habs.
  assert (Data.datetime t <= Data.datetime x).
  { apply (StronglySorted_app_1_elem_of
             (fun a b => Data.datetime a <= Data.datetime b)
             (take m ticks) (drop m ticks)); [|exact Hin|exact Hx].
    by rewrite take_drop. }
  pose proof (bin_of_mono _ _ H). lia.
Qed.

(** Conversely every window of the ticks read so far that a later tick
    has closed has its bar stored. *)
Lemma frames_complete ticks m t t' :
  time_ordered ticks ->
  t ∈ take m ticks -> t' ∈ take m ticks ->
  Data.bin_of (Data.datetime t) < Data.bin_of (Data.datetime t') ->
  exists b,
    [b] ∈ frames (Nat.iter m feed (mkFeed ticks [] [] [])) /\
    Data.label b = Data.bin_of (Data.datetime t).
Proof.
  intros Hord Ht Ht' Hlt.
  destruct (iter_feed_aggregated ticks m Hord) as (_ & Hcomp).
  assert (Hseen : time_ordered (take m ticks)).
  { apply (StronglySorted_app_1_l _ (take m ticks) (drop m ticks)).
    by rewrite take_drop. }
  destruct (last (take m ticks)) as [tl|] eqn:Hlast.
  2:{ apply last_None in Hlast. rewrite Hlast in Ht. by apply elem_of_nil in Ht. }
  destruct (last_is_latest _ tl Hseen Hlast) as (_ & Hlatest).
  pose proof (bin_of_mono _ _ (Hlatest t' Ht')) as Hle.
  pose proof (Hcomp t tl Ht Hlast ltac:(lia)) as Hin.
  destruct (ohlc_single_bin (Data.bin_of (Data.datetime t))
              (window_of (Data.bin_of (Data.datetime t)) (take m ticks)))
    as (b & Hb & Hlabel & _).
  { intros Hnil.
    assert (t ∈ window_of (Data.bin_of (Data.datetime t)) (take m ticks)) as Hw.
    { apply list_elem_of_filter. by split. }
    rewrite Hnil in Hw. by apply elem_of_nil in Hw. }
  { by apply time_ordered_filter. }
  { apply window_of_bin. }
  exists b. rewrite <- Hb. by split.
Qed.

Section Aggregation.
Context `{TzDatabase}.

(** Along a run a symbol is fed once per listing at every call of
    [update_ticks], and [calculate_signals] leaves the handler alone. *)
Lemma run_views acts sys sys' :
  system_ok sys -> run acts sys = Ok sys' ->
  Data.symbol_list (handler sys') = Data.symbol_list (handler sys) /\
  forall s f, view (handler sys) s = Some f ->
    view (handler sys') s
      = Some (Nat.iter (updates acts * occurrences s (Data.symbol_list (handler sys)))
                feed f).
Proof.
  revert sys. induction acts as [|a acts IH]; intros sys Hok Hrun.
  { inversion Hrun; subst. by split. }
  unfold run in Hrun. cbn [for_each] in Hrun. inv_bind Hrun as sys1 Hact.
  pose proof (act_ok _ _ _ Hok Hact) as Hok1.
  destruct (IH sys1 Hok1 Hrun) as (Hlist & Hviews).
  destruct a as [|cur_date event]; cbn [act] in Hact.
  - destruct (update_ticks_ok (handler sys) (queue sys) (ok_handler _ Hok))
      as (h1 & Hup & _ & Hlist1 & Hviews1 & _).
    rewrite Hup in Hact. cbn in Hact. inversion Hact; subst sys1. cbn in *.
    split; [congruence|]. intros s f Hf.
    rewrite (Hviews s _ (Hviews1 s f Hf)), Hlist1. f_equal.
    rewrite <- Nat.iter_add. f_equal. unfold Nat.iter. f_equal. lia.
  - inv_bind Hact as state Hsig. destruct state as [st' q'].
    inversion Hact; subst sys1. cbn in *. split; [exact Hlist|exact Hviews].
Qed.

(** C7.  In a run on a time-ordered tick stream of a symbol, every bar
    stored for the symbol is the bar of an aggregation window that a tick
    of a later window, already read, has closed (so neither the window
    still filling nor, before a second window begins, the first one has a
    bar), and it carries the first price as open, the highest as high, the
    lowest as low and the last as close of all the ticks of the stream
    that fall into its window.  Conversely every window that a tick read
    so far has closed has its bar. *)
Theorem bars_summarise_windows csv_dir symbol_list cfg acts sys s ticks :
  boot csv_dir symbol_list cfg ≫= run acts = Ok sys ->
  s ∈ symbol_list ->
  csv_dir !! (s +:+ ".csv") = Some ticks ->
  time_ordered ticks ->
  exists fs,
    Data.latest_bars_data (handler sys) !! s = Some fs /\
    (forall frame, frame ∈ fs ->
       exists b,
         frame = [b] /\
         (exists t,
            t ∈ take (updates acts * occurrences s symbol_list) ticks /\
            Data.label b < Data.bin_of (Data.datetime t)) /\
         summarises b (window_of (Data.label b) ticks)) /\
    (forall t t',
       t ∈ take (updates acts * occurrences s symbol_list) ticks ->
       t' ∈ take (updates acts * occurrences s symbol_list) ticks ->
       Data.bin_of (Data.datetime t) < Data.bin_of (Data.datetime t') ->
       exists b, [b] ∈ fs /\ Data.label b = Data.bin_of (Data.datetime t)).
Proof.
  intros Hrun Hs Hfile Hord. inv_bind Hrun as sys0 Hboot.
  pose proof (boot_ok _ _ _ _ Hboot) as Hok0.
  unfold boot in Hboot. inv_bind Hboot as h0 Hh0. inv_bind Hboot as st0 Hst0.
  inversion Hboot; subst sys0. clear Hboot.
  destruct (handler_init_ok _ _ _ Hh0) as (_ & Hlist0 & _ & Hviews0).
  destruct (Hviews0 s Hs) as (records & Hrec & Hview0).
  assert (records = ticks) as -> by congruence.
  destruct (run_views _ _ _ Hok0 Hrun) as (_ & Hviews).
  cbn [handler] in Hviews. rewrite Hlist0 in Hviews.
  pose proof (Hviews s _ Hview0) as Hview.
  apply view_Some in Hview as (_ & _ & Hfs & _).
  eexists. split; [exact Hfs|]. split.
  - intros frame Hframe. by apply frames_summarise.
  - intros t t' Ht Ht' Hlt. by apply (frames_complete ticks _ t t').
Qed.

End Aggregation.

(** * Concrete instances *)

Section Instances.
#[local] Existing Instance fixed_offsets.

Ltac reach csv_dir cfg acts :=
  exists csv_dir, ["EURUSD"], cfg, acts; vm_compute; reflexivity.

Lemma sys_B_reachable : reachable sys_B.
Proof. reach (directory stream_B) settings_2_3_5 acts_B. Defined.


Lemma sys_A_reachable : reachable sys_A.
Proof. reach (directory stream_A) settings_2_3_5 acts_B. Defined.

Lemma sys_C_reachable : reachable sys_C.
Proof. reach (directory stream_C) settings_2_3_5 acts_C. Defined.




(** C1, on scenario C: the entry iteration takes the symbol from OUT to
    LONG and puts the LONG signal. *)
Lemma phase_transitions_witness :
  (exists put,
     [Strategy.signal 0 "EURUSD" Direction.LONG] = [] ++ put /\
     if decide ("EURUSD" = "EURUSD")
     then moves 0 "EURUSD" (Some Phase.OUT) (Some Phase.LONG) put
     else Some Phase.LONG = Some Phase.OUT) /\
  ~ (Some Phase.OUT = Some Phase.LONG /\ Some Phase.LONG = Some Phase.SHORT) /\
  ~ (Some Phase.OUT = Some Phase.SHORT /\ Some Phase.LONG = Some Phase.LONG).
Proof.
  apply (phase_transitions "EURUSD"
           [(handler sys_C0, 0, "EURUSD"); (handler sys_C, 0, "EURUSD")]
           (strategy sys_C0, []) 0%nat (handler sys_C0) 0 "EURUSD").
  - reflexivity.
  - vm_compute. reflexivity.
  - vm_compute. reflexivity.
Defined.


(** Scenario B itself: one LONG signal, phase LONG, the three anchors at
    1.0005. *)
Example scenario_B :
  exists st',
    Strategy.calculate_signals_for (handler sys_B) 0 "EURUSD"
      (strategy sys_B, queue sys_B)
    = Ok (st', queue sys_B ++ [Strategy.signal 0 "EURUSD" Direction.LONG]) /\
    Strategy.bought st' !! "EURUSD" = Some Phase.LONG /\
    Strategy.omm_price st' !! "EURUSD"
      = Some [10005 # 10000; 10005 # 10000; 10005 # 10000]%Q.
Proof. eexists. split; [vm_compute; reflexivity|]. split; vm_compute; reflexivity. Qed.



(** Scenario C itself: entered at 1.0000 with a take-profit of 0.0010, the
    tick at 1.0010 puts one EXIT and resets the phase and the anchors. *)
Example scenario_C :
  Strategy.bought (strategy sys_C) !! "EURUSD" = Some Phase.LONG /\
  Strategy.omm_price (strategy sys_C) !! "EURUSD" = Some [1; 1; 1]%Q /\
  Strategy.tp (strategy sys_C) = (10 * (1 # 10000))%Q /\
  Data.get_latest_tick_value (handler sys_C) "EURUSD" "tick" = Ok (10010 # 10000)%Q /\
  exists st',
    Strategy.calculate_signals_for (handler sys_C) 0 "EURUSD"
      (strategy sys_C, queue sys_C)
    = Ok (st', queue sys_C ++ [Strategy.signal 0 "EURUSD" Direction.EXIT]) /\
    Strategy.bought st' !! "EURUSD" = Some Phase.OUT /\
    Strategy.omm_price st' !! "EURUSD" = Some [0; 0; 0]%Q.
Proof.
  do 4 (split; [vm_compute; reflexivity|]).
  eexists. split; [vm_compute; reflexivity|]. split; vm_compute; reflexivity.
Qed.

(** C4, on the run whose latest tick (1.0070) differs from the close of
    the last bar (1.0005). *)
Lemma prices_used_witness :
  reads (handler sys_X) (strategy sys_X) "EURUSD" reading_X /\
  averages (strategy sys_X) closes = Ok closes_averages /\
  last_bar_price closes_averages = (10005 # 10000)%Q /\
  forall st' d,
    d = Direction.LONG \/ d = Direction.SHORT ->
    Strategy.calculate_signals_for (handler sys_X) 0 "EURUSD"
      (strategy sys_X, queue sys_X)
      = Ok (st', queue sys_X ++ [Strategy.signal 0 "EURUSD" d]) ->
    Strategy.omm_price st' !! "EURUSD"
      = Some [10070 # 10000; 10070 # 10000; 10070 # 10000]%Q /\
    (~ (10070 # 10000 == last_bar_price closes_averages)%Q ->
     exists po mx mn,
       Strategy.omm_price st' !! "EURUSD" = Some [po; mx; mn] /\
       ~ (po == last_bar_price closes_averages)%Q).
Proof.
  assert (Hr : reads (handler sys_X) (strategy sys_X) "EURUSD" reading_X).
  { unfold reads. repeat split; vm_compute; reflexivity. }
  assert (Ha : averages (strategy sys_X) closes = Ok closes_averages)
    by (vm_compute; reflexivity).
  split; [exact Hr|]. split; [exact Ha|]. split; [vm_compute; reflexivity|].
  apply (prices_used (handler sys_X) (strategy sys_X) "EURUSD" 0 (queue sys_X)
           reading_X closes_averages Hr); [vm_compute; reflexivity|exact Ha].
Defined.

(** C5 as stated fails: with [long_window = 5] the history of scenario C
    holds 21 bars, more than 4 * 5. *)
Lemma history_exceeds_capacity :
  ~ (forall sys s fs,
       reachable sys ->
       Data.latest_bars_data (handler sys) !! s = Some fs ->
       Z.of_nat (length fs) <= 4 * Strategy.long_window (strategy sys)).
Proof.
  intros Hclaim.
  destruct (Data.latest_bars_data (handler sys_C) !! "EURUSD") as [fs|] eqn:Hfs.
  - pose proof (Hclaim sys_C "EURUSD" fs sys_C_reachable Hfs) as Hle.
    vm_compute in Hfs. inversion Hfs; subst fs.
    vm_compute in Hle. by apply Hle.
  - vm_compute in Hfs. discriminate.
Qed.

(** C5 (as amended), on scenario C. *)
Lemma history_is_append_only_witness :
  (exists h' new,
     Data.update_ticks (handler sys_C) (queue sys_C)
       = Ok (h', queue sys_C ++ [MarketEvent]) /\
     Data.latest_bars_data h' !! "EURUSD" = Some (history_of sys_C "EURUSD" ++ new) /\
     (length new <= occurrences "EURUSD" (Data.symbol_list (handler sys_C)))%nat) /\
  (1 <= Strategy.long_window (strategy sys_C) ->
   exists window,
     Data.get_latest_bars (handler sys_C) "EURUSD"
       (Strategy.use_window (strategy sys_C)) = Ok window /\
     window `suffix_of` history_of sys_C "EURUSD" /\
     Z.of_nat (length window)
       = Z.min (4 * Strategy.long_window (strategy sys_C))
               (Z.of_nat (length (history_of sys_C "EURUSD")))).
Proof.
  apply (history_is_append_only sys_C "EURUSD" (history_of sys_C "EURUSD")
           sys_C_reachable).
  vm_compute. reflexivity.
Defined.

(** C6 as stated fails: with [short_window = 21 >= mid_window = 10] the
    constructor returns a strategy. *)
Lemma misconfiguration_is_accepted :
  ~ (forall bars short_window mid_window long_window
            min_diff min_deep plus sl tp ts_step,
       mid_window <= short_window ->
       exists e,
         Strategy.__init__ bars short_window mid_window long_window
           min_diff min_deep plus sl tp ts_step = Raise e).
Proof.
  intros Hclaim.
  destruct (Hclaim (handler sys_B) 21 10 50 1%Q 0%Q 0%Q 5%Q 10%Q 5%Q) as (e & He);
    [lia|].
  discriminate.
Qed.

(** ... and the run goes on: two steps are performed under it. *)
Example misconfigured_run :
  exists sys,
    boot (directory stream_B) ["EURUSD"] (mkSettings 21 10 50 1 0 0 5 10 5)
      ≫= run (steps 2) = Ok sys /\
    Strategy.short_window (strategy sys) = 21 /\
    Strategy.mid_window (strategy sys) = 10 /\
    queue sys = [MarketEvent; MarketEvent].
Proof. eexists. split; [vm_compute; reflexivity|]. by vm_compute. Qed.

Lemma stream_ordered start prices : time_ordered (stream start prices).
Proof.
  unfold stream.
  assert (Hgen : forall (g : nat -> Z) l,
    (forall i j, (i <= j)%nat -> g i <= g j) ->
    time_ordered (imap (fun i p => Data.mkTick (g i) p) l)).
  { intros g l. revert g. induction l as [|p l IH]; intros g Hg; [constructor|].
    cbn. constructor.
    - apply (IH (fun i => g (S i))). intros i j Hij. apply Hg. lia.
    - apply Forall_forall. intros t Ht.
      apply elem_of_lookup_imap in Ht as (i & q & -> & _). cbn. apply Hg. lia. }
  apply (Hgen (fun i => start + Z.of_nat i * (5 * minute))).
  intros i j Hij. unfold minute. nia.
Qed.

(** Four ticks of one window and the tick that closes it: the bar stored
    is (open 3, high 5, low 1, close 4), and the closing tick starts the
    next frame. *)
Example bar_of_four_ticks :
  exists sys,
    boot (directory [Data.mkTick (10 * hour) 3;
                     Data.mkTick (10 * hour + 1 * minute) 5;
                     Data.mkTick (10 * hour + 2 * minute) 1;
                     Data.mkTick (10 * hour + 4 * minute) 4;
                     Data.mkTick (10 * hour + 5 * minute) 2])
      ["EURUSD"] default_settings ≫= run (steps 5) = Ok sys /\
    Data.latest_bars_data (handler sys) !! "EURUSD"
      = Some [[Data.mkBar (10 * hour) 3 5 1 4]] /\
    Data.current_bar (handler sys) !! "EURUSD"
      = Some [Data.mkTick (10 * hour + 5 * minute) 2] /\
    queue sys = replicate 5 MarketEvent.
Proof.
  eexists. split; [vm_compute; reflexivity|]. repeat split; vm_compute; reflexivity.
Qed.

(** The slice [l[-N:]] of [get_latest_bars]: the last [N] elements, all
    of [l] when [N] is 0 or exceeds its length. *)
Example slice_from_examples :
  slice_from (- 2) [1; 2; 3] = [2; 3] /\
  slice_from (- 5) [1; 2; 3] = [1; 2; 3] /\
  slice_from (- 0) [1; 2; 3] = [1; 2; 3].
Proof. repeat split; reflexivity. Qed.

(** C7, on scenario C. *)
Lemma bars_summarise_windows_witness :
  exists fs,
    Data.latest_bars_data (handler sys_C) !! "EURUSD" = Some fs /\
    (forall frame, frame ∈ fs ->
       exists b,
         frame = [b] /\
         (exists t,
            t ∈ take (updates acts_C * occurrences "EURUSD" ["EURUSD"]) stream_C /\
            Data.label b < Data.bin_of (Data.datetime t)) /\
         summarises b (window_of (Data.label b) stream_C)) /\
    (forall t t',
       t ∈ take (updates acts_C * occurrences "EURUSD" ["EURUSD"]) stream_C ->
       t' ∈ take (updates acts_C * occurrences "EURUSD" ["EURUSD"]) stream_C ->
       Data.bin_of (Data.datetime t) < Data.bin_of (Data.datetime t') ->
       exists b, [b] ∈ fs /\ Data.label b = Data.bin_of (Data.datetime t)).
Proof.
  apply (bars_summarise_windows (directory stream_C) ["EURUSD"] settings_2_3_5
           acts_C sys_C "EURUSD" stream_C).
  - vm_compute. reflexivity.
  - apply list_elem_of_here.
  - vm_compute. reflexivity.
  - apply stream_ordered.
Defined.

(** C8, on scenario A. *)
Lemma closed_gate_blocks_entries_witness :
  (queue sys_A = queue sys_A \/
   queue sys_A = queue sys_A ++ [Strategy.signal 0 "EURUSD" Direction.EXIT]) /\
  (Strategy.bought (strategy sys_A) !! "EURUSD" = Some Phase.OUT ->
   queue sys_A = queue sys_A /\
   Strategy.bought (strategy sys_A) !! "EURUSD" = Some Phase.OUT).
Proof.
  apply (closed_gate_blocks_entries sys_A "EURUSD" 0 (7 * hour)
           (strategy sys_A) (queue sys_A) sys_A_reachable).
  - vm_compute. reflexivity.
  - left. vm_compute. reflexivity.
  - vm_compute. reflexivity.
Defined.

(** Scenario A itself: the London hour is 7, the symbol is OUT and the
    averages and the last close satisfy the LONG rule, yet the iteration
    puts nothing and the symbol stays OUT. *)
Example scenario_A :
  Data.get_latest_tick_datetime (handler sys_A) "EURUSD" = Ok (7 * hour) /\
  astimezone_hour "Europe/London" (7 * hour) = 7 /\
  Strategy.bought (strategy sys_A) !! "EURUSD" = Some Phase.OUT /\
  Data.get_latest_bars_values (handler sys_A) "EURUSD" "close"
    (Strategy.use_window (strategy sys_A)) = Ok closes /\
  averages (strategy sys_A) closes = Ok closes_averages /\
  long_entry_rule (strategy sys_A) (last_bar_price closes_averages)
    (short_ema closes_averages) (mid_ema closes_averages)
    (long_ema closes_averages) /\
  Strategy.calculate_signals_for (handler sys_A) 0 "EURUSD"
    (strategy sys_A, queue sys_A) = Ok (strategy sys_A, queue sys_A).
Proof.
  do 5 (split; [vm_compute; reflexivity|]). split; [|vm_compute; reflexivity].
  unfold long_entry_rule. repeat split; vm_compute; congruence.
Qed.

(** The averages of the twenty closes are those of scenario B. *)
Example closes_averages_values :
  (last_bar_price closes_averages == 10005 # 10000)%Q /\
  (short_ema closes_averages == 10010 # 10000)%Q /\
  (mid_ema closes_averages == 1)%Q /\
  (long_ema closes_averages == 9990 # 10000)%Q.
Proof. repeat split; vm_compute; reflexivity. Qed.


Example empty_file_raises :
  Data.continue_backtest (handler sys_E) = false /\
  Strategy.calculate_signals_for (handler sys_E) 0 "EURUSD"
    (strategy sys_E, queue sys_E) = Raise IndexError.
Proof. split; vm_compute; reflexivity. Qed.



(** In that run the exhausted first symbol clears the flag while the
    second symbol still receives its next tick. *)
Example exhaustion_of_one_symbol :
  Data.continue_backtest (handler sys_two) = true /\
  exists h',
    Data.update_ticks (handler sys_two) (queue sys_two)
      = Ok (h', [MarketEvent; MarketEvent]) /\
    Data.continue_backtest h' = false /\
    Data.latest_symbol_data h' !! "GBPUSD"
      = Some [Data.mkTick (10 * hour + 5 * minute) (14 # 10)].
Proof.
  split; [vm_compute; reflexivity|]. eexists.
  split; [vm_compute; reflexivity|]. split; vm_compute; reflexivity.
Qed.

End Instances.

(** * Further properties

    Properties of the two classes beyond those the specification states:
    the construction and the getters of the handler, the flag and the
    histories along whole runs, the SHORT side of the strategy, its
    anchors, its calls as a whole and its behaviour under degenerate
    settings. *)

(** ** Induction along runs *)

Section RunInvariants.
Context `{TzDatabase}.

(** Induction along runs: a property of systems that both kinds of step
    keep holds in every state a run passes through. *)
Lemma run_invariant (P : System -> Prop) :
  (forall sys h' q',
     system_ok sys -> P sys ->
     Data.update_ticks (handler sys) (queue sys) = Ok (h', q') ->
     P (mkSystem h' (strategy sys) q')) ->
  (forall sys s cur_date st' q',
     system_ok sys -> P sys -> s ∈ Strategy.symbol_list (strategy sys) ->
     Strategy.calculate_signals_for (handler sys) cur_date s
       (strategy sys, queue sys) = Ok (st', q') ->
     P (mkSystem (handler sys) st' q')) ->
  forall acts sys sys',
    system_ok sys -> P sys -> run acts sys = Ok sys' -> P sys'.
Proof.
  intros Hupd Hcalc acts sys sys' Hok HP Hrun.
  enough (system_ok sys' /\ P sys') as [_ ?]; [done|].
  revert Hrun. unfold run.
  apply (for_each_invariant (fun sys => system_ok sys /\ P sys)); [|done].
  clear sys sys' Hok HP. intros a sys sys' _ [Hok HP] Hact.
  split; [by eapply act_ok|].
  destruct a as [|cur_date event]; cbn in Hact.
  - inv_bind Hact as x Hx. destruct x as [h' q'].
    inversion Hact; subst sys'. by eapply Hupd.
  - inv_bind Hact as state Hrun. destruct state as [st' q'].
    inversion Hact; subst sys'. clear Hact.
    unfold Strategy.calculate_signals in Hrun.
    destruct (event_type event).
    2:{ inversion Hrun; subst. by destruct sys. }
    enough (system_ok (mkSystem (handler sys) st' q') /\
            P (mkSystem (handler sys) st' q') /\
            Strategy.symbol_list st' = Strategy.symbol_list (strategy sys))
      as (_ & ? & _); [done|].
    revert Hrun.
    apply (for_each_invariant
      (fun state => system_ok (mkSystem (handler sys) state.1 state.2) /\
                    P (mkSystem (handler sys) state.1 state.2) /\
                    Strategy.symbol_list state.1
                      = Strategy.symbol_list (strategy sys))).
    + intros s [st1 q1] [st2 q2] Hs (Hok1 & HP1 & Hl1) Hstep. cbn [fst snd] in *.
      assert (Hs1 : s ∈ Strategy.symbol_list st1) by (by rewrite Hl1).
      split; [|split].
      * eapply calculate_signals_for_ok; [exact Hok1|exact Hs1|exact Hstep].
      * by apply (Hcalc (mkSystem (handler sys) st1 q1) s cur_date st2 q2).
      * pose proof (calculate_signals_for_settings _ _ _ _ _ _ _ Hok1 Hs1 Hstep)
          as (Hl2 & _).
        congruence.
    + cbn. split; [by destruct sys|]. split; [by destruct sys|reflexivity].
Qed.

(** ... and so in every state of a run, if it holds after construction. *)
Lemma reachable_invariant (P : System -> Prop) :
  (forall csv_dir symbol_list cfg sys,
     boot csv_dir symbol_list cfg = Ok sys -> P sys) ->
  (forall sys h' q',
     system_ok sys -> P sys ->
     Data.update_ticks (handler sys) (queue sys) = Ok (h', q') ->
     P (mkSystem h' (strategy sys) q')) ->
  (forall sys s cur_date st' q',
     system_ok sys -> P sys -> s ∈ Strategy.symbol_list (strategy sys) ->
     Strategy.calculate_signals_for (handler sys) cur_date s
       (strategy sys, queue sys) = Ok (st', q') ->
     P (mkSystem (handler sys) st' q')) ->
  forall sys, reachable sys -> P sys.
Proof.
  intros Hboot Hupd Hcalc sys (csv_dir & symbol_list & cfg & acts & Hrun).
  inv_bind Hrun as sys0 Hsys0.
  eapply (run_invariant P Hupd Hcalc acts sys0 sys); [|by eapply Hboot|exact Hrun].
  by eapply boot_ok.
Qed.

End RunInvariants.

Lemma boot_strategy csv_dir symbol_list cfg sys :
  boot csv_dir symbol_list cfg = Ok sys ->
  queue sys = [] /\
  Data.__init__ csv_dir symbol_list = Ok (handler sys) /\
  Strategy.__init__ (handler sys) (arg_short_window cfg) (arg_mid_window cfg)
    (arg_long_window cfg) (arg_min_diff cfg) (arg_min_deep cfg) (arg_plus cfg)
    (arg_sl cfg) (arg_tp cfg) (arg_ts_step cfg) = Ok (strategy sys).
Proof.
  intros Hboot. unfold boot in Hboot.
  inv_bind Hboot as bars Hbars. inv_bind Hboot as st Hst.
  inversion Hboot; subst sys. done.
Qed.

Lemma same_settings_refl st : same_settings st st.
Proof. unfold same_settings. done. Qed.

Section RunSettings.
Context `{TzDatabase}.

(** No step of a run changes the settings of the strategy or the symbol
    list of the handler. *)
Lemma run_settings acts sys sys' :
  system_ok sys -> run acts sys = Ok sys' ->
  same_settings (strategy sys) (strategy sys') /\
  Data.symbol_list (handler sys') = Data.symbol_list (handler sys).
Proof.
  intros Hok Hrun. split; [|by apply (run_views acts sys sys' Hok Hrun)].
  revert Hrun.
  apply (run_invariant (fun sys' => same_settings (strategy sys) (strategy sys')));
    [| |exact Hok|apply same_settings_refl].
  - intros sys1 h' q' _ HP _. exact HP.
  - intros sys1 s cur_date st' q' Hok1 HP Hs Hstep. cbn.
    eapply same_settings_trans; [exact HP|].
    destruct sys1 as [h1 st1 q1].
    by eapply calculate_signals_for_settings.
Qed.

Lemma reachable_run sys acts sys' :
  reachable sys -> run acts sys = Ok sys' -> reachable sys'.
Proof.
  intros (csv_dir & symbol_list & cfg & acts0 & Hrun0) Hrun.
  exists csv_dir, symbol_list, cfg, (acts0 ++ acts).
  inv_bind Hrun0 as sys0 Hboot. rewrite Hboot. cbn [mbind result_bind].
  unfold run in *. by rewrite for_each_app, Hrun0.
Qed.

End RunSettings.

(** ** Construction of the handler *)

Lemma open_convert_csv_files_raise csv_dir l h e :
  for_each (Data.open_convert_csv_file csv_dir) l h = Raise e ->
  e = FileNotFoundError /\ exists s, s ∈ l /\ csv_dir !! (s +:+ ".csv") = None.
Proof.
  revert h. induction l as [|x l IH]; intros h Hrun; cbn in Hrun; [discriminate|].
  destruct (Data.open_convert_csv_file csv_dir x h) as [h1|e1] eqn:Hstep;
    cbn [mbind result_bind] in Hrun.
  - destruct (IH _ Hrun) as (-> & s & Hs & Hmiss).
    split; [done|]. exists s. split; [by apply list_elem_of_further|done].
  - unfold Data.open_convert_csv_file in Hstep.
    destruct (csv_dir !! (x +:+ ".csv")) as [records|] eqn:Hfile; [discriminate|].
    inversion Hstep; subst e1. inversion Hrun. split; [done|].
    exists x. split; [apply list_elem_of_here|done].
Qed.

(** X1.  [HistoricCSVDataHandler.__init__] either raises
    [FileNotFoundError], exactly when the file of some listed symbol is
    missing from the directory, or returns a handler with the given symbol
    list and [continue_backtest] set in which every listed symbol has the
    records of its file as reader and an empty latest tick, history and
    filling frame, and no other symbol has any entry. *)
Theorem handler_construction csv_dir symbol_list :
  match Data.__init__ csv_dir symbol_list with
  | Ok h =>
      Data.symbol_list h = symbol_list /\
      Data.continue_backtest h = true /\
      (forall s, s ∈ symbol_list ->
         exists records,
           csv_dir !! (s +:+ ".csv") = Some records /\
           view h s = Some (mkFeed records [] [] [])) /\
      (forall s, s ∉ symbol_list -> absent h s)
  | Raise e =>
      e = FileNotFoundError /\
      exists s, s ∈ symbol_list /\ csv_dir !! (s +:+ ".csv") = None
  end.
Proof.
  destruct (Data.__init__ csv_dir symbol_list) as [h|e] eqn:Hinit.
  - destruct (handler_init_ok _ _ _ Hinit) as (_ & Hlist & Hflag & Hin).
    do 3 (split; [done|]).
    unfold Data.__init__, Data._open_convert_csv_files in Hinit. cbn in Hinit.
    destruct (open_convert_csv_files_loop _ _ _ _ Hinit) as (_ & _ & _ & Hout).
    intros s Hs. destruct (Hout s Hs) as (H1 & H2 & H3 & H4). cbn in *.
    unfold absent. by rewrite H1, H2, H3, H4, !lookup_empty.
  - unfold Data.__init__, Data._open_convert_csv_files in Hinit. cbn in Hinit.
    by apply open_convert_csv_files_raise in Hinit.
Qed.

(** ** Symbols that are not listed *)

Lemma update_tick_frame s h h' s0 :
  Data.update_tick s h = Ok h' -> s0 <> s ->
  Data.symbol_list h' = Data.symbol_list h /\
  Data.symbol_data h' !! s0 = Data.symbol_data h !! s0 /\
  Data.latest_symbol_data h' !! s0 = Data.latest_symbol_data h !! s0 /\
  Data.latest_bars_data h' !! s0 = Data.latest_bars_data h !! s0 /\
  Data.current_bar h' !! s0 = Data.current_bar h !! s0.
Proof.
  intros Hrun Hne. unfold Data.update_tick in Hrun. cbn in Hrun.
  inv_bind Hrun as rd Hrd. destruct rd as [|tk rest].
  { inversion Hrun; subst h'. cbn. done. }
  cbn in Hrun. inv_bind Hrun as cur Hcur.
  destruct (decide _).
  - inv_bind Hrun as g Hg. inv_bind Hrun as bars Hbars.
    inv_bind Hrun as newest Hnewest. inversion Hrun; subst h'. cbn.
    by rewrite !lookup_insert_ne.
  - inversion Hrun; subst h'. cbn. by rewrite !lookup_insert_ne.
Qed.

Lemma update_tick_symbol_list s h h' :
  Data.update_tick s h = Ok h' -> Data.symbol_list h' = Data.symbol_list h.
Proof.
  intros Hrun. unfold Data.update_tick in Hrun. cbn in Hrun.
  inv_bind Hrun as rd Hrd. destruct rd as [|tk rest].
  { by inversion Hrun; subst h'. }
  cbn in Hrun. inv_bind Hrun as cur Hcur.
  destruct (decide _).
  - inv_bind Hrun as g Hg. inv_bind Hrun as bars Hbars.
    inv_bind Hrun as newest Hnewest. by inversion Hrun; subst h'.
  - by inversion Hrun; subst h'.
Qed.

Lemma update_ticks_symbol_list l h h' :
  for_each Data.update_tick l h = Ok h' -> Data.symbol_list h' = Data.symbol_list h.
Proof.
  revert h. induction l as [|x l IH]; intros h Hrun; cbn in Hrun.
  { by inversion Hrun. }
  inv_bind Hrun as h1 Hstep. apply update_tick_symbol_list in Hstep.
  rewrite (IH _ Hrun). exact Hstep.
Qed.

Lemma update_ticks_frame l h h' s0 :
  for_each Data.update_tick l h = Ok h' -> s0 ∉ l ->
  Data.symbol_list h' = Data.symbol_list h /\
  Data.symbol_data h' !! s0 = Data.symbol_data h !! s0 /\
  Data.latest_symbol_data h' !! s0 = Data.latest_symbol_data h !! s0 /\
  Data.latest_bars_data h' !! s0 = Data.latest_bars_data h !! s0 /\
  Data.current_bar h' !! s0 = Data.current_bar h !! s0.
Proof.
  revert h. induction l as [|x l IH]; intros h Hrun Hs0; cbn in Hrun.
  { by inversion Hrun. }
  inv_bind Hrun as h1 Hstep. apply not_elem_of_cons in Hs0 as [Hne Hs0].
  destruct (update_tick_frame _ _ _ s0 Hstep Hne) as (E0 & E1 & E2 & E3 & E4).
  destruct (IH _ Hrun Hs0) as (F0 & F1 & F2 & F3 & F4).
  repeat split; congruence.
Qed.

Section Unlisted.
Context `{TzDatabase}.

Lemma reachable_absent sys s :
  reachable sys -> s ∉ Data.symbol_list (handler sys) -> absent (handler sys) s.
Proof.
  intros Hreach. revert s. revert sys Hreach.
  apply (reachable_invariant
           (fun sys => forall s, s ∉ Data.symbol_list (handler sys) ->
                                 absent (handler sys) s)).
  - intros csv_dir symbol_list cfg sys Hboot s Hs.
    apply boot_strategy in Hboot as (_ & Hh & _).
    destruct (handler_init_ok _ _ _ Hh) as (_ & Hlist & _).
    unfold Data.__init__, Data._open_convert_csv_files in Hh. cbn in Hh.
    destruct (open_convert_csv_files_loop _ _ _ _ Hh) as (_ & _ & _ & Hout).
    rewrite Hlist in Hs. destruct (Hout s Hs) as (H1 & H2 & H3 & H4). cbn in *.
    unfold absent. by rewrite H1, H2, H3, H4, !lookup_empty.
  - intros sys h' q' _ HP Hupd s Hs. cbn in *.
    unfold Data.update_ticks in Hupd. inv_bind Hupd as h1 Hloop.
    inversion Hupd; subst h' q'.
    rewrite (update_ticks_symbol_list _ _ _ Hloop) in Hs.
    destruct (update_ticks_frame _ _ _ s Hloop Hs) as (_ & E1 & E2 & E3 & E4).
    destruct (HP s Hs) as (A1 & A2 & A3 & A4).
    unfold absent. by rewrite E1, E2, E3, E4.
  - intros sys s0 cur_date st' q' _ HP _ _. exact HP.
Qed.

(** X2.  In every state of a run, each of the five getters of the
    handler raises [KeyError] for a symbol that is not listed, whatever
    the other arguments, and so does an iteration of [calculate_signals]
    for such a symbol. *)
Theorem unknown_symbol_raises sys s :
  reachable sys -> s ∉ Data.symbol_list (handler sys) ->
  Data.get_latest_bar (handler sys) s = Raise KeyError /\
  (forall N, Data.get_latest_bars (handler sys) s N = Raise KeyError) /\
  Data.get_latest_tick_datetime (handler sys) s = Raise KeyError /\
  (forall val_type,
     Data.get_latest_tick_value (handler sys) s val_type = Raise KeyError) /\
  (forall val_type N,
     Data.get_latest_bars_values (handler sys) s val_type N = Raise KeyError) /\
  (forall cur_date state,
     Strategy.calculate_signals_for (handler sys) cur_date s state = Raise KeyError).
Proof.
  intros Hreach Hs. destruct (reachable_absent sys s Hreach Hs) as (_ & Hl & Hb & _).
  assert (Hvalues : forall val_type N,
    Data.get_latest_bars_values (handler sys) s val_type N = Raise KeyError).
  { intros val_type N. unfold Data.get_latest_bars_values, Data.get_latest_bars, getitem.
    by rewrite Hb. }
  unfold Data.get_latest_bar, Data.get_latest_bars, Data.get_latest_tick_datetime,
    Data.get_latest_tick_value, getitem.
  rewrite Hl, Hb. cbn. do 4 (split; [done|]). split; [exact Hvalues|].
  intros cur_date [st events]. unfold Strategy.calculate_signals_for.
  by rewrite Hvalues.
Qed.

End Unlisted.

(** ** The latest tick *)


Section Served.
Context `{TzDatabase}.



End Served.

(** ** The columns of a bar *)

Lemma bars_values_known bars_list val_type :
  val_type ∈ ["open"; "high"; "low"; "close"] ->
  Forall (fun f => f <> []) bars_list ->
  exists w, Data.bars_values bars_list val_type = Ok w /\ length w = length bars_list.
Proof.
  intros Hcol Hne. induction Hne as [|b rest Hb Hrest (w & Hw & Hlen)].
  { by exists []. }
  destruct b as [|row b]; [done|]. cbn. rewrite Hw. cbn.
  assert (exists v, Data.bar_column row val_type = Ok v) as (v & ->).
  { unfold Data.bar_column.
    repeat (apply elem_of_cons in Hcol as [->|Hcol]; [cbn; by eexists|]).
    by apply elem_of_nil in Hcol. }
  cbn. exists (v :: w). split; [done|]. cbn. by rewrite Hlen.
Qed.

Lemma bars_values_unknown bars_list val_type :
  val_type ∉ ["open"; "high"; "low"; "close"] ->
  Forall (fun f => f <> []) bars_list ->
  Data.bars_values bars_list val_type
    = match bars_list with [] => Ok [] | _ => Raise KeyError end.
Proof.
  intros Hcol Hne. destruct Hne as [|b rest Hb Hrest]; [done|].
  destruct b as [|row b]; [done|]. cbn.
  assert (Data.bar_column row val_type = Raise KeyError) as ->; [|done].
  unfold Data.bar_column.
  repeat (let Hc := fresh "Hc" in
          apply not_elem_of_cons in Hcol as [Hc Hcol];
          rewrite (proj2 (String.eqb_neq _ _) Hc)).
  done.
Qed.

Section Columns.
Context `{TzDatabase}.

(** X5.  In every state of a run, [get_latest_bars_values(s, val_type, N)]
    returns one value per bar of [get_latest_bars(s, N)] when [val_type]
    is one of "open", "high", "low" and "close"; for any other column it
    raises [KeyError] as soon as there is a bar, and returns the empty
    array while there is none. *)
Theorem bars_values_by_column sys s N window val_type :
  reachable sys ->
  Data.get_latest_bars (handler sys) s N = Ok window ->
  (val_type ∈ ["open"; "high"; "low"; "close"] ->
   exists w,
     Data.get_latest_bars_values (handler sys) s val_type N = Ok w /\
     length w = length window) /\
  (val_type ∉ ["open"; "high"; "low"; "close"] ->
   Data.get_latest_bars_values (handler sys) s val_type N
     = match window with [] => Ok [] | _ => Raise KeyError end).
Proof.
  intros Hreach Hwin. pose proof (reachable_ok _ Hreach) as Hok.
  unfold Data.get_latest_bars_values. rewrite Hwin. cbn [mbind result_bind].
  unfold Data.get_latest_bars in Hwin. inv_bind Hwin as fs Hfs.
  apply getitem_Ok in Hfs. injection Hwin as <-.
  assert (Hne : Forall (fun f => f <> []) (slice_from (- N) fs)).
  { pose proof (ok_frames _ (ok_handler _ Hok) s fs Hfs) as Hall.
    destruct (slice_from_suffix (- N) fs) as (pre & Hpre).
    rewrite Hpre in Hall. by apply Forall_app in Hall as [_ ?]. }
  split; intros Hcol.
  - by apply bars_values_known.
  - by apply bars_values_unknown.
Qed.

End Columns.

(** ** The flag [continue_backtest] *)

Lemma occurrences_not_listed s l : s ∉ l -> occurrences s l = 0%nat.
Proof.
  intros Hs. unfold occurrences. rewrite filter_none; [done|].
  apply Forall_forall. intros x Hx ->. done.
Qed.

Lemma feed_reader_length f : length (reader (feed f)) = (length (reader f) - 1)%nat.
Proof. rewrite feed_reader, length_drop. done. Qed.

(** The loop of [update_ticks] leaves the flag set exactly when every
    reader had a record for each listing of its symbol. *)
Lemma update_ticks_flag l h h' :
  handler_ok h -> (forall s, s ∈ l -> s ∈ Data.symbol_list h) ->
  for_each Data.update_tick l h = Ok h' ->
  (Data.continue_backtest h' = true <->
   Data.continue_backtest h = true /\
   forall s f, s ∈ l -> view h s = Some f ->
     (occurrences s l <= length (reader f))%nat).
Proof.
  revert h. induction l as [|x l IH]; intros h Hok Hl Hrun.
  { cbn in Hrun. inversion Hrun; subst h'. split; [|by intros [? _]].
    intros Hflag. split; [exact Hflag|]. intros s f Hs. by apply elem_of_nil in Hs. }
  destruct (update_tick_ok h x Hok) as
    (h1 & fx & Hfx & Hstep & Hok1 & Hv1 & Hother & Hlist1 & Hflag1).
  { apply Hl. apply list_elem_of_here. }
  cbn [for_each] in Hrun. rewrite Hstep in Hrun. cbn [mbind result_bind] in Hrun.
  assert (Hl1 : forall s, s ∈ l -> s ∈ Data.symbol_list h1).
  { intros s Hs. rewrite Hlist1. apply Hl. by apply list_elem_of_further. }
  pose proof (IH h1 Hok1 Hl1 Hrun) as Hiff. rewrite Hiff. clear Hiff IH.
  assert (Hview1 : forall s, s <> x -> view h1 s = view h s).
  { intros s Hne. destruct (Hother s Hne) as (H1 & H2 & H3 & H4).
    by apply view_agree. }
  pose proof (feed_reader_length fx) as Hlen.
  split.
  - intros [Hflag HA]. rewrite Hflag1 in Hflag.
    destruct (reader fx) as [|tk rest] eqn:Hrd; [discriminate|].
    split; [exact Hflag|]. intros s f Hs Hf.
    destruct (decide (s = x)) as [->|Hne].
    + assert (f = fx) as -> by congruence. rewrite occurrences_cons_eq, Hrd.
      destruct (decide (x ∈ l)) as [Hin|Hout].
      * pose proof (HA x (feed fx) Hin Hv1) as Hle. rewrite Hlen in Hle.
        cbn in *. lia.
      * rewrite (occurrences_not_listed _ _ Hout). cbn. lia.
    + rewrite occurrences_cons_ne by done.
      apply HA; [|by rewrite Hview1].
      apply elem_of_cons in Hs as [?|?]; [done|assumption].
  - intros [Hflag HB].
    pose proof (HB x fx (list_elem_of_here _ _) Hfx) as Hx.
    rewrite occurrences_cons_eq in Hx.
    split.
    + rewrite Hflag1. destruct (reader fx); [cbn in Hx; lia|exact Hflag].
    + intros s f1 Hs Hf1. destruct (decide (s = x)) as [->|Hne].
      * assert (f1 = feed fx) as -> by congruence. rewrite Hlen. lia.
      * rewrite Hview1 in Hf1 by exact Hne.
        pose proof (HB s f1 (list_elem_of_further _ _ _ Hs) Hf1) as Hle.
        by rewrite occurrences_cons_ne in Hle.
Qed.

Section Flag.
Context `{TzDatabase}.

Lemma act_calculate_handler cur_date event sys sys' :
  act (CalculateSignals cur_date event) sys = Ok sys' -> handler sys' = handler sys.
Proof.
  intros Hact. cbn in Hact. inv_bind Hact as state Hrun. destruct state as [st' q'].
  by inversion Hact.
Qed.

Lemma run_flag acts sys sys' :
  system_ok sys -> run acts sys = Ok sys' ->
  (Data.continue_backtest (handler sys') = true <->
   Data.continue_backtest (handler sys) = true /\
   forall s f, s ∈ Data.symbol_list (handler sys) -> view (handler sys) s = Some f ->
     (updates acts * occurrences s (Data.symbol_list (handler sys))
      <= length (reader f))%nat).
Proof.
  revert sys. induction acts as [|a acts IH]; intros sys Hok Hrun.
  { cbn in Hrun. inversion Hrun; subst sys'. cbn. split; [|by intros [? _]].
    intros Hflag. split; [exact Hflag|]. intros. lia. }
  unfold run in Hrun. cbn [for_each] in Hrun. inv_bind Hrun as sys1 Hact.
  pose proof (act_ok _ _ _ Hok Hact) as Hok1.
  pose proof (IH sys1 Hok1 Hrun) as Hiff. rewrite Hiff. clear Hiff IH.
  destruct a as [|cur_date event].
  2:{ apply act_calculate_handler in Hact. rewrite Hact. done. }
  cbn [updates]. cbn in Hact. inv_bind Hact as x Hupd. destruct x as [h1 q1].
  inversion Hact; subst sys1. clear Hact. cbn [handler].
  destruct (update_ticks_ok (handler sys) (queue sys) (ok_handler _ Hok))
    as (h' & Hrun' & _ & Hlist & Hviews & _).
  rewrite Hrun' in Hupd. inversion Hupd; subst h1 q1. clear Hupd.
  unfold Data.update_ticks in Hrun'. inv_bind Hrun' as h1 Hloop.
  inversion Hrun'; subst h1. clear Hrun'.
  rewrite (update_ticks_flag _ _ _ (ok_handler _ Hok) (fun s Hs => Hs) Hloop).
  rewrite Hlist.
  assert (Hlen : forall s f, view (handler sys) s = Some f ->
    exists f1, view h' s = Some f1 /\
      length (reader f1)
      = (length (reader f) - occurrences s (Data.symbol_list (handler sys)))%nat).
  { intros s f Hf. eexists. split; [by apply Hviews|].
    by rewrite iter_feed_reader, length_drop. }
  split.
  - intros [[Hflag HA] HB]. split; [exact Hflag|]. intros s f Hs Hf.
    destruct (Hlen s f Hf) as (f1 & Hf1 & Hl1).
    pose proof (HA s f Hs Hf). pose proof (HB s f1 Hs Hf1). lia.
  - intros [Hflag HC]. split; [split; [exact Hflag|]|].
    + intros s f Hs Hf. pose proof (HC s f Hs Hf). lia.
    + intros s f1 Hs Hf1.
      destruct (ok_views _ (ok_handler _ Hok) s Hs) as (f & Hf).
      destruct (Hlen s f Hf) as (f1' & Hf1' & Hl1).
      assert (f1' = f1) as -> by congruence.
      pose proof (HC s f Hs Hf). lia.
Qed.

(** X6.  After a run, [continue_backtest] is still set if and only if
    the file of every listed symbol has held a record for each pull made
    so far, that is, at least (number of calls of [update_ticks]) times
    (number of listings of the symbol) records.  The flag is thus cleared
    by the first call that finds a reader empty, one call after the last
    record was served. *)
Theorem continue_backtest_iff csv_dir symbol_list cfg acts sys :
  boot csv_dir symbol_list cfg ≫= run acts = Ok sys ->
  (Data.continue_backtest (handler sys) = true <->
   forall s ticks, s ∈ symbol_list -> csv_dir !! (s +:+ ".csv") = Some ticks ->
     (updates acts * occurrences s symbol_list <= length ticks)%nat).
Proof.
  intros Hrun. inv_bind Hrun as sys0 Hboot.
  pose proof (boot_ok _ _ _ _ Hboot) as Hok0.
  apply boot_strategy in Hboot as (_ & Hh & _).
  destruct (handler_init_ok _ _ _ Hh) as (_ & Hlist & Hflag & Hin).
  rewrite (run_flag _ _ _ Hok0 Hrun), Hlist, Hflag.
  split.
  - intros [_ HA] s ticks Hs Hticks.
    destruct (Hin s Hs) as (records & Hrec & Hv).
    assert (records = ticks) as -> by congruence.
    exact (HA s _ Hs Hv).
  - intros HB. split; [done|]. intros s f Hs Hf.
    destruct (Hin s Hs) as (records & Hrec & Hv).
    assert (f = mkFeed records [] [] []) as -> by congruence.
    exact (HB s records Hs Hrec).
Qed.

End Flag.

(** ** Histories along runs *)

Section Growth.
Context `{TzDatabase}.

(** X7.  Along any continuation of a run the history of a symbol only
    grows: it is the earlier history followed by at most one new frame per
    call of [update_ticks] and listing of the symbol, whatever calls of
    [calculate_signals] lie in between.  So once the history fills the
    window of the strategy, the close window read by every later
    iteration has exactly [use_window] entries. *)
Theorem history_grows_along_runs sys acts sys' s fs :
  reachable sys -> run acts sys = Ok sys' ->
  Data.latest_bars_data (handler sys) !! s = Some fs ->
  exists new,
    Data.latest_bars_data (handler sys') !! s = Some (fs ++ new) /\
    (length new
     <= updates acts * occurrences s (Data.symbol_list (handler sys)))%nat /\
    (1 <= Strategy.use_window (strategy sys) ->
     Strategy.use_window (strategy sys) <= Z.of_nat (length fs) ->
     exists w,
       Data.get_latest_bars_values (handler sys') s "close"
         (Strategy.use_window (strategy sys')) = Ok w /\
       Z.of_nat (length w) = Strategy.use_window (strategy sys')).
Proof.
  intros Hreach Hrun Hfs. pose proof (reachable_ok _ Hreach) as Hok.
  pose proof (reachable_ok _ (reachable_run _ _ _ Hreach Hrun)) as Hok'.
  assert (Hs : s ∈ Data.symbol_list (handler sys)).
  { apply (ok_listed _ (ok_handler _ Hok)). by eexists. }
  destruct (ok_views _ (ok_handler _ Hok) s Hs) as (f & Hf).
  destruct (run_views _ _ _ Hok Hrun) as (_ & Hviews).
  pose proof (Hviews s f Hf) as Hf'.
  apply view_Some in Hf as (_ & _ & Hfs0 & _).
  apply view_Some in Hf' as (_ & _ & Hfs' & _).
  destruct (iter_feed_frames_app
              (updates acts * occurrences s (Data.symbol_list (handler sys))) f)
    as (new & Hnew & Hlen).
  rewrite Hnew in Hfs'. assert (frames f = fs) as Hff by congruence.
  rewrite Hff in Hfs'.
  exists new. split; [exact Hfs'|]. split; [exact Hlen|].
  intros Hu1 Hu2.
  destruct (run_settings _ _ _ Hok Hrun) as [(_ & _ & _ & _ & Huw & _) _].
  rewrite Huw.
  destruct (get_latest_bars_values_total (handler sys') s
              (Strategy.use_window (strategy sys)) _ Hfs') as (w & Hw & Hwl).
  { by apply (ok_frames _ (ok_handler _ Hok') s). }
  exists w. split; [exact Hw|].
  rewrite Hwl, slice_from_length by exact Hu1. rewrite length_app. lia.
Qed.

End Growth.

Lemma labels_app fs1 fs2 : labels (fs1 ++ fs2) = labels fs1 ++ labels fs2.
Proof. unfold labels. by rewrite concat_app, fmap_app. Qed.

Lemma feed_ascending seen tk rest f :
  time_ordered (seen ++ [tk]) -> aggregated seen f -> ascending seen f ->
  reader f = tk :: rest ->
  ascending (seen ++ [tk]) (feed f).
Proof.
  intros Hord Hagg [Hsorted Hbefore] Hreader.
  rewrite (feed_ordered seen tk rest f Hord Hagg Hreader).
  unfold ascending. rewrite last_snoc.
  pose proof (StronglySorted_app_1_l _ _ _ Hord) as Hseen.
  destruct (last seen) as [t|] eqn:Hlast.
  2:{ cbn [frames]. split; [exact Hsorted|].
      eapply Forall_impl; [exact Hbefore|]. intros L (t & Habs & _). discriminate. }
  destruct (later_bin seen t tk Hord Hlast) as (Hbin & Hbins).
  cbn zeta. set (B := Data.bin_of (Data.datetime t)) in *.
  assert (Hold : Forall (fun L => exists t0, Some tk = Some t0 /\
                                   L < Data.bin_of (Data.datetime t0))
                        (labels (frames f))).
  { eapply Forall_impl; [exact Hbefore|]. intros L (t' & Ht' & HL).
    assert (t' = t) as -> by congruence. fold B in HL. exists tk. split; [done|lia]. }
  destruct (decide (Data.bin_of (Data.datetime tk) = B)) as [Hsame|Hnew];
    cbn [frames]; [by split|].
  destruct (last_is_latest seen t Hseen Hlast) as (Hin & _).
  destruct (ohlc_single_bin B (window_of B seen)) as (b & Hb & Hlabel & _).
  { intros Hnil. assert (t ∈ window_of B seen) as Ht.
    { apply list_elem_of_filter. by split. }
    rewrite Hnil in Ht. by apply elem_of_nil in Ht. }
  { by apply time_ordered_filter. }
  { apply window_of_bin. }
  rewrite labels_app, Hb. unfold labels at 2 4. cbn. rewrite Hlabel. split.
  - apply StronglySorted_app_2; [|exact Hsorted|repeat constructor].
    intros L L' HL HL'. apply list_elem_of_singleton in HL' as ->.
    rewrite Forall_forall in Hbefore.
    destruct (Hbefore L HL) as (t' & Ht' & Hlt).
    assert (t' = t) as -> by congruence. exact Hlt.
  - apply Forall_app. split; [exact Hold|].
    apply Forall_singleton. exists tk. split; [done|]. lia.
Qed.

Lemma iter_feed_ascending ticks m :
  time_ordered ticks ->
  ascending (take m ticks) (Nat.iter m feed (mkFeed ticks [] [] [])).
Proof.
  intros Hord. induction m as [|m IH].
  { rewrite take_0. split; [constructor|constructor]. }
  rewrite Nat.iter_succ.
  pose proof (iter_feed_reader m (mkFeed ticks [] [] [])) as Hreader.
  cbn [reader] in Hreader.
  destruct (ticks !! m) as [tk|] eqn:Hm.
  - rewrite (take_S_r _ _ _ Hm).
    assert (Hord' : time_ordered (take m ticks ++ [tk])).
    { rewrite <- (take_S_r _ _ _ Hm).
      apply (StronglySorted_app_1_l _ (take (S m) ticks) (drop (S m) ticks)).
      by rewrite take_drop. }
    assert (Hr : reader (Nat.iter m feed (mkFeed ticks [] [] []))
                 = tk :: drop (S m) ticks).
    { rewrite Hreader. by apply drop_S. }
    apply (feed_ascending _ tk (drop (S m) ticks)); [exact Hord'| |exact IH|exact Hr].
    by apply iter_feed_aggregated.
  - apply lookup_ge_None in Hm.
    rewrite feed_exhausted by (rewrite Hreader; apply drop_ge; lia).
    rewrite take_ge by lia. by rewrite take_ge in IH by lia.
Qed.

Section Ascending.
Context `{TzDatabase}.

(** X8.  In a run on a time-ordered tick stream of a symbol, the stored
    bars come in strictly ascending order of their labels, so no window
    has two bars; all of them lie before the window of the newest tick
    read, and the filling frame holds exactly the ticks read so far that
    fall into that window.  Before the first tick both are empty. *)
Theorem history_is_ascending csv_dir symbol_list cfg acts sys s ticks :
  boot csv_dir symbol_list cfg ≫= run acts = Ok sys ->
  s ∈ symbol_list ->
  csv_dir !! (s +:+ ".csv") = Some ticks ->
  time_ordered ticks ->
  exists fs,
    Data.latest_bars_data (handler sys) !! s = Some fs /\
    StronglySorted Z.lt (labels fs) /\
    match last (take (updates acts * occurrences s symbol_list) ticks) with
    | None => fs = [] /\ Data.current_bar (handler sys) !! s = Some []
    | Some t =>
        Forall (fun L => L < Data.bin_of (Data.datetime t)) (labels fs) /\
        Data.current_bar (handler sys) !! s
          = Some (window_of (Data.bin_of (Data.datetime t))
                    (take (updates acts * occurrences s symbol_list) ticks))
    end.
Proof.
  intros Hrun Hs Hfile Hord. inv_bind Hrun as sys0 Hboot.
  pose proof (boot_ok _ _ _ _ Hboot) as Hok0.
  apply boot_strategy in Hboot as (_ & Hh0 & _).
  destruct (handler_init_ok _ _ _ Hh0) as (_ & Hlist0 & _ & Hviews0).
  destruct (Hviews0 s Hs) as (records & Hrec & Hview0).
  assert (records = ticks) as -> by congruence.
  destruct (run_views _ _ _ Hok0 Hrun) as (_ & Hviews).
  rewrite Hlist0 in Hviews.
  pose proof (Hviews s _ Hview0) as Hview.
  apply view_Some in Hview as (_ & _ & Hfs & Hcur).
  set (m := (updates acts * occurrences s symbol_list)%nat) in *.
  destruct (iter_feed_ascending ticks m Hord) as [Hsorted Hbefore].
  destruct (iter_feed_aggregated ticks m Hord) as [[Hfill Hframes] _].
  eexists. split; [exact Hfs|]. split; [exact Hsorted|].
  rewrite Hcur, Hfill.
  destruct (last (take m ticks)) as [t|] eqn:Hlast.
  - split; [|done]. eapply Forall_impl; [exact Hbefore|].
    intros L (t' & Ht' & HL). by inversion Ht'; subst.
  - split; [|done].
    destruct (frames (Nat.iter m feed (mkFeed ticks [] [] []))) as [|fr frs]; [done|].
    apply Forall_cons in Hframes as [(L & t & _ & _ & Habs & _) _]. discriminate.
Qed.

End Ascending.

Lemma bin_of_aligned t : Data.bin_of t mod Data.five_minutes = 0.
Proof. unfold Data.bin_of. apply Z.mod_mul. unfold Data.five_minutes. lia. Qed.

Lemma bin_of_window t x :
  Data.bin_of x = Data.bin_of t <->
  Data.bin_of t <= x < Data.bin_of t + Data.five_minutes.
Proof.
  unfold Data.bin_of.
  assert (Hd : 0 < Data.five_minutes) by (unfold Data.five_minutes; lia).
  pose proof (Z.div_mod x Data.five_minutes ltac:(lia)) as Hx.
  pose proof (Z.mod_pos_bound x Data.five_minutes Hd) as Hxm.
  split.
  - intros <-. nia.
  - intros [Hlo Hhi]. f_equal. symmetry.
    apply (Z.div_unique x Data.five_minutes (t / Data.five_minutes)
             (x - Data.five_minutes * (t / Data.five_minutes))); [left|]; lia.
Qed.

Section Alignment.
Context `{TzDatabase}.

(** X9.  In a run on a time-ordered tick stream of a symbol, every
    stored frame is a single bar whose label is a multiple of five minutes
    (windows are anchored at the epoch), and the ticks of the stream that
    make up the bar are exactly those with
    label <= timestamp < label + 5 minutes: windows are closed on the left
    and open on the right. *)
Theorem bars_are_aligned csv_dir symbol_list cfg acts sys s ticks fs frame :
  boot csv_dir symbol_list cfg ≫= run acts = Ok sys ->
  s ∈ symbol_list ->
  csv_dir !! (s +:+ ".csv") = Some ticks ->
  time_ordered ticks ->
  Data.latest_bars_data (handler sys) !! s = Some fs ->
  frame ∈ fs ->
  exists b,
    frame = [b] /\
    Data.label b mod Data.five_minutes = 0 /\
    forall t,
      t ∈ window_of (Data.label b) ticks <->
      t ∈ ticks /\
      Data.label b <= Data.datetime t < Data.label b + Data.five_minutes.
Proof.
  intros Hrun Hs Hfile Hord Hfs Hframe. inv_bind Hrun as sys0 Hboot.
  pose proof (boot_ok _ _ _ _ Hboot) as Hok0.
  apply boot_strategy in Hboot as (_ & Hh0 & _).
  destruct (handler_init_ok _ _ _ Hh0) as (_ & Hlist0 & _ & Hviews0).
  destruct (Hviews0 s Hs) as (records & Hrec & Hview0).
  assert (records = ticks) as -> by congruence.
  destruct (run_views _ _ _ Hok0 Hrun) as (_ & Hviews).
  rewrite Hlist0 in Hviews.
  pose proof (Hviews s _ Hview0) as Hview.
  apply view_Some in Hview as (_ & _ & Hfs' & _).
  rewrite Hfs in Hfs'. injection Hfs' as ->.
  destruct (frames_summarise ticks _ frame Hord Hframe)
    as (b & -> & _ & (first & final & Hhead & _)).
  exists b. split; [done|].
  assert (Hfirst : first ∈ window_of (Data.label b) ticks).
  { destruct (window_of (Data.label b) ticks) as [|x w]; [discriminate|].
    injection Hhead as ->. apply list_elem_of_here. }
  apply list_elem_of_filter in Hfirst as [Hbin _]. rewrite <- Hbin.
  split; [apply bin_of_aligned|].
  intros t. unfold window_of. rewrite list_elem_of_filter, Hbin, <- Hbin.
  rewrite bin_of_window. tauto.
Qed.

End Alignment.

(** ** The SHORT side *)

Section ShortSide.
Context `{TzDatabase}.



End ShortSide.

(** ** The anchors *)

Lemma kept_max_ge r : (r_max r <= kept_max r)%Q.
Proof.
  unfold kept_max. destruct (Qneb _ _); [apply Q.le_max_l|apply Qle_refl].
Qed.

Lemma kept_min_le r : (kept_min r <= r_min r)%Q.
Proof.
  unfold kept_min. destruct (Qneb _ _); [apply Q.le_min_l|apply Qle_refl].
Qed.

Section Anchors.
Context `{TzDatabase}.

Lemma carry_out_omm_price_ne v cur_date s p st events s0 :
  s0 <> s ->
  Strategy.omm_price (carry_out v cur_date s p st events).1 !! s0
    = Strategy.omm_price st !! s0.
Proof. intros Hne. destruct v; cbn; by rewrite ?lookup_insert_ne. Qed.

Lemma reachable_bracketed sys : reachable sys -> bracketed (strategy sys).
Proof.
  revert sys. apply reachable_invariant.
  - intros csv_dir symbol_list cfg sys Hboot.
    apply boot_strategy in Hboot as (_ & _ & Hst).
    unfold Strategy.__init__ in Hst. inversion Hst as [Hst'].
    intros s po mx mn. cbn. rewrite foldl_insert_lookup.
    destruct (decide _); [|by rewrite lookup_empty].
    intros [= <- <- <-]. split; apply Qle_refl.
  - intros sys h' q' _ HP _. exact HP.
  - intros sys s cur_date st' q' Hok HP Hs Hrun.
    destruct (resolved _ _ _ _ Hok Hrun) as (r & Hr & Hx).
    pose proof Hr as (_ & _ & _ & _ & Homm).
    destruct ((HP : bracketed _) _ _ _ _ Homm) as [Hlo Hhi].
    assert (Hkept : (kept_min r <= r_po r)%Q /\ (r_po r <= kept_max r)%Q).
    { split.
      - apply Qle_trans with (r_min r); [apply kept_min_le|exact Hlo].
      - apply Qle_trans with (r_max r); [exact Hhi|apply kept_max_ge]. }
    assert (Hm : bracketed (maintain (strategy sys) s r)).
    { intros s0 po mx mn. destruct (decide (s0 = s)) as [->|Hne].
      - rewrite (maintain_omm_price _ _ _ Homm). by intros [= <- <- <-].
      - rewrite maintain_omm_price_ne by exact Hne. apply (HP : bracketed _). }
    cbn. destruct Hx as [(_ & Hx)|(_ & a & _ & Hx)].
    { inversion Hx; subst st' q'. exact Hm. }
    replace st' with (carry_out (verdict (strategy sys) r a) cur_date s
                        (r_tick_price r) (maintain (strategy sys) s r)
                        (queue sys)).1 by (by rewrite <- Hx).
    intros s0 po mx mn. destruct (decide (s0 = s)) as [->|Hne].
    + destruct (verdict _ _ _); cbn [carry_out fst Strategy.omm_price
        Strategy.set_omm_price Strategy.set_bought];
        rewrite ?lookup_insert_eq;
        try (intros [= <- <- <-]; split; apply Qle_refl).
      exact (Hm s po mx mn).
    + rewrite carry_out_omm_price_ne by exact Hne. exact (Hm s0 po mx mn).
Qed.

(** X12.  In every state of a run, every listed symbol has a phase and a
    list of exactly three anchors with
    runningMin <= entryPrice <= runningMax, all three being 0 whenever the
    symbol is OUT. *)
Theorem anchors_bracket_entry sys s :
  reachable sys -> s ∈ Strategy.symbol_list (strategy sys) ->
  exists ph po mx mn,
    Strategy.bought (strategy sys) !! s = Some ph /\
    Strategy.omm_price (strategy sys) !! s = Some [po; mx; mn] /\
    (mn <= po)%Q /\ (po <= mx)%Q /\
    (ph = Phase.OUT -> po = 0%Q /\ mx = 0%Q /\ mn = 0%Q).
Proof.
  intros Hreach Hs. pose proof (reachable_ok _ Hreach) as Hok.
  destruct (ok_entries _ Hok s Hs) as (ph & po & mx & mn & Hph & Homm & Hzero & _).
  destruct (reachable_bracketed _ Hreach _ _ _ _ Homm) as [Hlo Hhi].
  by exists ph, po, mx, mn.
Qed.

(** X13.  In every state of a run, an iteration that puts no signal
    leaves the phase and the entry price of its symbol as they were, and
    moves the running extremes only outwards: when the entry price is not
    0 the new runningMax is the larger of the old one and the tick price
    and the new runningMin the smaller; when the entry price is 0, as for
    a symbol that is OUT but also for a position entered at a tick price
    of 0, the extremes are not touched at all. *)
Theorem held_position_anchors sys s cur_date st' po mx mn :
  reachable sys ->
  Strategy.omm_price (strategy sys) !! s = Some [po; mx; mn] ->
  Strategy.calculate_signals_for (handler sys) cur_date s
    (strategy sys, queue sys) = Ok (st', queue sys) ->
  exists tick_price mx' mn',
    Data.get_latest_tick_value (handler sys) s "tick" = Ok tick_price /\
    Strategy.bought st' !! s = Strategy.bought (strategy sys) !! s /\
    Strategy.omm_price st' !! s = Some [po; mx'; mn'] /\
    (mx <= mx')%Q /\ (mn' <= mn)%Q /\
    (~ (po == 0)%Q -> mx' = Qmax mx tick_price /\ mn' = Qmin mn tick_price) /\
    ((po == 0)%Q -> mx' = mx /\ mn' = mn).
Proof.
  intros Hreach Homm Hrun. pose proof (reachable_ok _ Hreach) as Hok.
  destruct (resolved _ _ _ _ Hok Hrun) as (r & Hr & Hx).
  pose proof Hr as (_ & _ & Hp & _ & Homm').
  rewrite Homm in Homm'. injection Homm' as Hpo Hmx Hmn.
  assert (Hst : st' = maintain (strategy sys) s r).
  { destruct Hx as [(_ & Hx)|(_ & a & _ & Hx)]; [by inversion Hx|].
    pose proof (carry_out_queue (verdict (strategy sys) r a) cur_date s
                  (r_tick_price r) (maintain (strategy sys) s r) (queue sys)) as Hq.
    rewrite <- Hx in Hq. cbn [snd] in Hq.
    destruct (verdict (strategy sys) r a); cbn in Hq;
      try (apply (f_equal length) in Hq; rewrite length_app in Hq; cbn in Hq; lia).
    cbn in Hx. by inversion Hx. }
  subst st'. exists (r_tick_price r), (kept_max r), (kept_min r).
  split; [exact Hp|]. split; [by rewrite maintain_bought|].
  split.
  { rewrite (maintain_omm_price _ _ _ (proj2 (proj2 (proj2 (proj2 Hr))))).
    by rewrite <- Hpo. }
  rewrite Hmx, Hmn, Hpo.
  split; [apply kept_max_ge|]. split; [apply kept_min_le|].
  unfold kept_max, kept_min. split.
  - intros Hne. destruct (Qneb (r_po r) 0) eqn:Hb; [done|].
    apply Qneb_false in Hb. done.
  - intros Hz. apply Qneb_false in Hz. by rewrite Hz.
Qed.

End Anchors.

(** ** Calls of [calculate_signals] *)

Section Calls.
Context `{TzDatabase}.

(** What the loop of [calculate_signals] puts: at most one signal for each
    symbol it processes, stamped with the reading of the wall clock. *)
Lemma calculate_signals_loop_puts bars cur_date l state state' :
  for_each (Strategy.calculate_signals_for bars cur_date) l state = Ok state' ->
  exists put,
    state'.2 = state.2 ++ put /\
    (length put <= length l)%nat /\
    Forall (fun e => exists s d, s ∈ l /\ e = Strategy.signal cur_date s d) put.
Proof.
  revert state. induction l as [|x l IH]; intros state Hrun; cbn in Hrun.
  { inversion Hrun; subst. exists []. by rewrite app_nil_r. }
  inv_bind Hrun as state1 Hstep. destruct state as [st ev], state1 as [st1 ev1].
  destruct (calculate_signals_for_moves _ _ _ _ _ _ _ Hstep) as (put1 & -> & Hm & _).
  destruct (IH _ Hrun) as (put & Hq & Hlen & Hall). cbn [snd] in *.
  exists (put1 ++ put). split; [by rewrite Hq, app_assoc|].
  assert (Hfurther : Forall (fun e => exists s d,
            s ∈ x :: l /\ e = Strategy.signal cur_date s d) put).
  { eapply Forall_impl; [exact Hall|]. intros e (s & d & Hs & ->).
    exists s, d. split; [by apply list_elem_of_further|done]. }
  destruct Hm as [[_ ->]|(ph & ph' & d & _ & _ & _ & ->)]; cbn.
  - split; [lia|exact Hfurther].
  - split; [lia|]. constructor; [|exact Hfurther].
    exists x, d. split; [apply list_elem_of_here|done].
Qed.

(** X14.  From any state, a call of [calculate_signals] that completes
    only appends to the queue, at most one event per entry of the symbol
    list, each of them a [SignalEvent] for a listed symbol with strategy
    id 1, strength 1 and the wall-clock reading as its date; on an event
    that is not a [MarketEvent] it changes neither the strategy nor the
    queue. *)
Theorem calculate_signals_puts_signals st bars cur_date event events st' events' :
  Strategy.calculate_signals st bars cur_date event events = Ok (st', events') ->
  exists put,
    events' = events ++ put /\
    (length put <= length (Strategy.symbol_list st))%nat /\
    (forall e, e ∈ put ->
       exists s d, s ∈ Strategy.symbol_list st /\ e = Strategy.signal cur_date s d) /\
    (event_type event <> MARKET -> st' = st /\ put = []).
Proof.
  unfold Strategy.calculate_signals. intros Hrun.
  destruct (event_type event) eqn:Hty.
  - apply calculate_signals_loop_puts in Hrun as (put & Hq & Hlen & Hall).
    exists put. cbn in Hq. split; [exact Hq|]. split; [exact Hlen|].
    split; [|done]. by apply Forall_forall.
  - inversion Hrun; subst st' events'. exists []. rewrite app_nil_r.
    split; [done|]. split; [cbn; lia|]. split; [|done].
    intros e He. by apply elem_of_nil in He.
Qed.

(** The loop of [calculate_signals] over distinct symbols moves the phase
    of each at most once. *)
Lemma calculate_signals_loop_moves bars cur_date l st ev st' ev' s0 :
  NoDup l ->
  for_each (Strategy.calculate_signals_for bars cur_date) l (st, ev) = Ok (st', ev') ->
  (s0 ∉ l -> Strategy.bought st' !! s0 = Strategy.bought st !! s0) /\
  (Strategy.bought st' !! s0 = Strategy.bought st !! s0 \/
   exists ph ph' d,
     Strategy.bought st !! s0 = Some ph /\ Strategy.bought st' !! s0 = Some ph' /\
     transition ph ph' d /\ Strategy.signal cur_date s0 d ∈ ev').
Proof.
  intros Hnd. revert st ev. induction l as [|x l IH]; intros st ev Hrun; cbn in Hrun.
  { inversion Hrun; subst. split; [done|by left]. }
  inv_bind Hrun as state1 Hstep. destruct state1 as [st1 ev1].
  apply NoDup_cons in Hnd as [Hx Hnd].
  destruct (calculate_signals_for_moves _ _ _ _ _ _ _ Hstep) as (put1 & -> & Hm & Hothers).
  destruct (IH Hnd _ _ Hrun) as [Hout Hin].
  destruct (calculate_signals_loop_puts _ _ _ _ _ Hrun) as (put & Hq & _). cbn in Hq.
  destruct (decide (s0 = x)) as [->|Hne].
  - split; [intros Hs0; exfalso; apply Hs0, list_elem_of_here|].
    rewrite (Hout Hx).
    destruct Hm as [[-> _]|(ph & ph' & d & Hp & Hp' & Ht & ->)]; [by left|].
    right. exists ph, ph', d. do 3 (split; [done|]).
    rewrite Hq. apply elem_of_app. left. apply elem_of_app. right.
    apply list_elem_of_here.
  - rewrite <- (Hothers s0 Hne). split; [|exact Hin].
    intros Hs0. apply Hout. by apply not_elem_of_cons in Hs0 as [_ ?].
Qed.

(** X15.  From any state with a duplicate-free symbol list, a call of
    [calculate_signals] that completes changes the phase of a symbol at
    most by one of the four moves OUT->LONG, OUT->SHORT, LONG->OUT,
    SHORT->OUT, whose signal is then on the queue; it never takes a symbol
    from LONG to SHORT or from SHORT to LONG, and it leaves the phase of
    every symbol that is not listed. *)
Theorem calculate_signals_moves_once st bars cur_date event events st' events' s0 :
  NoDup (Strategy.symbol_list st) ->
  Strategy.calculate_signals st bars cur_date event events = Ok (st', events') ->
  (s0 ∉ Strategy.symbol_list st ->
   Strategy.bought st' !! s0 = Strategy.bought st !! s0) /\
  (Strategy.bought st' !! s0 = Strategy.bought st !! s0 \/
   exists ph ph' d,
     Strategy.bought st !! s0 = Some ph /\ Strategy.bought st' !! s0 = Some ph' /\
     transition ph ph' d /\ Strategy.signal cur_date s0 d ∈ events') /\
  ~ (Strategy.bought st !! s0 = Some Phase.LONG /\
     Strategy.bought st' !! s0 = Some Phase.SHORT) /\
  ~ (Strategy.bought st !! s0 = Some Phase.SHORT /\
     Strategy.bought st' !! s0 = Some Phase.LONG).
Proof.
  intros Hnd Hrun. unfold Strategy.calculate_signals in Hrun.
  assert (Hmoves :
    (s0 ∉ Strategy.symbol_list st ->
     Strategy.bought st' !! s0 = Strategy.bought st !! s0) /\
    (Strategy.bought st' !! s0 = Strategy.bought st !! s0 \/
     exists ph ph' d,
       Strategy.bought st !! s0 = Some ph /\ Strategy.bought st' !! s0 = Some ph' /\
       transition ph ph' d /\ Strategy.signal cur_date s0 d ∈ events')).
  { destruct (event_type event).
    - by apply (calculate_signals_loop_moves bars cur_date _ st events).
    - inversion Hrun; subst. split; [done|by left]. }
  destruct Hmoves as [Hout Hin]. split; [exact Hout|]. split; [exact Hin|].
  split; intros [Hp Hp'];
    (destruct Hin as [Heq|(ph & ph' & d & Hq & Hq' & Ht & _)];
     [congruence|]);
    rewrite Hp in Hq; rewrite Hp' in Hq'; inversion Hq; inversion Hq'; subst;
    inversion Ht.
Qed.

End Calls.

(** ** The exceptions of an iteration *)

Lemma ewm_last_invalid span xs :
  span < 1 -> Strategy.ewm_mean span xs ≫= getitem_last = Raise ValueError.
Proof.
  intros Hspan. unfold Strategy.ewm_mean. by rewrite (proj2 (Z.ltb_lt _ _) Hspan).
Qed.

Section Errors.
Context `{TzDatabase}.

(** X16.  The exceptions of an iteration in a state of a run, for a
    symbol with history [fs] and latest-tick list [lt].  Without a tick
    ([lt] empty) it raises [IndexError].  With a tick it raises
    [IndexError] when [use_window] is 0 and the history is empty (the
    empty window counts as full and has no last close), and [ValueError]
    when the window is full ([1 <= use_window <= length fs]) and the short
    or the mid span is below 1; in every other case (a negative
    [use_window], a window that is not full, or a full window with short
    and mid spans of at least 1) it completes. *)
Theorem iteration_errors sys s cur_date fs lt :
  reachable sys ->
  Data.latest_bars_data (handler sys) !! s = Some fs ->
  Data.latest_symbol_data (handler sys) !! s = Some lt ->
  (lt = [] -> iteration sys cur_date s = Raise IndexError) /\
  (lt <> [] -> Strategy.use_window (strategy sys) = 0 -> fs = [] ->
   iteration sys cur_date s = Raise IndexError) /\
  (lt <> [] ->
   1 <= Strategy.use_window (strategy sys) ->
   Strategy.use_window (strategy sys) <= Z.of_nat (length fs) ->
   Strategy.short_window (strategy sys) < 1 \/
     Strategy.mid_window (strategy sys) < 1 ->
   iteration sys cur_date s = Raise ValueError) /\
  (lt <> [] ->
   Strategy.use_window (strategy sys) < 0 \/
   (Strategy.use_window (strategy sys) = 0 /\ fs <> []) \/
   Z.of_nat (length fs) < Strategy.use_window (strategy sys) \/
   (1 <= Strategy.use_window (strategy sys) /\
    Strategy.use_window (strategy sys) <= Z.of_nat (length fs) /\
    1 <= Strategy.short_window (strategy sys) /\
    1 <= Strategy.mid_window (strategy sys)) ->
   exists x, iteration sys cur_date s = Ok x).
Proof.
  intros Hreach Hfs Hlt. pose proof (reachable_ok _ Hreach) as Hok.
  assert (Hs : s ∈ Strategy.symbol_list (strategy sys)).
  { rewrite (ok_symbols _ Hok). apply (ok_listed _ (ok_handler _ Hok)). by eexists. }
  destruct (get_latest_bars_values_total (handler sys) s
              (Strategy.use_window (strategy sys)) _ Hfs) as (w & Hw & Hwl).
  { by apply (ok_frames _ (ok_handler _ Hok) s). }
  unfold iteration. split.
  { intros ->. unfold Strategy.calculate_signals_for. rewrite Hw.
    cbn [mbind result_bind]. unfold Data.get_latest_tick_datetime.
    by rewrite (getitem_Some _ _ _ Hlt). }
  assert (Hread : lt <> [] ->
    exists r, reads (handler sys) (strategy sys) s r /\ r_bars_value r = w).
  { intros Hne. destruct (latest_tick_total _ _ _ Hlt Hne) as (t & _ & Htd & _).
    destruct (reads_total sys s _ Hok Hs Htd) as (r & Hr & _).
    exists r. split; [exact Hr|]. destruct Hr as (Hrw & _). congruence. }
  split; [|split].
  - intros Hne Hu0 ->. destruct (Hread Hne) as (r & Hr & Hrw).
    rewrite (calculate_signals_for_reads _ _ _ _ _ _ Hr), Hrw.
    rewrite Hu0 in Hwl. cbn in Hwl. destruct w; [|discriminate].
    rewrite decide_True by (by rewrite Hu0). done.
  - intros Hne Hu1 Hu2 Hspan. destruct (Hread Hne) as (r & Hr & Hrw).
    rewrite (calculate_signals_for_reads _ _ _ _ _ _ Hr), Hrw.
    rewrite slice_from_length in Hwl by exact Hu1.
    rewrite decide_True by lia.
    assert (Hwne : w <> []).
    { intros ->. cbn in Hwl. lia. }
    unfold averages. destruct (getitem_last_Ok w Hwne) as (lb & ->).
    cbn [mbind result_bind].
    destruct (Z.ltb_spec (Strategy.short_window (strategy sys)) 1) as [Hsw|Hsw].
    { by rewrite (ewm_last_invalid _ w Hsw). }
    destruct (ewm_last_total (Strategy.short_window (strategy sys)) w Hsw Hwne)
      as (se & ->).
    cbn [mbind result_bind].
    destruct Hspan as [?|Hmw]; [lia|].
    by rewrite (ewm_last_invalid _ w Hmw).
  - intros Hne Hcases. destruct (Hread Hne) as (r & Hr & Hrw).
    rewrite (calculate_signals_for_reads _ _ _ _ _ _ Hr), Hrw.
    destruct (decide _) as [Hfull|Hshort]; [|by eexists].
    destruct Hcases as [Hneg|[[Hu0 Hfne]|[Hfew|(Hu1 & Hu2 & Hsw & Hmw)]]].
    + lia.
    + rewrite Hu0 in Hwl. cbn in Hwl. rewrite Hu0 in Hfull.
      destruct fs; [done|]. change (slice_from (- 0) (l :: fs)) with (l :: fs) in Hwl.
      cbn in Hwl. lia.
    + rewrite slice_from_length in Hwl by lia. lia.
    + assert (Hwne : w <> []).
      { intros ->. cbn in Hfull. lia. }
      pose proof (ok_window _ Hok) as Hwin.
      destruct (averages_total (strategy sys) w Hwne Hsw Hmw) as (a & ->); [lia|].
      cbn [mbind result_bind]. by eexists.
Qed.

End Errors.

(** ** A span of 1 *)

Lemma getitem_last_cons_cons {A : Type} (a b : A) (l : list A) :
  getitem_last (a :: b :: l) = getitem_last (b :: l).
Proof.
  unfold getitem_last. cbn [List.rev]. by destruct (List.rev l).
Qed.

Lemma ewm_from_last_one a prev x0 xs v lb :
  (a == 1)%Q -> (prev == x0)%Q ->
  getitem_last (prev :: Strategy.ewm_from a prev xs) = Ok v ->
  getitem_last (x0 :: xs) = Ok lb -> (v == lb)%Q.
Proof.
  intros Ha. revert prev x0. induction xs as [|x xs IH]; intros prev x0 Hp Hv Hlb.
  { cbn in Hv, Hlb. inversion Hv; inversion Hlb; subst. exact Hp. }
  cbn [Strategy.ewm_from] in Hv. rewrite getitem_last_cons_cons in Hv, Hlb.
  eapply IH; [|exact Hv|exact Hlb]. rewrite Ha. ring.
Qed.

Lemma ewm_last_one xs v lb :
  Strategy.ewm_mean 1 xs ≫= getitem_last = Ok v -> getitem_last xs = Ok lb ->
  (v == lb)%Q.
Proof.
  unfold Strategy.ewm_mean. cbn. destruct xs as [|x0 xs]; [discriminate|].
  intros Hv Hlb. eapply (ewm_from_last_one (Strategy.alpha 1) x0 x0 xs);
    [by vm_compute|reflexivity|exact Hv|exact Hlb].
Qed.

(** With a span equal to 1 an average is the last close itself, and
    neither entry rule can hold. *)
Lemma degenerate_rules st w a :
  averages st w = Ok a ->
  Strategy.short_window st <= 1 \/ Strategy.mid_window st <= 1 \/
    Strategy.long_window st <= 1 ->
  ~ long_entry_rule st (last_bar_price a) (short_ema a) (mid_ema a) (long_ema a) /\
  ~ short_entry_rule st (last_bar_price a) (short_ema a) (mid_ema a) (long_ema a).
Proof.
  intros Ha Hspan. pose proof (averages_Ok _ _ _ Ha) as (_ & Hs & Hm & Hl).
  unfold averages in Ha. inv_bind Ha as lb Hlb. inv_bind Ha as se Hse.
  inv_bind Ha as me Hme. inv_bind Ha as le Hle. inversion Ha; subst a. cbn.
  unfold long_entry_rule, short_entry_rule.
  destruct Hspan as [Hx|[Hx|Hx]].
  - assert (Strategy.short_window st = 1) as E by lia. rewrite E in Hse.
    pose proof (ewm_last_one _ _ _ Hse Hlb). split; intros (? & ? & ? & _); lra.
  - assert (Strategy.mid_window st = 1) as E by lia. rewrite E in Hme.
    pose proof (ewm_last_one _ _ _ Hme Hlb). split; intros (? & ? & ? & _); lra.
  - assert (Strategy.long_window st = 1) as E by lia. rewrite E in Hle.
    pose proof (ewm_last_one _ _ _ Hle Hlb). split; intros (? & ? & ? & _); lra.
Qed.

Section Degenerate.
Context `{TzDatabase}.

(** X17.  A strategy one of whose three spans is 1 or less never trades:
    in every state of a run all its symbols are OUT and the queue holds
    nothing but [MarketEvent]s.  (With a span of 1 the average is the last
    close itself, which no entry rule admits; with a span below 1 no
    average is ever obtained.) *)
Theorem degenerate_span_never_trades sys :
  reachable sys ->
  Strategy.short_window (strategy sys) <= 1 \/
    Strategy.mid_window (strategy sys) <= 1 \/
    Strategy.long_window (strategy sys) <= 1 ->
  (forall s ph, Strategy.bought (strategy sys) !! s = Some ph -> ph = Phase.OUT) /\
  (forall e, e ∈ queue sys -> e = MarketEvent).
Proof.
  revert sys.
  apply (reachable_invariant (fun sys =>
    Strategy.short_window (strategy sys) <= 1 \/
      Strategy.mid_window (strategy sys) <= 1 \/
      Strategy.long_window (strategy sys) <= 1 ->
    (forall s ph, Strategy.bought (strategy sys) !! s = Some ph -> ph = Phase.OUT) /\
    (forall e, e ∈ queue sys -> e = MarketEvent))).
  - intros csv_dir symbol_list cfg sys Hboot _.
    apply boot_strategy in Hboot as (Hq & _ & Hst). rewrite Hq.
    split; [|intros e He; by apply elem_of_nil in He].
    unfold Strategy.__init__ in Hst. injection Hst as Hst. rewrite <- Hst. cbn.
    intros s ph. unfold Strategy._calculate_initial_bought.
    rewrite foldl_insert_lookup. destruct (decide _); [congruence|].
    by rewrite lookup_empty.
  - intros sys h' q' _ HP Hupd Hspan. cbn in *.
    destruct (HP Hspan) as [Hout Hq]. split; [exact Hout|].
    unfold Data.update_ticks in Hupd. inv_bind Hupd as h1 Hloop.
    inversion Hupd; subst h' q'. intros e He.
    apply elem_of_app in He as [He|He]; [by apply Hq|].
    by apply list_elem_of_singleton in He.
  - intros sys s cur_date st' q' Hok HP Hs Hrun Hspan. cbn [strategy queue] in *.
    assert (Hsame : same_settings (strategy sys) st').
    { destruct sys as [h st q]. by eapply calculate_signals_for_settings. }
    destruct Hsame as (_ & E1 & E2 & E3 & _). rewrite E1, E2, E3 in Hspan.
    destruct (HP Hspan) as [Hout Hq].
    destruct (resolved _ _ _ _ Hok Hrun) as (r & Hr & Hx).
    pose proof Hr as (_ & _ & _ & Hph & _).
    pose proof (Hout _ _ Hph) as Hphase.
    assert (Hkeep : (st', q') = (maintain (strategy sys) s r, queue sys)).
    { destruct Hx as [(_ & Hx)|(_ & a & Ha & Hx)]; [exact Hx|].
      destruct (degenerate_rules _ _ _ Ha Hspan) as [Hnl Hns].
      destruct (verdict (strategy sys) r a) eqn:Hv; [| | | |exact Hx].
      - apply verdict_EnterLong in Hv as (_ & _ & ?). done.
      - apply verdict_EnterShort in Hv as (_ & _ & ?). done.
      - apply verdict_ExitLong in Hv as (? & _). congruence.
      - apply verdict_ExitShort in Hv as (? & _). congruence. }
    inversion Hkeep; subst st' q'. rewrite maintain_bought. by split.
Qed.

End Degenerate.

(** ** Whole runs *)

Lemma pulses_app q1 q2 : pulses (q1 ++ q2) = (pulses q1 + pulses q2)%nat.
Proof. unfold pulses. by rewrite filter_app, length_app. Qed.

Lemma pulses_signals q :
  Forall (fun e => exists cur_date s d, e = Strategy.signal cur_date s d) q ->
  pulses q = 0%nat.
Proof.
  intros Hq. unfold pulses. rewrite filter_none; [done|].
  eapply Forall_impl; [exact Hq|]. intros e (cur_date & s & d & ->). done.
Qed.

Section WholeRuns.
Context `{TzDatabase}.

(** X18.  Nothing in a run changes the configuration: in every state the
    handler and the strategy still carry the symbol list given at
    construction, the spans are the arguments of the constructor,
    [use_window] is four times the long span and the six thresholds are
    the arguments scaled by 1e-4. *)
Theorem settings_are_fixed csv_dir symbol_list cfg acts sys :
  boot csv_dir symbol_list cfg ≫= run acts = Ok sys ->
  Data.symbol_list (handler sys) = symbol_list /\
  Strategy.symbol_list (strategy sys) = symbol_list /\
  Strategy.short_window (strategy sys) = arg_short_window cfg /\
  Strategy.mid_window (strategy sys) = arg_mid_window cfg /\
  Strategy.long_window (strategy sys) = arg_long_window cfg /\
  Strategy.use_window (strategy sys) = 4 * arg_long_window cfg /\
  Strategy.min_diff (strategy sys) = (arg_min_diff cfg * (1 # 10000))%Q /\
  Strategy.min_deep (strategy sys) = (arg_min_deep cfg * (1 # 10000))%Q /\
  Strategy.plus (strategy sys) = (arg_plus cfg * (1 # 10000))%Q /\
  Strategy.sl (strategy sys) = (arg_sl cfg * (1 # 10000))%Q /\
  Strategy.tp (strategy sys) = (arg_tp cfg * (1 # 10000))%Q /\
  Strategy.ts_step (strategy sys) = (arg_ts_step cfg * (1 # 10000))%Q.
Proof.
  intros Hrun. inv_bind Hrun as sys0 Hboot.
  pose proof (boot_ok _ _ _ _ Hboot) as Hok0.
  destruct (run_settings _ _ _ Hok0 Hrun) as
    [(E0 & E1 & E2 & E3 & E4 & E5 & E6 & E7 & E8 & E9 & E10) Hlist].
  rewrite Hlist, E0, E1, E2, E3, E4, E5, E6, E7, E8, E9, E10.
  apply boot_strategy in Hboot as (_ & Hh & Hst).
  destruct (handler_init_ok _ _ _ Hh) as (_ & Hl & _).
  unfold Strategy.__init__ in Hst. injection Hst as Hst. rewrite <- Hst. cbn.
  by rewrite Hl.
Qed.

Lemma run_queue acts sys sys' :
  system_ok sys -> run acts sys = Ok sys' ->
  exists put,
    queue sys' = queue sys ++ put /\
    pulses put = updates acts /\
    forall e, e ∈ put ->
      e = MarketEvent \/
      exists cur_date event s d,
        CalculateSignals cur_date event ∈ acts /\ event_type event = MARKET /\
        s ∈ Strategy.symbol_list (strategy sys) /\
        e = Strategy.signal cur_date s d.
Proof.
  revert sys. induction acts as [|a acts IH]; intros sys Hok Hrun.
  { cbn in Hrun. inversion Hrun; subst sys'. exists []. rewrite app_nil_r.
    split; [done|]. split; [done|]. intros e He. by apply elem_of_nil in He. }
  unfold run in Hrun. cbn [for_each] in Hrun. inv_bind Hrun as sys1 Hact.
  pose proof (act_ok _ _ _ Hok Hact) as Hok1.
  destruct (IH sys1 Hok1 Hrun) as (put & Hq & Hpulses & Hall). clear IH.
  assert (Hlist : Strategy.symbol_list (strategy sys1)
                  = Strategy.symbol_list (strategy sys)).
  { destruct (run_settings [a] sys sys1 Hok) as [(E0 & _) _]; [|exact E0].
    unfold run. cbn. by rewrite Hact. }
  assert (Hlater : forall e, e ∈ put ->
    e = MarketEvent \/
    exists cur_date event s d,
      CalculateSignals cur_date event ∈ a :: acts /\ event_type event = MARKET /\
      s ∈ Strategy.symbol_list (strategy sys) /\
      e = Strategy.signal cur_date s d).
  { intros e He. destruct (Hall e He) as [->|(cd & ev & s & d & H1 & H2 & H3 & ->)];
      [by left|]. right. exists cd, ev, s, d.
    split; [by apply list_elem_of_further|]. by rewrite <- Hlist. }
  destruct a as [|cur_date event]; cbn in Hact.
  - inv_bind Hact as x Hupd. destruct x as [h1 q1]. inversion Hact; subst sys1.
    unfold Data.update_ticks in Hupd. inv_bind Hupd as h2 Hloop.
    inversion Hupd; subst h1 q1. cbn [queue] in Hq.
    exists ([MarketEvent] ++ put). split; [by rewrite Hq, app_assoc|].
    split; [rewrite pulses_app; cbn; by rewrite Hpulses|].
    intros e He. apply elem_of_app in He as [He|He]; [|by apply Hlater].
    apply list_elem_of_singleton in He. by left.
  - inv_bind Hact as state Hcall. destruct state as [st1 q1].
    inversion Hact; subst sys1. cbn [queue] in Hq.
    unfold Strategy.calculate_signals in Hcall.
    destruct (event_type event) eqn:Hty.
    2:{ inversion Hcall; subst st1 q1. exists put. split; [exact Hq|].
        split; [exact Hpulses|exact Hlater]. }
    apply calculate_signals_loop_puts in Hcall as (put1 & Hq1 & _ & Hsig).
    cbn [snd] in Hq1. subst q1. rewrite Forall_forall in Hsig.
    exists (put1 ++ put). split; [by rewrite Hq, app_assoc|].
    split.
    { rewrite pulses_app, Hpulses. cbn. rewrite pulses_signals; [done|].
      apply Forall_forall. intros e He. destruct (Hsig e He) as (s & d & _ & ->).
      by eexists _, _, _. }
    intros e He. apply elem_of_app in He as [He|He]; [|by apply Hlater].
    destruct (Hsig e He) as (s & d & Hs & ->). right.
    exists cur_date, event, s, d. split; [apply list_elem_of_here|]. done.
Qed.

(** X19.  The queue after a run holds exactly one [MarketEvent] per call
    of [update_ticks]; every other event is a [SignalEvent] for a listed
    symbol, with strategy id 1 and strength 1, dated with the wall-clock
    reading of a call of [calculate_signals] of the run that was handed a
    [MarketEvent]. *)
Theorem queue_of_a_run csv_dir symbol_list cfg acts sys :
  boot csv_dir symbol_list cfg ≫= run acts = Ok sys ->
  pulses (queue sys) = updates acts /\
  forall e, e ∈ queue sys ->
    e = MarketEvent \/
    exists cur_date event s d,
      CalculateSignals cur_date event ∈ acts /\ event_type event = MARKET /\
      s ∈ symbol_list /\ e = Strategy.signal cur_date s d.
Proof.
  intros Hrun. inv_bind Hrun as sys0 Hboot.
  pose proof (boot_ok _ _ _ _ Hboot) as Hok0.
  destruct (run_queue _ _ _ Hok0 Hrun) as (put & Hq & Hpulses & Hall).
  apply boot_strategy in Hboot as (Hq0 & Hh & Hst).
  rewrite Hq0 in Hq. cbn in Hq. rewrite Hq. split; [exact Hpulses|].
  intros e He. destruct (Hall e He) as [->|(cd & ev & s & d & H1 & H2 & H3 & ->)];
    [by left|].
  right. exists cd, ev, s, d. do 2 (split; [done|]). split; [|done].
  unfold Strategy.__init__ in Hst. injection Hst as Hst. rewrite <- Hst in H3.
  cbn in H3. destruct (handler_init_ok _ _ _ Hh) as (_ & Hl & _). by rewrite <- Hl.
Qed.

End WholeRuns.

(** ** The loop of a backtest *)

Section Totality.
Context `{TzDatabase}.

Lemma iteration_total sys s cur_date :
  system_ok sys -> valid_spans (strategy sys) -> ticked (handler sys) ->
  s ∈ Strategy.symbol_list (strategy sys) ->
  exists x, iteration sys cur_date s = Ok x.
Proof.
  intros Hok (Hsw & Hmw & Hlw) Hticked Hs. unfold iteration.
  pose proof Hs as Hs'. rewrite (ok_symbols _ Hok) in Hs'.
  destruct (Hticked s Hs') as (lt & Hlt & Hne).
  destruct (latest_tick_total _ _ _ Hlt Hne) as (t & _ & Htd & _).
  destruct (reads_total sys s _ Hok Hs Htd) as (r & Hr & _).
  rewrite (calculate_signals_for_reads _ _ _ _ _ _ Hr).
  destruct (decide _) as [Hfull|Hshort]; [|by eexists].
  assert (Hwne : r_bars_value r <> []).
  { intros Hnil. rewrite Hnil in Hfull. cbn in Hfull.
    pose proof (ok_window _ Hok). lia. }
  destruct (averages_total (strategy sys) _ Hwne Hsw Hmw Hlw) as (a & ->).
  cbn [mbind result_bind]. by eexists.
Qed.

Lemma valid_spans_settings st st' :
  same_settings st st' -> valid_spans st -> valid_spans st'.
Proof.
  intros (_ & E1 & E2 & E3 & _) (H1 & H2 & H3). unfold valid_spans.
  by rewrite E1, E2, E3.
Qed.

(** In a state of a run with valid spans in which every listed symbol has
    a tick, neither kind of step raises, and both keep it so. *)
Lemma act_total a sys :
  system_ok sys -> valid_spans (strategy sys) -> ticked (handler sys) ->
  exists sys',
    act a sys = Ok sys' /\ system_ok sys' /\ valid_spans (strategy sys') /\
    ticked (handler sys').
Proof.
  intros Hok Hvalid Hticked. destruct a as [|cur_date event]; cbn [act].
  - destruct (update_ticks_ok (handler sys) (queue sys) (ok_handler _ Hok))
      as (h' & Hrun & _ & Hlist & Hviews & _).
    rewrite Hrun. cbn [mbind result_bind]. eexists. split; [reflexivity|].
    split; [|split; [exact Hvalid|]].
    { eapply (act_ok UpdateTicks sys); [exact Hok|]. cbn [act]. by rewrite Hrun. }
    cbn [handler]. intros s Hs. rewrite Hlist in Hs.
    destruct (ok_views _ (ok_handler _ Hok) s Hs) as (f & Hf).
    pose proof (Hviews s f Hf) as Hf'.
    destruct (Hticked s Hs) as (lt & Hlt & Hne).
    apply view_Some in Hf as (_ & Hl & _). apply view_Some in Hf' as (_ & Hl' & _).
    eexists. split; [exact Hl'|]. apply iter_feed_latest. congruence.
  - unfold Strategy.calculate_signals.
    destruct (event_type event).
    2:{ cbn. eexists. split; [reflexivity|]. by destruct sys. }
    destruct (for_each_total
      (fun state => system_ok (mkSystem (handler sys) state.1 state.2) /\
                    same_settings (strategy sys) state.1)
      (Strategy.calculate_signals_for (handler sys) cur_date)
      (Strategy.symbol_list (strategy sys))) with (st := (strategy sys, queue sys))
      as ([st' q'] & Hrun & Hok' & Hsame).
    + intros s [st1 q1] Hs [Hok1 Hsame1]. cbn [fst snd] in *.
      assert (Hs1 : s ∈ Strategy.symbol_list st1).
      { destruct Hsame1 as (E0 & _). by rewrite E0. }
      destruct (iteration_total (mkSystem (handler sys) st1 q1) s cur_date Hok1)
        as ([st2 q2] & Hstep); [by eapply valid_spans_settings|exact Hticked|exact Hs1|].
      unfold iteration in Hstep. cbn [handler strategy queue] in Hstep.
      exists (st2, q2). split; [exact Hstep|]. cbn [fst snd]. split.
      * by eapply calculate_signals_for_ok.
      * eapply same_settings_trans; [exact Hsame1|].
        by eapply calculate_signals_for_settings.
    + cbn. split; [by destruct sys|apply same_settings_refl].
    + rewrite Hrun. cbn [mbind result_bind fst snd] in *.
      eexists. split; [reflexivity|]. cbn [handler strategy].
      split; [exact Hok'|]. split; [by eapply valid_spans_settings|exact Hticked].
Qed.

Lemma run_total acts sys :
  system_ok sys -> valid_spans (strategy sys) -> ticked (handler sys) ->
  exists sys', run acts sys = Ok sys'.
Proof.
  revert sys. induction acts as [|a acts IH]; intros sys Hok Hvalid Hticked.
  { by eexists. }
  destruct (act_total a sys Hok Hvalid Hticked) as (sys1 & Hact & Hok1 & Hv1 & Ht1).
  destruct (IH sys1 Hok1 Hv1 Ht1) as (sys' & Hrun).
  exists sys'. unfold run in *. cbn [for_each]. by rewrite Hact.
Qed.

(** X20.  The loop of a backtest never raises: if every listed symbol
    has a file with at least one record and the three spans are at least
    1, then construction succeeds and every sequence of calls of
    [update_ticks] and [calculate_signals] that begins with a call of
    [update_ticks] runs to its end, exhausted readers included. *)
Theorem driver_never_raises csv_dir symbol_list cfg acts :
  (forall s, s ∈ symbol_list ->
     exists ticks, csv_dir !! (s +:+ ".csv") = Some ticks /\ ticks <> []) ->
  1 <= arg_short_window cfg -> 1 <= arg_mid_window cfg -> 1 <= arg_long_window cfg ->
  pulls_first acts ->
  exists sys, boot csv_dir symbol_list cfg ≫= run acts = Ok sys.
Proof.
  intros Hfiles Hsw Hmw Hlw Hfirst.
  destruct (Data.__init__ csv_dir symbol_list) as [h0|e] eqn:Hinit.
  2:{ unfold Data.__init__, Data._open_convert_csv_files in Hinit. cbn in Hinit.
      apply open_convert_csv_files_raise in Hinit as (_ & s & Hs & Hmiss).
      destruct (Hfiles s Hs) as (ticks & Hticks & _). congruence. }
  assert (Hboot : boot csv_dir symbol_list cfg
    = Ok (mkSystem h0
            (Strategy.mkStrategy (Data.symbol_list h0) (arg_short_window cfg)
               (arg_mid_window cfg) (arg_long_window cfg)
               (4 * arg_long_window cfg)
               (arg_min_diff cfg * (1 # 10000))%Q (arg_min_deep cfg * (1 # 10000))%Q
               (arg_plus cfg * (1 # 10000))%Q (arg_sl cfg * (1 # 10000))%Q
               (arg_tp cfg * (1 # 10000))%Q (arg_ts_step cfg * (1 # 10000))%Q
               (Strategy._calculate_initial_bought (Data.symbol_list h0))
               (foldl (fun d s => <[s := [0; 0; 0]%Q]> d) ∅ (Data.symbol_list h0)))
            [])).
  { unfold boot. by rewrite Hinit. }
  rewrite Hboot. cbn [mbind result_bind].
  pose proof (boot_ok _ _ _ _ Hboot) as Hok0.
  destruct (handler_init_ok _ _ _ Hinit) as (_ & Hlist0 & _ & Hviews0).
  destruct acts as [|[|cur_date event] acts]; [by eexists| |done].
  destruct (update_ticks_ok h0 [] (ok_handler _ Hok0))
    as (h1 & Hup & _ & Hlist1 & Hviews1 & _).
  unfold run. cbn [for_each act handler queue]. rewrite Hup. cbn [mbind result_bind].
  apply run_total.
  - eapply (act_ok UpdateTicks); [exact Hok0|]. cbn [act handler queue].
    by rewrite Hup.
  - cbn. done.
  - cbn [handler]. intros s Hs. rewrite Hlist1 in Hs. cbn [handler] in Hs.
    pose proof Hs as Hs'. rewrite Hlist0 in Hs'.
    destruct (Hviews0 s Hs') as (records & Hrec & Hv0).
    destruct (Hfiles s Hs') as (ticks & Hticks & Hne).
    assert (records = ticks) as -> by congruence.
    pose proof (Hviews1 s _ Hv0) as Hv1. apply view_Some in Hv1 as (_ & Hl1 & _).
    eexists. split; [exact Hl1|].
    pose proof (occurrences_listed s _ Hs) as Hocc.
    destruct (occurrences s (Data.symbol_list h0)) as [|n]; [lia|].
    destruct (iter_feed_latest_last n (mkFeed ticks [] [] [])) as (tk & _ & ->);
      [exact Hne|done].
Qed.

End Totality.

(** * Further instances *)

Section FurtherInstances.
#[local] Existing Instance fixed_offsets.

Ltac reach csv_dir cfg acts :=
  exists csv_dir, ["EURUSD"], cfg, acts; vm_compute; reflexivity.

Ltac decided :=
  match goal with
  | |- ?P => let d := constr:(_ : Decision P) in
             apply (@bool_decide_unpack P d); vm_compute; exact I
  end.



Lemma sys_H_reachable : reachable sys_H.
Proof. reach (directory stream_H) settings_2_3_5 acts_C. Defined.

Lemma sys_G_reachable : reachable sys_G.
Proof. reach (directory stream_B) settings_1_3_5 (steps 21). Defined.

Lemma sys_V_reachable : reachable sys_V.
Proof. reach (directory stream_B) settings_0_3_5 acts_B. Defined.

(** X1 needs no instance; a directory without the file of a listed symbol
    makes the constructor raise. *)
Example missing_file_raises :
  Data.__init__ (directory stream_B) ["EURUSD"; "GBPUSD"] = Raise FileNotFoundError.
Proof. vm_compute. reflexivity. Qed.

(** X2, on scenario B, whose only symbol is EURUSD. *)
Lemma unknown_symbol_raises_witness :
  Data.get_latest_bar (handler sys_B) "GBPUSD" = Raise KeyError /\
  (forall N, Data.get_latest_bars (handler sys_B) "GBPUSD" N = Raise KeyError) /\
  Data.get_latest_tick_datetime (handler sys_B) "GBPUSD" = Raise KeyError /\
  (forall val_type,
     Data.get_latest_tick_value (handler sys_B) "GBPUSD" val_type = Raise KeyError) /\
  (forall val_type N,
     Data.get_latest_bars_values (handler sys_B) "GBPUSD" val_type N
       = Raise KeyError) /\
  (forall cur_date state,
     Strategy.calculate_signals_for (handler sys_B) cur_date "GBPUSD" state
       = Raise KeyError).
Proof. apply (unknown_symbol_raises sys_B "GBPUSD" sys_B_reachable). decided. Defined.



(** X5, on scenario B: the two newest bars and the column "volume". *)
Lemma bars_values_by_column_witness :
  ("volume" ∈ ["open"; "high"; "low"; "close"] ->
   exists w,
     Data.get_latest_bars_values (handler sys_B) "EURUSD" "volume" 2 = Ok w /\
     length w = length (drop 18 (history_of sys_B "EURUSD"))) /\
  ("volume" ∉ ["open"; "high"; "low"; "close"] ->
   Data.get_latest_bars_values (handler sys_B) "EURUSD" "volume" 2
     = match drop 18 (history_of sys_B "EURUSD") with
       | [] => Ok []
       | _ => Raise KeyError
       end).
Proof.
  apply (bars_values_by_column sys_B "EURUSD" 2 (drop 18 (history_of sys_B "EURUSD"))
           "volume" sys_B_reachable).
  vm_compute. reflexivity.
Defined.

(** ... where the request indeed raises, while "high" is served. *)
Example columns_of_scenario_B :
  Data.get_latest_bars_values (handler sys_B) "EURUSD" "volume" 2 = Raise KeyError /\
  Data.get_latest_bars_values (handler sys_B) "EURUSD" "high" 2
    = Ok [101075 # 100000; 10005 # 10000]%Q.
Proof. split; vm_compute; reflexivity. Qed.

(** X6, on the two-symbol run. *)
Lemma continue_backtest_iff_witness :
  Data.continue_backtest (handler sys_two) = true <->
  forall s ticks,
    s ∈ ["EURUSD"; "GBPUSD"] -> directory_two !! (s +:+ ".csv") = Some ticks ->
    (updates [UpdateTicks] * occurrences s ["EURUSD"; "GBPUSD"] <= length ticks)%nat.
Proof.
  apply (continue_backtest_iff directory_two ["EURUSD"; "GBPUSD"] default_settings
           [UpdateTicks] sys_two).
  vm_compute. reflexivity.
Defined.

(** X7, from scenario C before the entry to scenario C. *)
Lemma history_grows_along_runs_witness :
  exists new,
    Data.latest_bars_data (handler sys_C) !! "EURUSD"
      = Some (history_of sys_C0 "EURUSD" ++ new) /\
    (length new
     <= updates [CalculateSignals 0 MarketEvent; UpdateTicks]
        * occurrences "EURUSD" (Data.symbol_list (handler sys_C0)))%nat /\
    (1 <= Strategy.use_window (strategy sys_C0) ->
     Strategy.use_window (strategy sys_C0)
       <= Z.of_nat (length (history_of sys_C0 "EURUSD")) ->
     exists w,
       Data.get_latest_bars_values (handler sys_C) "EURUSD" "close"
         (Strategy.use_window (strategy sys_C)) = Ok w /\
       Z.of_nat (length w) = Strategy.use_window (strategy sys_C)).
Proof.
  apply (history_grows_along_runs sys_C0
           [CalculateSignals 0 MarketEvent; UpdateTicks] sys_C "EURUSD"
           (history_of sys_C0 "EURUSD")).
  - reach (directory stream_C) settings_2_3_5 acts_B.
  - vm_compute. reflexivity.
  - vm_compute. reflexivity.
Defined.

(** X8, on scenario C. *)
Lemma history_is_ascending_witness :
  exists fs,
    Data.latest_bars_data (handler sys_C) !! "EURUSD" = Some fs /\
    StronglySorted Z.lt (labels fs) /\
    match last (take (updates acts_C * occurrences "EURUSD" ["EURUSD"]) stream_C) with
    | None => fs = [] /\ Data.current_bar (handler sys_C) !! "EURUSD" = Some []
    | Some t =>
        Forall (fun L => L < Data.bin_of (Data.datetime t)) (labels fs) /\
        Data.current_bar (handler sys_C) !! "EURUSD"
          = Some (window_of (Data.bin_of (Data.datetime t))
                    (take (updates acts_C * occurrences "EURUSD" ["EURUSD"])
                       stream_C))
    end.
Proof.
  apply (history_is_ascending (directory stream_C) ["EURUSD"] settings_2_3_5
           acts_C sys_C "EURUSD" stream_C).
  - vm_compute. reflexivity.
  - apply list_elem_of_here.
  - vm_compute. reflexivity.
  - apply stream_ordered.
Defined.

(** X9, on the newest bar of scenario C. *)
Lemma bars_are_aligned_witness :
  exists b,
    [Data.mkBar (11 * hour + 40 * minute) 1 1 1 1] = [b] /\
    Data.label b mod Data.five_minutes = 0 /\
    forall t,
      t ∈ window_of (Data.label b) stream_C <->
      t ∈ stream_C /\
      Data.label b <= Data.datetime t < Data.label b + Data.five_minutes.
Proof.
  apply (bars_are_aligned (directory stream_C) ["EURUSD"] settings_2_3_5 acts_C sys_C
           "EURUSD" stream_C (history_of sys_C "EURUSD")).
  - vm_compute. reflexivity.
  - apply list_elem_of_here.
  - vm_compute. reflexivity.
  - apply stream_ordered.
  - vm_compute. reflexivity.
  - apply (list_elem_of_lookup_2 _ 20). vm_compute. reflexivity.
Defined.


(** The mirrored scenario B itself: one SHORT signal, phase SHORT, the
    three anchors at 0.9995. *)
Example scenario_B_mirrored :
  exists st',
    Strategy.calculate_signals_for (handler sys_D) 0 "EURUSD"
      (strategy sys_D, queue sys_D)
    = Ok (st', queue sys_D ++ [Strategy.signal 0 "EURUSD" Direction.SHORT]) /\
    Strategy.bought st' !! "EURUSD" = Some Phase.SHORT /\
    Strategy.omm_price st' !! "EURUSD"
      = Some [9995 # 10000; 9995 # 10000; 9995 # 10000]%Q.
Proof. eexists. split; [vm_compute; reflexivity|]. split; vm_compute; reflexivity. Qed.


(** That run itself: SHORT at 1.0000, and the tick at 0.9990 puts the
    EXIT. *)
Example short_take_profit :
  Strategy.bought (strategy sys_F) !! "EURUSD" = Some Phase.SHORT /\
  Strategy.omm_price (strategy sys_F) !! "EURUSD" = Some [1; 1; 1]%Q /\
  Data.get_latest_tick_value (handler sys_F) "EURUSD" "tick" = Ok (9990 # 10000)%Q /\
  exists st',
    Strategy.calculate_signals_for (handler sys_F) 0 "EURUSD"
      (strategy sys_F, queue sys_F)
    = Ok (st', queue sys_F ++ [Strategy.signal 0 "EURUSD" Direction.EXIT]) /\
    Strategy.bought st' !! "EURUSD" = Some Phase.OUT.
Proof.
  do 3 (split; [vm_compute; reflexivity|]).
  eexists. split; vm_compute; reflexivity.
Qed.

(** X12, on scenario C. *)
Lemma anchors_bracket_entry_witness :
  exists ph po mx mn,
    Strategy.bought (strategy sys_C) !! "EURUSD" = Some ph /\
    Strategy.omm_price (strategy sys_C) !! "EURUSD" = Some [po; mx; mn] /\
    (mn <= po)%Q /\ (po <= mx)%Q /\
    (ph = Phase.OUT -> po = 0%Q /\ mx = 0%Q /\ mn = 0%Q).
Proof. apply (anchors_bracket_entry sys_C "EURUSD" sys_C_reachable). decided. Defined.

(** X13, on the LONG entered at 1.0000 with the tick at 1.0004. *)
Lemma held_position_anchors_witness :
  exists tick_price mx' mn',
    Data.get_latest_tick_value (handler sys_H) "EURUSD" "tick" = Ok tick_price /\
    Strategy.bought held_H !! "EURUSD" = Strategy.bought (strategy sys_H) !! "EURUSD" /\
    Strategy.omm_price held_H !! "EURUSD" = Some [1%Q; mx'; mn'] /\
    (1 <= mx')%Q /\ (mn' <= 1)%Q /\
    (~ (1 == 0)%Q -> mx' = Qmax 1 tick_price /\ mn' = Qmin 1 tick_price) /\
    ((1 == 0)%Q -> mx' = 1%Q /\ mn' = 1%Q).
Proof.
  apply (held_position_anchors sys_H "EURUSD" 0 held_H 1%Q 1%Q 1%Q sys_H_reachable).
  - vm_compute. reflexivity.
  - vm_compute. reflexivity.
Defined.

(** That run itself: the position is held and runningMax follows the tick
    to 1.0004. *)
Example held_position :
  Strategy.bought held_H !! "EURUSD" = Some Phase.LONG /\
  Strategy.omm_price held_H !! "EURUSD" = Some [1; 10004 # 10000; 1]%Q.
Proof. split; vm_compute; reflexivity. Qed.

(** X14, on the call that makes the entry of scenario B. *)
Lemma calculate_signals_puts_signals_witness :
  exists put,
    queue sys_B1 = queue sys_B ++ put /\
    (length put <= length (Strategy.symbol_list (strategy sys_B)))%nat /\
    (forall e, e ∈ put ->
       exists s d,
         s ∈ Strategy.symbol_list (strategy sys_B) /\ e = Strategy.signal 0 s d) /\
    (event_type MarketEvent <> MARKET -> strategy sys_B1 = strategy sys_B /\ put = []).
Proof.
  apply (calculate_signals_puts_signals (strategy sys_B) (handler sys_B) 0 MarketEvent
           (queue sys_B) (strategy sys_B1) (queue sys_B1)).
  vm_compute. reflexivity.
Defined.

(** X15, on the same call. *)
Lemma calculate_signals_moves_once_witness :
  ("EURUSD" ∉ Strategy.symbol_list (strategy sys_B) ->
   Strategy.bought (strategy sys_B1) !! "EURUSD"
     = Strategy.bought (strategy sys_B) !! "EURUSD") /\
  (Strategy.bought (strategy sys_B1) !! "EURUSD"
     = Strategy.bought (strategy sys_B) !! "EURUSD" \/
   exists ph ph' d,
     Strategy.bought (strategy sys_B) !! "EURUSD" = Some ph /\
     Strategy.bought (strategy sys_B1) !! "EURUSD" = Some ph' /\
     transition ph ph' d /\ Strategy.signal 0 "EURUSD" d ∈ queue sys_B1) /\
  ~ (Strategy.bought (strategy sys_B) !! "EURUSD" = Some Phase.LONG /\
     Strategy.bought (strategy sys_B1) !! "EURUSD" = Some Phase.SHORT) /\
  ~ (Strategy.bought (strategy sys_B) !! "EURUSD" = Some Phase.SHORT /\
     Strategy.bought (strategy sys_B1) !! "EURUSD" = Some Phase.LONG).
Proof.
  apply (calculate_signals_moves_once (strategy sys_B) (handler sys_B) 0 MarketEvent
           (queue sys_B) (strategy sys_B1) (queue sys_B1) "EURUSD").
  - vm_compute. apply NoDup_singleton.
  - vm_compute. reflexivity.
Defined.

(** X16, on scenario B under a short span of 0, with the window full. *)
Lemma iteration_errors_witness :
  (latest_of sys_V "EURUSD" = [] -> iteration sys_V 0 "EURUSD" = Raise IndexError) /\
  (latest_of sys_V "EURUSD" <> [] -> Strategy.use_window (strategy sys_V) = 0 ->
   history_of sys_V "EURUSD" = [] ->
   iteration sys_V 0 "EURUSD" = Raise IndexError) /\
  (latest_of sys_V "EURUSD" <> [] ->
   1 <= Strategy.use_window (strategy sys_V) ->
   Strategy.use_window (strategy sys_V)
     <= Z.of_nat (length (history_of sys_V "EURUSD")) ->
   Strategy.short_window (strategy sys_V) < 1 \/
     Strategy.mid_window (strategy sys_V) < 1 ->
   iteration sys_V 0 "EURUSD" = Raise ValueError) /\
  (latest_of sys_V "EURUSD" <> [] ->
   Strategy.use_window (strategy sys_V) < 0 \/
   (Strategy.use_window (strategy sys_V) = 0 /\ history_of sys_V "EURUSD" <> []) \/
   Z.of_nat (length (history_of sys_V "EURUSD")) < Strategy.use_window (strategy sys_V) \/
   (1 <= Strategy.use_window (strategy sys_V) /\
    Strategy.use_window (strategy sys_V)
      <= Z.of_nat (length (history_of sys_V "EURUSD")) /\
    1 <= Strategy.short_window (strategy sys_V) /\
    1 <= Strategy.mid_window (strategy sys_V)) ->
   exists x, iteration sys_V 0 "EURUSD" = Ok x).
Proof.
  apply (iteration_errors sys_V "EURUSD" 0 (history_of sys_V "EURUSD")
           (latest_of sys_V "EURUSD") sys_V_reachable).
  - vm_compute. reflexivity.
  - vm_compute. reflexivity.
Defined.

(** In that run the steps go on until the window is full; the iteration
    on the full window raises [ValueError]. *)
Example invalid_span_raises :
  Strategy.short_window (strategy sys_V) = 0 /\
  length (history_of sys_V "EURUSD") = 20%nat /\
  iteration sys_V 0 "EURUSD" = Raise ValueError.
Proof. repeat split; vm_compute; reflexivity. Qed.

(** X17, on scenario B under a short span of 1, after as many steps as
    made the entry under the spans 2, 3 and 5. *)
Lemma degenerate_span_never_trades_witness :
  (forall s ph, Strategy.bought (strategy sys_G) !! s = Some ph -> ph = Phase.OUT) /\
  (forall e, e ∈ queue sys_G -> e = MarketEvent).
Proof.
  apply (degenerate_span_never_trades sys_G sys_G_reachable).
  left. vm_compute. discriminate.
Defined.

(** X18, on scenario B. *)
Lemma settings_are_fixed_witness :
  Data.symbol_list (handler sys_B) = ["EURUSD"] /\
  Strategy.symbol_list (strategy sys_B) = ["EURUSD"] /\
  Strategy.short_window (strategy sys_B) = arg_short_window settings_2_3_5 /\
  Strategy.mid_window (strategy sys_B) = arg_mid_window settings_2_3_5 /\
  Strategy.long_window (strategy sys_B) = arg_long_window settings_2_3_5 /\
  Strategy.use_window (strategy sys_B) = 4 * arg_long_window settings_2_3_5 /\
  Strategy.min_diff (strategy sys_B) = (arg_min_diff settings_2_3_5 * (1 # 10000))%Q /\
  Strategy.min_deep (strategy sys_B) = (arg_min_deep settings_2_3_5 * (1 # 10000))%Q /\
  Strategy.plus (strategy sys_B) = (arg_plus settings_2_3_5 * (1 # 10000))%Q /\
  Strategy.sl (strategy sys_B) = (arg_sl settings_2_3_5 * (1 # 10000))%Q /\
  Strategy.tp (strategy sys_B) = (arg_tp settings_2_3_5 * (1 # 10000))%Q /\
  Strategy.ts_step (strategy sys_B) = (arg_ts_step settings_2_3_5 * (1 # 10000))%Q.
Proof.
  apply (settings_are_fixed (directory stream_B) ["EURUSD"] settings_2_3_5 acts_B sys_B).
  vm_compute. reflexivity.
Defined.

(** X19, on scenario C, whose queue holds the LONG signal of the entry
    among 22 pulses. *)
Lemma queue_of_a_run_witness :
  pulses (queue sys_C) = updates acts_C /\
  forall e, e ∈ queue sys_C ->
    e = MarketEvent \/
    exists cur_date event s d,
      CalculateSignals cur_date event ∈ acts_C /\ event_type event = MARKET /\
      s ∈ ["EURUSD"] /\ e = Strategy.signal cur_date s d.
Proof.
  apply (queue_of_a_run (directory stream_C) ["EURUSD"] settings_2_3_5 acts_C sys_C).
  vm_compute. reflexivity.
Defined.

Example queue_of_scenario_C :
  updates acts_C = 22%nat /\ length (queue sys_C) = 23%nat /\
  queue sys_C !! 21%nat = Some (Strategy.signal 0 "EURUSD" Direction.LONG).
Proof. repeat split; vm_compute; reflexivity. Qed.

(** X20, on the steps of scenario B. *)
Lemma driver_never_raises_witness :
  exists sys, boot (directory stream_B) ["EURUSD"] settings_2_3_5 ≫= run acts_B = Ok sys.
Proof.
  apply (driver_never_raises (directory stream_B) ["EURUSD"] settings_2_3_5 acts_B).
  - intros s Hs. apply list_elem_of_singleton in Hs as ->. exists stream_B.
    split; [vm_compute; reflexivity|vm_compute; discriminate].
  - vm_compute. discriminate.
  - vm_compute. discriminate.
  - vm_compute. discriminate.
  - exact I.
Defined.

End FurtherInstances.
